(** * Analytics dynamic-config fetch, throttled retry and event dispatch

    A model of [packages/analytics/src/get-config.ts], of [initializeGAId],
    of the functions of [functions.ts] and [factory.ts] of the analytics
    package, and of [CollectionReference.doc] of the Firestore lite API.

    JavaScript objects used as maps are [gmap]s of their own properties,
    read together with the members they inherit from [Object.prototype];
    promises are represented by the way they settle, and the asynchronous
    retry loop is a transition system whose events are the callbacks the
    JavaScript event loop delivers (a timer firing, the network fetch
    settling). *)

From Stdlib Require Import ZArith Lia Ascii String.
From stdpp Require Import base option list strings pretty gmap.

Open Scope Z_scope.

(** ** JavaScript values *)

(** The primitive values that flow through the modelled functions;
    [JNum z] is the Number nearest to the integer [z]. *)
Inductive JsValue :=
| JUndefined
| JBool (b : bool)
| JNum (z : Z)
| JStr (s : string).

#[global] Instance JsValue_eq_dec : EqDecision JsValue.
Proof. solve_decision. Defined.

(** A plain object: own string keys to values. *)
Abbreviation JsObject := (gmap string JsValue).

(** [o.key]: a missing property reads as [undefined]. *)
Definition getProp (o : JsObject) (key : string) : JsValue :=
  default JUndefined (o !! key).

(** Codes of the analytics error factory that the sources name. *)
Inductive AnalyticsError :=
| FETCH_THROTTLE
| ALREADY_INITIALIZED
| ALREADY_EXISTS
| NO_GA_ID.

Inductive ErrorCode :=
| AnalyticsCode (c : AnalyticsError)
| OtherCode (c : string).

(** [Code] of the Firestore errors, as far as the sources use it. *)
Inductive Code :=
| INVALID_ARGUMENT.

(** Thrown values.  [PlainError] is [new Error(message)] and every other
    throwable that is an instance neither of [FirebaseError] nor of
    [FirestoreError] (a [TypeError] of [fetch], a [SyntaxError] of [json()]).
    A [FirebaseError] carries its code and its custom fields; [data] maps a
    field name to the integer that [Number(e[name])] reads from it, and a
    field that is absent, or that [Number] reads as [NaN], is not in the map.
    [FirestoreError] extends [Error], not [FirebaseError].  [TypeError] is
    the error with which the platform's [Headers] refuses a value; its
    message is the platform's. *)
Inductive JsError :=
| PlainError (message : string)
| FirebaseError (code : ErrorCode) (data : gmap string Z)
| FirestoreError (code : Code) (message : string)
| TypeError.

#[global] Instance AnalyticsError_eq_dec : EqDecision AnalyticsError.
Proof. solve_decision. Defined.
#[global] Instance Code_eq_dec : EqDecision Code.
Proof. solve_decision. Defined.
#[global] Instance ErrorCode_eq_dec : EqDecision ErrorCode.
Proof. solve_decision. Defined.
#[global] Instance JsError_eq_dec : EqDecision JsError.
Proof. solve_decision. Defined.

(** [ERROR_FACTORY.create(code, data)]. *)
Definition ERROR_FACTORY_create (code : AnalyticsError) (data : gmap string Z)
  : JsError :=
  FirebaseError (AnalyticsCode code) data.

(** How a promise settles. *)
Inductive Settled (A : Type) :=
| Fulfilled (a : A)
| Rejected (e : JsError).
Arguments Fulfilled {A} a.
Arguments Rejected {A} e.

(** ** Numbers and inherited members *)

(** A number as the retry loop may hold it: an integer, or [NaN], which is
    also what arithmetic makes of [undefined]. *)
Inductive JsNumber :=
| Finite (z : Z)
| NaN.

Coercion Finite : Z >-> JsNumber.

#[global] Instance JsNumber_eq_dec : EqDecision JsNumber.
Proof. solve_decision. Defined.

(** [a - b] and [Math.max(a, b)] for an integer [b]. *)
Definition number_sub (a : JsNumber) (b : Z) : JsNumber :=
  match a with
  | Finite x => Finite (x - b)
  | NaN => NaN
  end.

Definition Math_max (a : JsNumber) (b : Z) : JsNumber :=
  match a with
  | Finite x => Finite (Z.max x b)
  | NaN => NaN
  end.

(** The names of the members of [Object.prototype].  An object literal
    used as a map reads them, as functions or objects, for every key it
    does not own. *)
Definition objectPrototypeNames : list string :=
  ["constructor"; "__defineGetter__"; "__defineSetter__"; "hasOwnProperty";
   "__lookupGetter__"; "__lookupSetter__"; "isPrototypeOf";
   "propertyIsEnumerable"; "toString"; "valueOf"; "__proto__";
   "toLocaleString"].

Definition inherited (key : string) : bool :=
  bool_decide (key ∈ objectPrototypeNames).

(** ** [String.prototype.replace] with a string pattern *)

Module JsString.

(** [s.indexOf(pat)]: position of the first occurrence. *)
Fixpoint indexOf (pat s : string) : option nat :=
  if String.prefix pat s then Some 0%nat
  else match s with
       | EmptyString => None
       | String _ s' => S <$> indexOf pat s'
       end.

(** [GetSubstitution] for a string pattern (no captures): in the
    replacement text [$$] is a dollar sign, [$&] the matched text,
    [$`] the text before the match and [$'] the text after it; every
    other character, and a dollar sign followed by anything else, is
    copied. *)
Fixpoint getSubstitution (matched before after repl : string) : string :=
  match repl with
  | EmptyString => EmptyString
  | String "$"%char (String "$"%char r) =>
      String "$"%char (getSubstitution matched before after r)
  | String "$"%char (String "&"%char r) =>
      matched +:+ getSubstitution matched before after r
  | String "$"%char (String "`"%char r) =>
      before +:+ getSubstitution matched before after r
  | String "$"%char (String "'"%char r) =>
      after +:+ getSubstitution matched before after r
  | String c r => String c (getSubstitution matched before after r)
  end.

(** [s.replace(pat, repl)]: only the first occurrence is replaced. *)
Definition replace (s pat repl : string) : string :=
  match indexOf pat s with
  | None => s
  | Some i =>
      let before := String.substring 0 i s in
      let after :=
        String.substring (i + String.length pat)
          (String.length s - (i + String.length pat)) s in
      before +:+ getSubstitution pat before after repl +:+ after
  end.

(** The text holds no dollar sign. *)
Fixpoint dollarFree (s : string) : bool :=
  match s with
  | EmptyString => true
  | String c r => negb (Ascii.eqb c "$"%char) && dollarFree r
  end.

End JsString.

(** ** [get-config.ts] *)

(** [app.options], as far as the analytics package reads it. *)
Record FirebaseApp := {
  apiKey : option string;
  appId : option string
}.

(** [!x] for an optional string: [undefined] and the empty string are falsy. *)
Definition falsy (x : option string) : bool :=
  match x with
  | None => true
  | Some s => bool_decide (s = "")
  end.

Record ThrottleMetadata := {
  backoffCount : Z;
  throttleEndTimeMillis : Z
}.

#[global] Instance ThrottleMetadata_eq_dec : EqDecision ThrottleMetadata.
Proof. solve_decision. Defined.

Definition FETCH_TIMEOUT_MILLIS : Z := 60 * 1000.

Definition DYNAMIC_CONFIG_URL : string :=
  "https://firebase.googleapis.com/v1alpha/projects/-/apps/{app-id}/webConfig".

(** The bytes that [Headers] strips from both ends of a value: tab, line
    feed, carriage return and space. *)
Definition httpWhitespace (a : ascii) : bool :=
  bool_decide (a = "009"%char) || bool_decide (a = "010"%char) ||
  bool_decide (a = "013"%char) || bool_decide (a = " "%char).

Fixpoint stripLeadingWhitespace (s : string) : string :=
  match s with
  | String a r => if httpWhitespace a then stripLeadingWhitespace r else s
  | EmptyString => EmptyString
  end.

Definition normalizeHeaderValue (s : string) : string :=
  String.rev (stripLeadingWhitespace
                (String.rev (stripLeadingWhitespace s))).

(** A header value holds no NUL, line feed or carriage return. *)
Fixpoint isHeaderValue (s : string) : bool :=
  match s with
  | String a r =>
      negb (bool_decide (a = "000"%char) || bool_decide (a = "010"%char) ||
            bool_decide (a = "013"%char))
      && isHeaderValue r
  | EmptyString => true
  end.

(** [new Headers({Accept: 'application/json', 'x-goog-api-key': apiKey})]:
    the constructor normalizes each value and throws a [TypeError] for one
    that is not a header value; the object lists its entries by name, in
    lower case.  A string is the sequence of its characters, each with a
    code below 256, as a header value must be. *)
Definition getHeaders (apiKey : string) : JsError + list (string * string) :=
  let value := normalizeHeaderValue apiKey in
  if isHeaderValue value then
    inr [("accept", "application/json"); ("x-goog-api-key", value)]
  else inl TypeError.

(** A call of the platform's [fetch(url, request)]. *)
Record Request := {
  url : string;
  method : string;
  headers : list (string * string)
}.

(** What [fetch] answers: the promise rejects, or it yields a response with a
    status and the settlement of [response.json()]. *)
Record Response := {
  status : Z;
  json : Settled JsObject
}.

Inductive NetReply :=
| NetRejects (e : JsError)
| NetResponds (r : Response).

(** [fetchDynamicConfig] up to its [await]: the guard, the headers, and
    the request handed to [fetch]. *)
Definition fetchDynamicConfig_request (app : FirebaseApp)
  : JsError + Request :=
  if falsy (apiKey app) || falsy (appId app) then
    inl (PlainError "no api key")
  else
    match getHeaders (default "" (apiKey app)) with
    | inl e => inl e
    | inr hs =>
        inr {| url := JsString.replace DYNAMIC_CONFIG_URL "{app-id}"
                        (default "" (appId app));
               method := "GET";
               headers := hs |}
    end.

(** [fetchDynamicConfig] after its [await]: [return response.json()]. *)
Definition fetchDynamicConfig_settle (reply : NetReply) : Settled JsObject :=
  match reply with
  | NetRejects e => Rejected e
  | NetResponds r => json r
  end.

(** The whole of [fetchDynamicConfig] against a network that answers a
    request with [net]: the requests issued, and how the promise settles. *)
Definition fetchDynamicConfig (net : Request -> NetReply) (app : FirebaseApp)
  : list Request * Settled JsObject :=
  match fetchDynamicConfig_request app with
  | inl e => ([], Rejected e)
  | inr req => ([req], fetchDynamicConfig_settle (net req))
  end.

(** [isRetriableError]. *)
Definition isRetriableError (e : JsError) : bool :=
  match e with
  | FirebaseError _ data =>
      match data !! "httpStatus" with
      | None => false
      | Some httpStatus =>
          (httpStatus =? 429) || (httpStatus =? 500) ||
          (httpStatus =? 503) || (httpStatus =? 504)
      end
  | _ => false
  end.

(** ** The runtime of one top-level call

    Closures are represented by what they capture.  A timer callback either
    resolves the promise of a delay or aborts the signal; a listener of the
    signal is the arrow function registered by [setAbortableTimeout], which
    captures its timer, its promise and the requested end time. *)

Inductive TimerState := TPending | TCleared | TFired.

#[global] Instance TimerState_eq_dec : EqDecision TimerState.
Proof. solve_decision. Defined.

Inductive Callback :=
| CbResolve (p : nat)      (* [resolve] of the delay promise [p] *)
| CbAbort.                 (* [() => signal.abort()] *)

#[global] Instance Callback_eq_dec : EqDecision Callback.
Proof. solve_decision. Defined.

Record Timer := {
  t_due : Z;
  t_cb : Callback;
  t_state : TimerState
}.

Inductive PromiseState :=
| PPending
| PResolved
| PRejected (e : JsError).

Record Listener := {
  l_timeout : nat;
  l_promise : nat;
  l_throttleEndTimeMillis : JsNumber
}.

(** [AnalyticsAbortSignal]. *)
Record AnalyticsAbortSignal := {
  listeners : list Listener
}.

Definition addEventListener (listener : Listener) (s : AnalyticsAbortSignal)
  : AnalyticsAbortSignal :=
  {| listeners := listeners s ++ [listener] |}.

(** What [attemptFetchDynamicConfigWithRetry] is given as metadata: an
    object with the two numbers, or one whose two fields are not numbers
    (a member inherited from [Object.prototype], whose fields read
    [undefined], or an entry computed from such fields). *)
Inductive Metadata :=
| Numbers (md : ThrottleMetadata)
| NotNumbers.

Coercion Numbers : ThrottleMetadata >-> Metadata.

(** Where [attemptFetchDynamicConfigWithRetry] is suspended, or how the
    promise of the top-level call has settled.  [AwaitDelayNaN] and
    [AwaitFetchNaN] are the two suspension points of an attempt whose
    metadata are not numbers. *)
Inductive Phase :=
| Entered
| AwaitDelay (p : nat) (throttleEndTimeMillis backoffCount : Z)
| AwaitFetch (backoffCount : Z)
| Returned (response : JsObject)
| Thrown (e : JsError)
| AwaitDelayNaN (p : nat)
| AwaitFetchNaN.

Record Call := {
  call_app : FirebaseApp;
  timers : list Timer;
  promises : list PromiseState;
  signal : AnalyticsAbortSignal;
  phase : Phase
}.

(** The state shared by all calls: the clock read by [Date.now()], the
    module-level [appThrottleMetadata] and the requests given to [fetch].
    The own entries of [appThrottleMetadata] are in two parts: those that
    hold numbers, with their numbers, and the keys of those whose two
    fields are [NaN]. *)
Record World := {
  now : Z;
  appThrottleMetadata : gmap string ThrottleMetadata;
  nanThrottleMetadata : gset string;
  requests : list Request
}.

Definition set_timers (ts : list Timer) (c : Call) : Call :=
  {| call_app := call_app c; timers := ts; promises := promises c;
     signal := signal c; phase := phase c |}.

Definition set_promises (ps : list PromiseState) (c : Call) : Call :=
  {| call_app := call_app c; timers := timers c; promises := ps;
     signal := signal c; phase := phase c |}.

Definition set_signal (s : AnalyticsAbortSignal) (c : Call) : Call :=
  {| call_app := call_app c; timers := timers c; promises := promises c;
     signal := s; phase := phase c |}.

Definition set_phase (ph : Phase) (c : Call) : Call :=
  {| call_app := call_app c; timers := timers c; promises := promises c;
     signal := signal c; phase := ph |}.

Definition set_now (t : Z) (w : World) : World :=
  {| now := t; appThrottleMetadata := appThrottleMetadata w;
     nanThrottleMetadata := nanThrottleMetadata w;
     requests := requests w |}.

Definition set_metadata (m : gmap string ThrottleMetadata) (w : World)
  : World :=
  {| now := now w; appThrottleMetadata := m;
     nanThrottleMetadata := nanThrottleMetadata w;
     requests := requests w |}.

Definition set_nan (s : gset string) (w : World) : World :=
  {| now := now w; appThrottleMetadata := appThrottleMetadata w;
     nanThrottleMetadata := s; requests := requests w |}.

Definition add_request (r : Request) (w : World) : World :=
  {| now := now w; appThrottleMetadata := appThrottleMetadata w;
     nanThrottleMetadata := nanThrottleMetadata w;
     requests := requests w ++ [r] |}.

(** [appThrottleMetadata[key]]: the own entry, or else the member that the
    object inherits under that name, which has no numbers. *)
Definition lookupMetadata (w : World) (key : string) : option Metadata :=
  match appThrottleMetadata w !! key with
  | Some md => Some (Numbers md)
  | None =>
      if bool_decide (key ∈ nanThrottleMetadata w) || inherited key
      then Some NotNumbers
      else None
  end.

(** [appThrottleMetadata[key] = throttleMetadata] for metadata that hold
    numbers.  The loop stores numbers only when it started from numbers,
    which no name that the object inherits reads. *)
Definition store_metadata (key : string) (md : ThrottleMetadata) (w : World)
  : World :=
  set_nan (nanThrottleMetadata w ∖ {[ key ]})
    (set_metadata (<[key := md]> (appThrottleMetadata w)) w).

(** The same assignment for metadata whose fields are [NaN].  Under the
    key [__proto__] it replaces the prototype and leaves the own entries;
    the new prototype has no numbers either. *)
Definition store_notNumbers (key : string) (w : World) : World :=
  if bool_decide (key = "__proto__") then w
  else
    set_nan (nanThrottleMetadata w ∪ {[ key ]})
      (set_metadata (delete key (appThrottleMetadata w)) w).

(** [delete appThrottleMetadata[key]]. *)
Definition delete_metadata (key : string) (w : World) : World :=
  set_nan (nanThrottleMetadata w ∖ {[ key ]})
    (set_metadata (delete key (appThrottleMetadata w)) w).

(** The delay a timer is given: a delay that is not a number counts as
    zero. *)
Definition timerDelay (delay : JsNumber) : Z :=
  match delay with
  | Finite d => d
  | NaN => 0
  end.

(** What the platform's [setTimeout] makes of a delay: it reads the delay
    as a signed 32-bit integer, and a negative one counts as zero. *)
Definition toInt32 (z : Z) : Z := (z + 2 ^ 31) mod 2 ^ 32 - 2 ^ 31.

Definition platformTimerDelay (delay : JsNumber) : Z :=
  match delay with
  | Finite d => Z.max (toInt32 d) 0
  | NaN => 0
  end.

(** [setTimeout(cb, delay)] at time [t]: the new timer's id is returned.
    The timer is due after the delay as it is given, which is what the
    platform's timers do for a delay from 0 to [2^31 - 1] milliseconds;
    the retry loop arms no other delay as long as no backoff is longer. *)
Definition setTimeout (cb : Callback) (delay : JsNumber) (t : Z) (c : Call)
  : Call * nat :=
  (set_timers
     (timers c
      ++ [{| t_due := t + timerDelay delay; t_cb := cb;
             t_state := TPending |}])
     c,
   length (timers c)).

Definition clear_timer (tm : Timer) : Timer :=
  match t_state tm with
  | TPending => {| t_due := t_due tm; t_cb := t_cb tm; t_state := TCleared |}
  | _ => tm
  end.

(** [clearTimeout(id)]: no effect on a timer that fired or was cleared. *)
Definition clearTimeout (id : nat) (c : Call) : Call :=
  set_timers (alter clear_timer id (timers c)) c.

Definition settle_with (s : PromiseState) (old : PromiseState)
  : PromiseState :=
  match old with
  | PPending => s
  | _ => old
  end.

(** [resolve()] and [reject(e)] of a promise: the first settlement wins. *)
Definition resolve (p : nat) (c : Call) : Call :=
  set_promises (alter (settle_with PResolved) p (promises c)) c.

Definition reject (p : nat) (e : JsError) (c : Call) : Call :=
  set_promises (alter (settle_with (PRejected e)) p (promises c)) c.

(** The error of a cancelled delay. *)
Definition fetchThrottleError (throttleEndTimeMillis : JsNumber) : JsError :=
  ERROR_FACTORY_create FETCH_THROTTLE
    match throttleEndTimeMillis with
    | Finite e => {[ "throttleEndTimeMillis" := e ]}
    | NaN => ∅
    end.

(** The body of the listener registered by [setAbortableTimeout]. *)
Definition run_listener (c : Call) (l : Listener) : Call :=
  reject (l_promise l) (fetchThrottleError (l_throttleEndTimeMillis l))
    (clearTimeout (l_timeout l) c).

(** [signal.abort()]: every listener, in registration order. *)
Definition abort (c : Call) : Call :=
  foldl run_listener c (listeners (signal c)).

(** [setAbortableTimeout(signal, throttleEndTimeMillis)] at time [t]; the
    promise it returns is the second component. *)
Definition setAbortableTimeout (throttleEndTimeMillis : JsNumber) (t : Z)
    (c : Call) : Call * nat :=
  let p := length (promises c) in
  let c1 := set_promises (promises c ++ [PPending]) c in
  let backoffMillis := Math_max (number_sub throttleEndTimeMillis t) 0 in
  let '(c2, timeout) := setTimeout (CbResolve p) backoffMillis t c1 in
  (set_signal
     (addEventListener
        {| l_timeout := timeout; l_promise := p;
           l_throttleEndTimeMillis := throttleEndTimeMillis |}
        (signal c2))
     c2,
   p).

(** The property key [app.options.appId] of [appThrottleMetadata]; an
    [undefined] id would read as the key [undefined]. *)
Definition appKey (app : FirebaseApp) : string :=
  default "undefined" (appId app).

Section Retry.

(** [calculateBackoffMillis] of [exponential_backoff.ts], which is not
    part of the sources at hand: the backoff for a count, given the draw
    of [Math.random()] it makes. *)
Variable calculateBackoffMillis : Z -> Z -> Z.

(** [attemptFetchDynamicConfigWithRetry] up to its first [await]. *)
Definition attemptFetchDynamicConfigWithRetry
    (md : Metadata) (st : Call * World) : Call * World :=
  let '(c, w) := st in
  if falsy (apiKey (call_app c)) || falsy (appId (call_app c)) then
    (set_phase (Thrown (PlainError "no api key")) c, w)
  else
    match md with
    | Numbers md =>
        let '(c1, p) :=
          setAbortableTimeout (throttleEndTimeMillis md) (now w) c in
        (set_phase
           (AwaitDelay p (throttleEndTimeMillis md) (backoffCount md)) c1,
         w)
    | NotNumbers =>
        let '(c1, p) := setAbortableTimeout NaN (now w) c in
        (set_phase (AwaitDelayNaN p) c1, w)
    end.

(** Modelled from the spec: the backoff is "an exponential function of
    the attempt count with jitter", so [calculateBackoffMillis] applied to
    a count that is not a number returns no number. *)
Definition calculateBackoffMillisOf (backoffCount : JsNumber) (rnd : Z)
  : JsNumber :=
  match backoffCount with
  | Finite n => Finite (calculateBackoffMillis n rnd)
  | NaN => NaN
  end.

(** The [try]/[catch] of [attemptFetchDynamicConfigWithRetry] once
    [fetchDynamicConfig(app)] has settled; [rnd] is the draw of
    [Math.random()] made by the backoff computation.  From a count that is
    not a number, [backoffCount + 1] and the end time are not numbers
    either. *)
Definition after_fetch (result : Settled JsObject) (rnd : Z)
    (backoffCount : JsNumber) (st : Call * World) : Call * World :=
  let '(c, w) := st in
  let key := appKey (call_app c) in
  match result with
  | Fulfilled response =>
      (set_phase (Returned response) c, delete_metadata key w)
  | Rejected e =>
      if negb (isRetriableError e) then
        (set_phase (Thrown e) c, delete_metadata key w)
      else
        match backoffCount, calculateBackoffMillisOf backoffCount rnd with
        | Finite backoffCount, Finite backoffMillis =>
            let throttleMetadata :=
              {| backoffCount := backoffCount + 1;
                 throttleEndTimeMillis := now w + backoffMillis |} in
            attemptFetchDynamicConfigWithRetry throttleMetadata
              (c, store_metadata key throttleMetadata w)
        | _, _ =>
            attemptFetchDynamicConfigWithRetry NotNumbers
              (c, store_notNumbers key w)
        end
  end.

(** The continuation of the [await] of the delay, run when its promise has
    settled: a rejection leaves the function, a resolution enters the
    [try] and calls [fetchDynamicConfig(app)]. *)
Definition resume (st : Call * World) : Call * World :=
  let '(c, w) := st in
  match phase c with
  | AwaitDelay p _ backoffCount =>
      match promises c !! p with
      | Some PResolved =>
          match fetchDynamicConfig_request (call_app c) with
          | inl e => after_fetch (Rejected e) 0 backoffCount (c, w)
          | inr req =>
              (set_phase (AwaitFetch backoffCount) c, add_request req w)
          end
      | Some (PRejected e) => (set_phase (Thrown e) c, w)
      | _ => (c, w)
      end
  | AwaitDelayNaN p =>
      match promises c !! p with
      | Some PResolved =>
          match fetchDynamicConfig_request (call_app c) with
          | inl e => after_fetch (Rejected e) 0 NaN (c, w)
          | inr req => (set_phase AwaitFetchNaN c, add_request req w)
          end
      | Some (PRejected e) => (set_phase (Thrown e) c, w)
      | _ => (c, w)
      end
  | _ => (c, w)
  end.

(** What the event loop delivers to the call: the timer [id] fires at
    time [t], or the pending [fetch] settles at time [t]. *)
Inductive Event :=
| TimerFires (id : nat) (t : Z)
| FetchSettles (reply : NetReply) (rnd : Z) (t : Z).

Definition fire_timer (tm : Timer) : Timer :=
  {| t_due := t_due tm; t_cb := t_cb tm; t_state := TFired |}.

Definition run_callback (cb : Callback) (c : Call) : Call :=
  match cb with
  | CbResolve p => resolve p c
  | CbAbort => abort c
  end.

(** One event.  A timer fires only while pending and not before it is due;
    the clock never goes back; [None] when the event cannot happen. *)
Definition step (ev : Event) (st : Call * World) : option (Call * World) :=
  let '(c, w) := st in
  match ev with
  | TimerFires id t =>
      match timers c !! id with
      | Some tm =>
          if bool_decide (t_state tm = TPending)
             && (t_due tm <=? t) && (now w <=? t) then
            let c1 := set_timers (alter fire_timer id (timers c)) c in
            Some (resume (run_callback (t_cb tm) c1, set_now t w))
          else None
      | None => None
      end
  | FetchSettles reply rnd t =>
      match phase c with
      | AwaitFetch backoffCount =>
          if now w <=? t then
            Some (after_fetch (fetchDynamicConfig_settle reply) rnd
                    backoffCount (c, set_now t w))
          else None
      | AwaitFetchNaN =>
          if now w <=? t then
            Some (after_fetch (fetchDynamicConfig_settle reply) rnd
                    NaN (c, set_now t w))
          else None
      | _ => None
      end
  end.

Fixpoint run (evs : list Event) (st : Call * World)
  : option (Call * World) :=
  match evs with
  | [] => Some st
  | ev :: evs' =>
      match step ev st with
      | Some st' => run evs' st'
      | None => None
      end
  end.

(** [fetchDynamicConfigWithRetry] up to the first [await]. *)
Definition fetchDynamicConfigWithRetry (app : FirebaseApp) (w : World)
  : Call * World :=
  let c0 := {| call_app := app; timers := []; promises := [];
               signal := {| listeners := [] |}; phase := Entered |} in
  if falsy (apiKey app) || falsy (appId app) then
    (set_phase (Thrown (PlainError "no api key")) c0, w)
  else
    let throttleMetadata :=
      default (Numbers {| backoffCount := 0; throttleEndTimeMillis := now w |})
        (lookupMetadata w (appKey app)) in
    let '(c1, _) := setTimeout CbAbort FETCH_TIMEOUT_MILLIS (now w) c0 in
    attemptFetchDynamicConfigWithRetry throttleMetadata (c1, w).

End Retry.


(** ** Dispatch through gtag: [initializeGAId] and [logEvent] *)

(** An argument of a gtag call: a primitive, a [Date] or an object. *)
Inductive GtagArg :=
| AVal (v : JsValue)
| ADate (t : Z)
| AObj (o : JsObject).

#[global] Instance GtagArg_eq_dec : EqDecision GtagArg.
Proof. solve_decision. Defined.

(** A gtag function, by what a call of it does: it returns ([None]) or it
    throws. *)
Definition Gtag := list GtagArg -> option JsError.

(** Modelled from the spec: [constants.ts] is not part of the sources at
    hand; the command tags are the ones the spec lists for the dispatch
    function. *)
Module GtagCommand.
Definition EVENT : string := "event".
Definition SET : string := "set".
Definition CONFIG : string := "config".
End GtagCommand.

(** Modelled from the spec: the keys [GA_FID_KEY] and [ORIGIN_KEY] of
    [constants.ts], as the identity-setting call of the spec and the test of
    the initialization name them. *)
Definition GA_FID_KEY : string := "firebase_id".
Definition ORIGIN_KEY : string := "origin".

(** ** Numbers as strings *)

(** The Number nearest to a natural number: 53 significant bits, a tie
    going to the even one. *)
Definition toNumber (z : Z) : Z :=
  let bits := Z.log2 z + 1 in
  if bits <=? 53 then z
  else
    let sh := bits - 53 in
    let q := Z.shiftr z sh in
    let r := Z.land z (Z.ones sh) in
    let half := Z.shiftl 1 (sh - 1) in
    let q' :=
      if r <? half then q
      else if half <? r then q + 1
      else if Z.even q then q else q + 1 in
    Z.shiftl q' sh.

Definition decimalDigits (x : Z) : Z :=
  Z.of_nat (String.length (pretty x)).

(** The natural number with the fewest significant digits that reads
    back as the Number [x], which has [n] digits: with [k] digits, then
    with one more; of two candidates the nearer one, and of two equally
    near ones the even one. *)
Fixpoint shortestDecimal (fuel : nat) (k n x : Z) : Z :=
  match fuel with
  | O => x
  | S fuel' =>
      if n <=? k then x
      else
        let p := 10 ^ (n - k) in
        let s := x / p in
        let lo := s * p in
        let hi := lo + p in
        let okLo := toNumber lo =? x in
        let okHi := toNumber hi =? x in
        if okLo && okHi then
          if x - lo <? hi - x then lo
          else if hi - x <? x - lo then hi
          else if Z.even s then lo else hi
        else if okLo then lo
        else if okHi then hi
        else shortestDecimal fuel' (k + 1) n x
  end.

Fixpoint dropZeros (s : string) : string :=
  match s with
  | String "0" s' => dropZeros s'
  | _ => s
  end.

(** [Number::toString] for a Number that is a natural number: all its
    digits up to 21 of them, and the exponent form beyond. *)
Definition naturalToString (x : Z) : string :=
  if 2 ^ 1024 <=? x then "Infinity"
  else
    let v := shortestDecimal 17 1 (decimalDigits x) x in
    let n := decimalDigits v in
    if n <=? 21 then pretty v
    else
      match String.rev (dropZeros (String.rev (pretty v))) with
      | String d EmptyString => String d ("e+" +:+ pretty (n - 1))
      | String d rest => String d ("." +:+ rest +:+ "e+" +:+ pretty (n - 1))
      | EmptyString => pretty v
      end.

(** [String(z)] for the Number nearest to the integer [z]. *)
Definition numberToString (z : Z) : string :=
  if z <? 0 then "-" +:+ naturalToString (toNumber (- z))
  else naturalToString (toNumber z).

(** [String(v)], the coercion of a computed property key and of a value
    in a template literal. *)
Definition toPropertyKey (v : JsValue) : string :=
  match v with
  | JUndefined => "undefined"
  | JBool true => "true"
  | JBool false => "false"
  | JNum z => numberToString z
  | JStr s => s
  end.

(** [o[key] = v] for a value [v] that is neither an object nor [null]:
    under the name [__proto__] the setter that the object inherits ignores
    such a value, and no property is created. *)
Definition setProp (key : string) (v : JsValue) (o : JsObject) : JsObject :=
  if bool_decide (key = "__proto__") then o else <[key := v]> o.

(** What [initializeGAId] reads and writes besides its arguments. *)
Record GaState := {
  dynamicConfigPromisesList : list (Settled JsObject);
  measurementIdToAppId : JsObject;
  gtagCalls : list (list GtagArg);
  loggedErrors : list JsError;
  fetchCalls : list Request
}.

(** [Promise.all([dynamicConfigPromise, installations.getId()])];
    [fidFirst] tells which promise settled first when both reject. *)
Definition promiseAll2 (fidFirst : bool)
    (dynamicConfig : Settled JsObject) (fid : Settled string)
  : Settled (JsObject * string) :=
  match dynamicConfig, fid with
  | Fulfilled c, Fulfilled f => Fulfilled (c, f)
  | Rejected e, Fulfilled _ => Rejected e
  | Fulfilled _, Rejected e => Rejected e
  | Rejected e1, Rejected e2 => Rejected (if fidFirst then e2 else e1)
  end.

(** [initializeGAId(app, dynamicConfigPromisesList, measurementIdToAppId,
    installations, gtagCore)]: [net] answers the request, [getId] is how
    [installations.getId()] settles and [t] is the clock when the function
    resumes after its [await]. *)
Definition initializeGAId
    (net : Request -> NetReply) (getId : Settled string) (fidFirst : bool)
    (t : Z) (gtagCore : Gtag) (app : FirebaseApp) (st : GaState)
  : GaState * Settled JsValue :=
  let '(reqs, dynamicConfigPromise) := fetchDynamicConfig net app in
  let st1 :=
    {| dynamicConfigPromisesList :=
         dynamicConfigPromisesList st ++ [dynamicConfigPromise];
       measurementIdToAppId :=
         match dynamicConfigPromise with
         | Fulfilled config =>
             setProp (toPropertyKey (getProp config "measurementId"))
               (getProp config "appId") (measurementIdToAppId st)
         | Rejected _ => measurementIdToAppId st
         end;
       gtagCalls := gtagCalls st;
       loggedErrors :=
         match dynamicConfigPromise with
         | Fulfilled _ => loggedErrors st
         | Rejected e => loggedErrors st ++ [e]
         end;
       fetchCalls := fetchCalls st ++ reqs |} in
  let with_calls (calls : list (list GtagArg)) :=
    {| dynamicConfigPromisesList := dynamicConfigPromisesList st1;
       measurementIdToAppId := measurementIdToAppId st1;
       gtagCalls := gtagCalls st1 ++ calls;
       loggedErrors := loggedErrors st1;
       fetchCalls := fetchCalls st1 |} in
  match promiseAll2 fidFirst dynamicConfigPromise getId with
  | Rejected e => (st1, Rejected e)
  | Fulfilled (dynamicConfig, fid) =>
      let js := [AVal (JStr "js"); ADate t] in
      let config :=
        [AVal (JStr GtagCommand.CONFIG);
         AVal (getProp dynamicConfig "measurementId");
         AObj (<["update" := JBool true]>
                 (<[ORIGIN_KEY := JStr "firebase"]>
                    (<[GA_FID_KEY := JStr fid]> ∅)))] in
      match gtagCore js with
      | Some e => (with_calls [js], Rejected e)
      | None =>
          match gtagCore config with
          | Some e => (with_calls [js; config], Rejected e)
          | None =>
              (with_calls [js; config],
               Fulfilled (getProp dynamicConfig "measurementId"))
          end
      end
  end.

(** [AnalyticsCallOptions], as far as [logEvent] reads it. *)
Record AnalyticsCallOptions := {
  global : option bool
}.

(** [options && options.global] as a condition. *)
Definition isGlobal (options : option AnalyticsCallOptions) : bool :=
  match options with
  | Some o => default false (global o)
  | None => false
  end.

Inductive Effect :=
| GtagCalled (args : list GtagArg)
| ErrorLogged (e : JsError).

(** What a call of [logEvent] does.  [sync] are the effects before it
    returns, [thrown] the exception it leaves with, if any, and [onSettled]
    the handlers it has attached to [dynamicConfigPromise], if any: given
    how the promise settles, the effects of [then] and [catch]. *)
Record LogEventResult := {
  sync : list Effect;
  thrown : option JsError;
  onSettled : option (Settled JsObject -> list Effect)
}.

(** [logEvent(gtagFunction, dynamicConfigPromise, eventName, eventParams,
    options)]. *)
Definition logEvent (gtagFunction : Gtag) (eventName : string)
    (eventParams : option JsObject) (options : option AnalyticsCallOptions)
  : LogEventResult :=
  if isGlobal options then
    let args :=
      [AVal (JStr GtagCommand.EVENT); AVal (JStr eventName);
       AObj (default ∅ eventParams)] in
    {| sync := [GtagCalled args];
       thrown := gtagFunction args;
       onSettled := None |}
  else
    {| sync := [];
       thrown := None;
       onSettled :=
         Some (fun settled =>
           match settled with
           | Fulfilled config =>
               let params :=
                 <["send_to" := getProp config "measurementId"]>
                   (default ∅ eventParams) in
               let args :=
                 [AVal (JStr GtagCommand.EVENT); AVal (JStr eventName);
                  AObj params] in
               GtagCalled args ::
               match gtagFunction args with
               | Some e => [ErrorLogged e]
               | None => []
               end
           | Rejected e => [ErrorLogged e]
           end) |}.

(** ** [CollectionReference.doc] of the Firestore lite API *)

Section Lite.

(** [ResourcePath] with [fromString] and [child], the [Firestore] object
    and [AutoId.newId] are not part of the sources at hand; [newId] is
    given the random draw it makes. *)
Variable ResourcePath : Type.
Variable fromString : string -> JsError + ResourcePath.
Variable child : ResourcePath -> ResourcePath -> ResourcePath.
Variable Firestore : Type.
Variable newId : Z -> string.





End Lite.

(** ** The other functions of [functions.ts] *)

(** A value in the object literal of a set or config call: [null], a
    primitive or a plain object. *)
Inductive ParamValue :=
| PNull
| PPrim (v : JsValue)
| PObject (o : JsObject).

#[global] Instance ParamValue_eq_dec : EqDecision ParamValue.
Proof. solve_decision. Defined.

(** An argument of such a call: a primitive or an object literal. *)
Inductive SetArg :=
| SVal (v : JsValue)
| SParams (o : gmap string ParamValue).

(** The gtag function as these calls use it. *)
Definition SetGtag := list SetArg -> option JsError.

Inductive SetEffect :=
| SetCalled (args : list SetArg)
| SetLogged (e : JsError).

(** What a call of one of the functions does, as for [logEvent]. *)
Record SetResult := {
  s_sync : list SetEffect;
  s_thrown : option JsError;
  s_onSettled : option (Settled JsObject -> list SetEffect)
}.

(** A [string | null] argument as a value. *)
Definition nullable (s : option string) : ParamValue :=
  match s with
  | Some s => PPrim (JStr s)
  | None => PNull
  end.

(** [dynamicConfigPromise.then(config => gtagFunction(...call config))
    .catch(e => logger.error(e))]. *)
Definition thenCatch (gtagFunction : SetGtag)
    (call : JsObject -> list SetArg) (settled : Settled JsObject)
  : list SetEffect :=
  match settled with
  | Fulfilled config =>
      SetCalled (call config) ::
      match gtagFunction (call config) with
      | Some e => [SetLogged e]
      | None => []
      end
  | Rejected e => [SetLogged e]
  end.

(** [setCurrentScreen(gtagFunction, dynamicConfigPromise, screenName,
    options)]. *)
Definition setCurrentScreen (gtagFunction : SetGtag)
    (screenName : option string) (options : option AnalyticsCallOptions)
  : SetResult :=
  if isGlobal options then
    let args :=
      [SVal (JStr GtagCommand.SET);
       SParams {[ "screen_name" := nullable screenName ]}] in
    {| s_sync := [SetCalled args]; s_thrown := gtagFunction args;
       s_onSettled := None |}
  else
    {| s_sync := []; s_thrown := None;
       s_onSettled :=
         Some (thenCatch gtagFunction (fun config =>
           [SVal (JStr GtagCommand.CONFIG);
            SVal (getProp config "measurementId");
            SParams (<["update" := PPrim (JBool true)]>
                       {[ "screen_name" := nullable screenName ]})])) |}.

(** [setUserId(gtagFunction, dynamicConfigPromise, id, options)]. *)
Definition setUserId (gtagFunction : SetGtag)
    (id : option string) (options : option AnalyticsCallOptions)
  : SetResult :=
  if isGlobal options then
    let args :=
      [SVal (JStr GtagCommand.SET);
       SParams {[ "user_id" := nullable id ]}] in
    {| s_sync := [SetCalled args]; s_thrown := gtagFunction args;
       s_onSettled := None |}
  else
    {| s_sync := []; s_thrown := None;
       s_onSettled :=
         Some (thenCatch gtagFunction (fun config =>
           [SVal (JStr GtagCommand.CONFIG);
            SVal (getProp config "measurementId");
            SParams (<["update" := PPrim (JBool true)]>
                       {[ "user_id" := nullable id ]})])) |}.

(** The loop of [setUserProperties] over [Object.keys(properties)]: every
    property is copied under its dotted name. *)
Definition flattenUserProperties (properties : JsObject)
  : gmap string ParamValue :=
  foldl (fun flatProperties kv =>
           <["user_properties." +:+ kv.1 := PPrim kv.2]> flatProperties)
    ∅ (map_to_list properties).

(** [setUserProperties(gtagFunction, dynamicConfigPromise, properties,
    options)]. *)
Definition setUserProperties (gtagFunction : SetGtag)
    (properties : JsObject) (options : option AnalyticsCallOptions)
  : SetResult :=
  if isGlobal options then
    let args :=
      [SVal (JStr GtagCommand.SET);
       SParams (flattenUserProperties properties)] in
    {| s_sync := [SetCalled args]; s_thrown := gtagFunction args;
       s_onSettled := None |}
  else
    {| s_sync := []; s_thrown := None;
       s_onSettled :=
         Some (thenCatch gtagFunction (fun config =>
           [SVal (JStr GtagCommand.CONFIG);
            SVal (getProp config "measurementId");
            SParams (<["update" := PPrim (JBool true)]>
                       {[ "user_properties" := PObject properties ]})])) |}.

(** [setAnalyticsCollectionEnabled(dynamicConfigPromise, enabled)], by what
    its handlers do to the properties of [window] and to the log once the
    promise has settled. *)
Definition setAnalyticsCollectionEnabled (enabled : bool)
    (settled : Settled JsObject) (window : JsObject)
  : JsObject * list JsError :=
  match settled with
  | Fulfilled config =>
      (<["ga-disable-" +:+ toPropertyKey (getProp config "measurementId")
         := JBool (negb enabled)]> window,
       [])
  | Rejected e => (window, [e])
  end.

(** ** [factory.ts] *)

(** A value thrown by [ERROR_FACTORY.create(code, data)], with the data as
    it is given. *)
Inductive AnalyticsThrow :=
| Created (code : AnalyticsError) (data : gmap string string).

(** The calls of the page helpers of [helpers.ts], which is not part of the
    sources at hand, with their name arguments. *)
Inductive PageCall :=
| InsertScriptTag (dataLayerName : string)
| GetOrCreateDataLayer (dataLayerName : string)
| WrapOrCreateGtag (dataLayerName gtagName : string).

Record SettingsOptions := {
  opt_dataLayerName : option string;
  opt_gtagName : option string
}.

(** The module-level variables of [factory.ts]; a promise is represented
    by the way it settles, the list of dynamic-config promises and
    [measurementIdToAppId] are in [gaState], and [pageCalls] are the calls
    of the page helpers made so far. *)
Record FactoryState := {
  initializationPromisesMap : gmap string (Settled JsValue);
  gaState : GaState;
  dataLayerName : string;
  gtagName : string;
  gtagCoreFunction : option Gtag;
  wrappedGtagFunction : option Gtag;
  globalInitDone : bool;
  pageCalls : list PageCall
}.

(** What a call of [factory] meets: whether the gtag script is on the page,
    how the network and the installations service answer, and the clock. *)
Record FactoryEnv := {
  env_scriptOnPage : bool;
  env_net : Request -> NetReply;
  env_getId : Settled string;
  env_fidFirst : bool;
  env_clock : Z
}.

(** The variables as the module is loaded. *)
Definition loadedFactoryState : FactoryState :=
  {| initializationPromisesMap := ∅;
     gaState :=
       {| dynamicConfigPromisesList := []; measurementIdToAppId := ∅;
          gtagCalls := []; loggedErrors := []; fetchCalls := [] |};
     dataLayerName := "dataLayer";
     gtagName := "gtag";
     gtagCoreFunction := None;
     wrappedGtagFunction := None;
     globalInitDone := false;
     pageCalls := [] |}.

(** Calling a variable that may still be [undefined]. *)
Definition callable (g : option Gtag) : Gtag :=
  default (fun _ => Some (PlainError "gtagCore is not a function")) g.

(** [resetGlobalVars(newGlobalInitDone, newGaInitializedPromise,
    newDynamicPromises)]. *)
Definition resetGlobalVars (newGlobalInitDone : bool)
    (newGaInitializedPromise : gmap string (Settled JsValue))
    (newDynamicPromises : list (Settled JsObject)) (st : FactoryState)
  : FactoryState :=
  {| initializationPromisesMap := newGaInitializedPromise;
     gaState :=
       {| dynamicConfigPromisesList := newDynamicPromises;
          measurementIdToAppId := measurementIdToAppId (gaState st);
          gtagCalls := gtagCalls (gaState st);
          loggedErrors := loggedErrors (gaState st);
          fetchCalls := fetchCalls (gaState st) |};
     dataLayerName := "dataLayer";
     gtagName := "gtag";
     gtagCoreFunction := gtagCoreFunction st;
     wrappedGtagFunction := wrappedGtagFunction st;
     globalInitDone := newGlobalInitDone;
     pageCalls := pageCalls st |}.

(** [settings(options)]. *)
Definition settings (options : SettingsOptions) (st : FactoryState)
  : AnalyticsThrow + FactoryState :=
  if globalInitDone st then inl (Created ALREADY_INITIALIZED ∅)
  else
    inr {| initializationPromisesMap := initializationPromisesMap st;
           gaState := gaState st;
           dataLayerName :=
             if falsy (opt_dataLayerName options) then dataLayerName st
             else default "" (opt_dataLayerName options);
           gtagName :=
             if falsy (opt_gtagName options) then gtagName st
             else default "" (opt_gtagName options);
           gtagCoreFunction := gtagCoreFunction st;
           wrappedGtagFunction := wrappedGtagFunction st;
           globalInitDone := globalInitDone st;
           pageCalls := pageCalls st |}.

Section Factory.

(** [wrapOrCreateGtag] of [helpers.ts], which is not part of the sources at
    hand: for the two names, the wrapped and the core gtag function. *)
Variable wrapOrCreateGtag : string -> string -> Gtag * Gtag.

(** The steps of [factory] that run once per page. *)
Definition pageInit (env : FactoryEnv) (st : FactoryState) : FactoryState :=
  {| initializationPromisesMap := initializationPromisesMap st;
     gaState := gaState st;
     dataLayerName := dataLayerName st;
     gtagName := gtagName st;
     gtagCoreFunction :=
       Some (wrapOrCreateGtag (dataLayerName st) (gtagName st)).2;
     wrappedGtagFunction :=
       Some (wrapOrCreateGtag (dataLayerName st) (gtagName st)).1;
     globalInitDone := true;
     pageCalls :=
       pageCalls st
       ++ (if env_scriptOnPage env then []
           else [InsertScriptTag (dataLayerName st)])
       ++ [GetOrCreateDataLayer (dataLayerName st);
           WrapOrCreateGtag (dataLayerName st) (gtagName st)] |}.

(** [factory(app, installations)]; the instance it returns is represented
    by its app.  [initializationPromisesMap[appId] != null] holds for a
    promise stored under the id and also for an id that names a member the
    object inherits. *)
Definition factory (env : FactoryEnv) (app : FirebaseApp)
    (st : FactoryState) : FactoryState * (AnalyticsThrow + FirebaseApp) :=
  if falsy (appId app) then (st, inl (Created NO_GA_ID ∅))
  else
    let id := default "" (appId app) in
    match initializationPromisesMap st !! id, inherited id with
    | Some _, _ | None, true =>
        (st, inl (Created ALREADY_EXISTS {[ "id" := id ]}))
    | None, false =>
        let st1 := if globalInitDone st then st else pageInit env st in
        let '(ga, initialization) :=
          initializeGAId (env_net env) (env_getId env) (env_fidFirst env)
            (env_clock env) (callable (gtagCoreFunction st1)) app
            (gaState st1) in
        ({| initializationPromisesMap :=
              <[id := initialization]> (initializationPromisesMap st1);
            gaState := ga;
            dataLayerName := dataLayerName st1;
            gtagName := gtagName st1;
            gtagCoreFunction := gtagCoreFunction st1;
            wrappedGtagFunction := wrappedGtagFunction st1;
            globalInitDone := globalInitDone st1;
            pageCalls := pageCalls st1 |},
         inr app)
    end.

End Factory.

(** ** Observations on runs of the retry loop *)

(** The metadata a top-level call starts from: what
    [appThrottleMetadata[appId]] reads, or the fresh default. *)
Definition initialMetadata (app : FirebaseApp) (w : World) : Metadata :=
  default (Numbers {| backoffCount := 0; throttleEndTimeMillis := now w |})
    (lookupMetadata w (appKey app)).

(** Both options the guards test are present. *)
Definition configured (app : FirebaseApp) : bool :=
  negb (falsy (apiKey app) || falsy (appId app)).

(** Both are present and the API key is a header value:
    [fetchDynamicConfig] reaches [fetch]. *)
Definition sendable (app : FirebaseApp) : bool :=
  configured app
  && isHeaderValue (normalizeHeaderValue (default "" (apiKey app))).

Definition isWatchdog (tm : Timer) : bool :=
  bool_decide (t_cb tm = CbAbort).

(** The timers of the call whose callback aborts the signal. *)
Definition watchdogs (c : Call) : list Timer :=
  filter (fun tm => isWatchdog tm = true) (timers c).

Section Observations.

Variable calculateBackoffMillis : Z -> Z -> Z.

(** The event is a timer, or a fetch that fails with a retriable error. *)
Definition retriableFailure (ev : Event) : bool :=
  match ev with
  | TimerFires _ _ => true
  | FetchSettles reply _ _ =>
      match fetchDynamicConfig_settle reply with
      | Rejected e => isRetriableError e
      | Fulfilled _ => false
      end
  end.

(** The entry stored for [key] right after each settled fetch of a run,
    in order; the run is followed as far as its events can happen. *)
Fixpoint storedAfterFetches (key : string) (evs : list Event)
    (st : Call * World) : list (option ThrottleMetadata) :=
  match evs with
  | [] => []
  | ev :: evs' =>
      match step calculateBackoffMillis ev st with
      | None => []
      | Some st' =>
          match ev with
          | FetchSettles _ _ _ =>
              [appThrottleMetadata st'.2 !! key]
          | TimerFires _ _ => []
          end ++ storedAfterFetches key evs' st'
      end
  end.

(** The metadata computed in the [catch] block at time [t]. *)
Definition nextMetadata (n rnd t : Z) : ThrottleMetadata :=
  {| backoffCount := n + 1;
     throttleEndTimeMillis := t + calculateBackoffMillis n rnd |}.

(** The number of fetches that settle in a list of events. *)
Fixpoint settledFetches (evs : list Event) : nat :=
  match evs with
  | [] => 0%nat
  | FetchSettles _ _ _ :: evs' => S (settledFetches evs')
  | TimerFires _ _ :: evs' => settledFetches evs'
  end.

(** The states a top-level call for [app] started in [w] can reach. *)
Definition reachable (app : FirebaseApp) (w : World) (st : Call * World)
  : Prop :=
  exists evs,
    run calculateBackoffMillis evs (fetchDynamicConfigWithRetry app w)
    = Some st.

End Observations.

(** The ids and the promises that listeners and timer callbacks mention
    exist, and a suspended delay is pending, has a listener, is mentioned
    only with its own end time, and is resolved by no timer due earlier. *)
Record call_inv (c : Call) : Prop := {
  inv_listeners :
    forall l, l ∈ listeners (signal c) ->
      (l_promise l < length (promises c))%nat /\
      (l_timeout l < length (timers c))%nat;
  inv_timers :
    forall id tm p, timers c !! id = Some tm -> t_cb tm = CbResolve p ->
      (p < length (promises c))%nat;
  inv_delay :
    forall p e n, phase c = AwaitDelay p e n ->
      promises c !! p = Some PPending /\
      (exists l, l ∈ listeners (signal c) /\ l_promise l = p) /\
      (forall l, l ∈ listeners (signal c) -> l_promise l = p ->
         l_throttleEndTimeMillis l = e) /\
      (forall id tm, timers c !! id = Some tm -> t_cb tm = CbResolve p ->
         e <= t_due tm);
  inv_fetch :
    forall n, phase c = AwaitFetch n -> sendable (call_app c) = true;
  inv_delay_nan :
    forall p, phase c = AwaitDelayNaN p ->
      promises c !! p = Some PPending /\
      (exists l, l ∈ listeners (signal c) /\ l_promise l = p) /\
      (forall l, l ∈ listeners (signal c) -> l_promise l = p ->
         l_throttleEndTimeMillis l = NaN)
}.

(** ** Auxiliary notions and sample data *)

(** What a timer can become through calls of [clearTimeout]. *)
Definition cleared_from (tm tm' : Timer) : Prop :=
  t_due tm' = t_due tm /\ t_cb tm' = t_cb tm /\
  (t_state tm' = t_state tm \/
   (t_state tm = TPending /\ t_state tm' = TCleared)).

(** The call [c2] differs from [c] only in the states of timers and
    promises. *)
Record evolves (c c2 : Call) : Prop := {
  ev_app : call_app c2 = call_app c;
  ev_phase : phase c2 = phase c;
  ev_signal : signal c2 = signal c;
  ev_promises : length (promises c2) = length (promises c);
  ev_timers : length (timers c2) = length (timers c);
  ev_timer :
    forall id tm2, timers c2 !! id = Some tm2 ->
      exists tm, timers c !! id = Some tm /\
                 t_due tm2 = t_due tm /\ t_cb tm2 = t_cb tm
}.

(** The retry loop holds numbers and is at backoff count [cnt], and no
    attempt will be made before [L]. *)
Definition tracks (cnt L : Z) (st : Call * World) : Prop :=
  match phase st.1 with
  | AwaitDelay _ e n => n = cnt /\ L <= e
  | AwaitFetch n => n = cnt /\ L <= now st.2
  | AwaitDelayNaN _ | AwaitFetchNaN => False
  | _ => True
  end.

(** Successive stored entries: each count is one more than the previous
    one, and the end times do not decrease. *)
Fixpoint progression (cnt L : Z) (h : list (option ThrottleMetadata))
  : Prop :=
  match h with
  | [] => True
  | o :: h' =>
      exists md, o = Some md /\ backoffCount md = cnt + 1 /\
                 L <= throttleEndTimeMillis md /\
                 progression (cnt + 1) (throttleEndTimeMillis md) h'
  end.

(** The promise of the top-level call has settled. *)
Definition finished (ph : Phase) : bool :=
  match ph with
  | Returned _ | Thrown _ => true
  | _ => false
  end.

(** A backoff with jitter and a ceiling, to run the model on. *)
Definition sampleBackoff (n rnd : Z) : Z :=
  Z.min 14400000 (1000 * 2 ^ n) + (Z.abs rnd) mod 500.

Definition sampleApp : FirebaseApp :=
  {| apiKey := Some "AAbbCCdd12345"; appId := Some "abcdefgh12345:23405" |}.

Definition sampleWorld : World :=
  {| now := 1000; appThrottleMetadata := ∅; nanThrottleMetadata := ∅;
     requests := [] |}.

(** The error of a response with the given HTTP status. *)
Definition httpError (httpStatus : Z) : JsError :=
  FirebaseError (OtherCode "fetch-status") {[ "httpStatus" := httpStatus ]}.

(** The sample call once its first delay has elapsed and its fetch is in
    flight. *)
Definition sampleAttempting : Call * World :=
  default (fetchDynamicConfigWithRetry sampleApp sampleWorld)
    (run sampleBackoff [TimerFires 1 1000]
       (fetchDynamicConfigWithRetry sampleApp sampleWorld)).

(** Three fetches that fail with 503, 429 and 504, each after its delay. *)
Definition sampleFailures : list Event :=
  [TimerFires 1 1000;
   FetchSettles (NetRejects (httpError 503)) 7 1200;
   TimerFires 2 2300;
   FetchSettles (NetRejects (httpError 429)) (-3) 2400;
   TimerFires 3 4500;
   FetchSettles (NetRejects (httpError 504)) 11 4600].

(** An app whose id is the name of a member of [Object.prototype]. *)
Definition constructorApp : FirebaseApp :=
  {| apiKey := Some "AAbbCCdd12345"; appId := Some "constructor" |}.

(** Two fetches that fail with 503, each as soon as its delay allows. *)
Definition constructorFailures : list Event :=
  [TimerFires 1 1000;
   FetchSettles (NetRejects (httpError 503)) 7 1200;
   TimerFires 2 1200;
   FetchSettles (NetRejects (httpError 503)) 9 1300].

(** The first timer of the call is the watchdog, due at [due], and no other
    timer aborts the signal. *)
Definition watchdog_first (due : Z) (c : Call) : Prop :=
  (exists tm, timers c !! 0%nat = Some tm /\
              t_cb tm = CbAbort /\ t_due tm = due) /\
  forall id tm, timers c !! S id = Some tm -> t_cb tm <> CbAbort.

(** The identity-setting call for a measurement id and an installation
    id. *)
Definition configCall (measurementId fid : string) : list GtagArg :=
  [AVal (JStr "config"); AVal (JStr measurementId);
   AObj {[ "firebase_id" := JStr fid;
           "origin" := JStr "firebase";
           "update" := JBool true ]}].

Definition emptyGaState : GaState :=
  {| dynamicConfigPromisesList := []; measurementIdToAppId := ∅;
     gtagCalls := []; loggedErrors := []; fetchCalls := [] |}.

(** The request of the scenario. *)
Definition sampleRequest : Request :=
  {| url := "https://firebase.googleapis.com/v1alpha/projects/-/apps/"
            +:+ "abcdefgh12345:23405/webConfig";
     method := "GET";
     headers := [("accept", "application/json");
                 ("x-goog-api-key", "AAbbCCdd12345")] |}.

(** The endpoint of the scenario: status 200 and the one-field body. *)
Definition sampleNet (_ : Request) : NetReply :=
  NetResponds
    {| status := 200;
       json := Fulfilled {[ "measurementId" := JStr "abcd-efgh-ijkl" ]} |}.

(** The gtag calls among some effects. *)
Definition gtagCallsOf (effects : list Effect) : list (list GtagArg) :=
  omap (fun eff => match eff with
                   | GtagCalled args => Some args
                   | ErrorLogged _ => None
                   end) effects.

(** The errors logged among some effects. *)
Definition errorsLoggedIn (effects : list Effect) : list JsError :=
  omap (fun eff => match eff with
                   | GtagCalled _ => None
                   | ErrorLogged e => Some e
                   end) effects.


(** The number of requests of the call that are in flight. *)
Definition inFlight (ph : Phase) : nat :=
  match ph with
  | AwaitFetch _ | AwaitFetchNaN => 1%nat
  | _ => 0%nat
  end.

(** No listener clears the first timer, and the first timer has not been
    cleared. *)
Definition watchdog_kept (c : Call) : Prop :=
  (forall l, l ∈ listeners (signal c) -> l_timeout l <> 0%nat) /\
  exists tm, timers c !! 0%nat = Some tm /\ t_state tm <> TCleared.

(** A world in which throttle metadata is stored for the sample app and
    for another app. *)
Definition sampleStoredWorld : World :=
  {| now := 1000;
     appThrottleMetadata :=
       {[ "abcdefgh12345:23405" :=
            {| backoffCount := 2; throttleEndTimeMillis := 5000 |};
          "another-app" :=
            {| backoffCount := 1; throttleEndTimeMillis := 900 |} ]};
     nanThrottleMetadata := ∅;
     requests := [] |}.

(** The sample call started on that world, once the stored window has
    elapsed and a retry has failed. *)
Definition sampleResumed : Call * World :=
  default (fetchDynamicConfigWithRetry sampleApp sampleStoredWorld)
    (run sampleBackoff
       [TimerFires 1 5000; FetchSettles (NetRejects (httpError 503)) 7 5100]
       (fetchDynamicConfigWithRetry sampleApp sampleStoredWorld)).

(** Page helpers that return gtag functions which return. *)
Definition sampleWrap (_ _ : string) : Gtag * Gtag :=
  (fun _ => None, fun _ => None).

Definition sampleEnv : FactoryEnv :=
  {| env_scriptOnPage := false;
     env_net := sampleNet;
     env_getId := Fulfilled "fid-1234-zyxw";
     env_fidFirst := false;
     env_clock := 1000 |}.

(** The module variables after the sample app has been registered. *)
Definition sampleRegistered : FactoryState :=
  (factory sampleWrap sampleEnv sampleApp loadedFactoryState).1.

(** A world in which the sample app is throttled until long after the
    watchdog of a call started now is due. *)
Definition sampleThrottledWorld : World :=
  {| now := 1000;
     appThrottleMetadata :=
       {[ "abcdefgh12345:23405" :=
            {| backoffCount := 7; throttleEndTimeMillis := 200000 |} ]};
     nanThrottleMetadata := ∅;
     requests := [] |}.

(** The sample backoff with its count clamped at zero: positive for every
    count. *)
Definition clampedBackoff (n rnd : Z) : Z := sampleBackoff (Z.max 0 n) rnd.

(** The entry stored for [key] agrees with where the retry loop stands:
    it holds the metadata of the delay awaited or the count of the fetch in
    flight, unless nothing was stored and nothing has failed yet for a call
    started at time [t0], and it is absent once the call has returned. *)
Definition mirrors (key : string) (t0 : Z) (st : Call * World) : Prop :=
  let stored := appThrottleMetadata st.2 !! key in
  match phase st.1 with
  | AwaitDelay _ e n =>
      stored = Some {| backoffCount := n; throttleEndTimeMillis := e |} \/
      (lookupMetadata st.2 key = None /\ n = 0 /\ e = t0)
  | AwaitFetch n =>
      (exists e,
         stored = Some {| backoffCount := n; throttleEndTimeMillis := e |}) \/
      (lookupMetadata st.2 key = None /\ n = 0)
  | AwaitDelayNaN _ | AwaitFetchNaN =>
      lookupMetadata st.2 key = Some NotNumbers
  | Returned _ => stored = None /\ key ∉ nanThrottleMetadata st.2
  | _ => True
  end.

(** [appThrottleMetadata] is a variable of the module: between two events
    of a call, another call of [fetchDynamicConfigWithRetry] can run its
    own writes on it.  A write stores metadata under a key or deletes the
    entry of a key, at a time [t]. *)
Definition write (key : string) (entry : option Metadata) (w : World)
  : World :=
  match entry with
  | Some (Numbers md) => store_metadata key md w
  | Some NotNumbers => store_notNumbers key w
  | None => delete_metadata key w
  end.

(** A call stores numbers only when it started from numbers, read under
    its key or taken as the default where the key read nothing; a name
    that the object inherits reads neither. *)
Definition storable (key : string) (entry : option Metadata) : bool :=
  match entry with
  | Some (Numbers _) => negb (inherited key)
  | _ => true
  end.

Inductive Action :=
| Own (ev : Event)
| Other (key : string) (entry : option Metadata) (t : Z).

Section Among.

Variable calculateBackoffMillis : Z -> Z -> Z.

Definition act (a : Action) (st : Call * World) : option (Call * World) :=
  match a with
  | Own ev => step calculateBackoffMillis ev st
  | Other key entry t =>
      if (now st.2 <=? t) && storable key entry
      then Some (st.1, write key entry (set_now t st.2))
      else None
  end.

Fixpoint run_among (acts : list Action) (st : Call * World)
  : option (Call * World) :=
  match acts with
  | [] => Some st
  | a :: acts' =>
      match act a st with
      | Some st' => run_among acts' st'
      | None => None
      end
  end.

End Among.

(** No write of another call is a write under [key]. *)
Definition spares (key : string) (a : Action) : bool :=
  match a with
  | Own _ => true
  | Other k _ _ => negb (bool_decide (k = key))
  end.

(** The state has no entry that holds numbers; a loop that started
    from metadata without numbers never stores one. *)
Definition numberless (key : string) (st : Call * World) : Prop :=
  match phase st.1 with
  | AwaitDelay _ _ _ | AwaitFetch _ => False
  | AwaitDelayNaN _ | AwaitFetchNaN => appThrottleMetadata st.2 !! key = None
  | _ => True
  end.

(** Successive stored entries whose end times grow strictly, above [L]. *)
Fixpoint climbing (L : Z) (h : list (option ThrottleMetadata)) : Prop :=
  match h with
  | [] => True
  | o :: h' =>
      exists md, o = Some md /\ L < throttleEndTimeMillis md /\
                 climbing (throttleEndTimeMillis md) h'
  end.

(** * Properties *)

(** ** Strings *)

Lemma getSubstitution_dollarFree matched before after repl :
  JsString.dollarFree repl = true ->
  JsString.getSubstitution matched before after repl = repl.
Proof.
  induction repl as [|c r IH]; simpl; [reflexivity|].
  intros H. apply andb_true_iff in H as [Hc Hr].
  destruct (Ascii.eqb_spec c "$"%char) as [->|Hne]; [discriminate|].
  rewrite (IH Hr).
  destruct c as [[] [] [] [] [] [] [] []]; try reflexivity.
  exfalso. apply Hne. reflexivity.
Qed.

Lemma replace_app_id (id : string) :
  JsString.dollarFree id = true ->
  JsString.replace DYNAMIC_CONFIG_URL "{app-id}" id
  = "https://firebase.googleapis.com/v1alpha/projects/-/apps/" +:+ id
    +:+ "/webConfig".
Proof.
  intros H. unfold JsString.replace.
  change (JsString.indexOf "{app-id}" DYNAMIC_CONFIG_URL) with (Some 56%nat).
  cbv beta iota zeta. rewrite getSubstitution_dollarFree by exact H.
  reflexivity.
Qed.

(** ** [fetchDynamicConfig] *)

Lemma configured_inv app :
  configured app = true ->
  exists key id,
    apiKey app = Some key /\ appId app = Some id /\ key <> "" /\ id <> "".
Proof.
  unfold configured, falsy. destruct app as [[k|] [i|]]; simpl;
    try discriminate.
  - repeat case_bool_decide; simpl; try discriminate. eauto 10.
  - case_bool_decide; discriminate.
Qed.

Lemma configured_guard app :
  configured app = true -> falsy (apiKey app) || falsy (appId app) = false.
Proof. unfold configured. intros H. apply negb_true_iff in H. exact H. Qed.

Lemma unconfigured_guard app :
  configured app = false -> falsy (apiKey app) || falsy (appId app) = true.
Proof. unfold configured. intros H. apply negb_false_iff in H. exact H. Qed.

(** A missing or empty API key or app id: the promise rejects and [fetch] is
    never called. *)
Lemma fetchDynamicConfig_unconfigured net app :
  configured app = false ->
  fetchDynamicConfig net app = ([], Rejected (PlainError "no api key")).
Proof.
  intros H. unfold fetchDynamicConfig, fetchDynamicConfig_request.
  rewrite (unconfigured_guard _ H). reflexivity.
Qed.

(** Both present, the API key a header value, and an app id without a
    dollar sign: one [GET] request to the template with the app id in place
    of the placeholder, the two headers, and the promise settles as
    [response.json()] does. *)
Lemma fetchDynamicConfig_configured net key id :
  key <> "" -> id <> "" -> JsString.dollarFree id = true ->
  isHeaderValue (normalizeHeaderValue key) = true ->
  let req :=
    {| url := "https://firebase.googleapis.com/v1alpha/projects/-/apps/"
              +:+ id +:+ "/webConfig";
       method := "GET";
       headers := [("accept", "application/json");
                   ("x-goog-api-key", normalizeHeaderValue key)]
    |} in
  fetchDynamicConfig net {| apiKey := Some key; appId := Some id |}
  = ([req], fetchDynamicConfig_settle (net req)).
Proof.
  intros Hk Hi Hd Hv. unfold fetchDynamicConfig, fetchDynamicConfig_request.
  simpl. rewrite !bool_decide_eq_false_2 by assumption. simpl.
  unfold getHeaders. rewrite Hv.
  rewrite (replace_app_id _ Hd). reflexivity.
Qed.

(** An API key that is not a header value: the promise rejects with the
    [TypeError] of [Headers] and [fetch] is never called. *)
Lemma fetchDynamicConfig_bad_key net app :
  configured app = true ->
  isHeaderValue (normalizeHeaderValue (default "" (apiKey app))) = false ->
  fetchDynamicConfig net app = ([], Rejected TypeError).
Proof.
  intros Hc Hv. unfold fetchDynamicConfig, fetchDynamicConfig_request.
  rewrite (configured_guard _ Hc). unfold getHeaders. rewrite Hv.
  reflexivity.
Qed.

(** C7 fails at the app id ["$$"].  The guard passes and one request is
    issued, but [String.prototype.replace] reads the two dollar signs of the
    replacement text as one, so the URL of the request has a single dollar
    sign in the place of the placeholder and not the app id. *)
Theorem fetchDynamicConfig_dollar_app_id :
  let app := {| apiKey := Some "AAbbCCdd12345"; appId := Some "$$" |} in
  configured app = true /\
  forall net, exists req,
    (fetchDynamicConfig net app).1 = [req] /\
    url req
    = "https://firebase.googleapis.com/v1alpha/projects/-/apps/$/webConfig" /\
    url req
    <> "https://firebase.googleapis.com/v1alpha/projects/-/apps/$$/webConfig".
Proof.
  split; [reflexivity|]. intros net. eexists. split; [reflexivity|].
  split; [reflexivity|]. discriminate.
Qed.

(** ** [isRetriableError] *)

Lemma isRetriableError_spec e :
  isRetriableError e = true <->
  exists code data httpStatus,
    e = FirebaseError code data /\
    data !! "httpStatus" = Some httpStatus /\
    (httpStatus = 429 \/ httpStatus = 500 \/
     httpStatus = 503 \/ httpStatus = 504).
Proof.
  split.
  - destruct e as [m|code data|c m|]; simpl; try discriminate.
    destruct (data !! "httpStatus") as [h|] eqn:Hh; [|discriminate].
    intros H. exists code, data, h. split; [reflexivity|].
    split; [exact Hh|].
    repeat (apply orb_true_iff in H as [H|H]); apply Z.eqb_eq in H; lia.
  - intros [code [data [h [He [Hh Hs]]]]]. subst e. simpl. rewrite Hh.
    destruct Hs as [-> | [-> | [-> | ->]]]; reflexivity.
Qed.

(** ** The signal and its listeners *)

Lemma run_listener_promises c l :
  promises (run_listener c l)
  = alter (settle_with
             (PRejected (fetchThrottleError (l_throttleEndTimeMillis l))))
      (l_promise l) (promises c).
Proof. reflexivity. Qed.

Lemma run_listener_timers c l :
  timers (run_listener c l) = alter clear_timer (l_timeout l) (timers c).
Proof. reflexivity. Qed.

Lemma foldl_listener_frame ls : forall c,
  call_app (foldl run_listener c ls) = call_app c /\
  phase (foldl run_listener c ls) = phase c /\
  signal (foldl run_listener c ls) = signal c /\
  length (timers (foldl run_listener c ls)) = length (timers c) /\
  length (promises (foldl run_listener c ls)) = length (promises c).
Proof.
  induction ls as [|l ls IH]; intros c; simpl; [tauto|].
  destruct (IH (run_listener c l)) as (Ha & Hp & Hs & Ht & Hq).
  rewrite Ha, Hp, Hs, Ht, Hq, run_listener_timers, run_listener_promises.
  rewrite !length_alter. tauto.
Qed.

Lemma settle_with_settled s old :
  old <> PPending -> settle_with s old = old.
Proof. destruct old; simpl; congruence. Qed.

Lemma foldl_listener_settled ls : forall c p s,
  promises c !! p = Some s -> s <> PPending ->
  promises (foldl run_listener c ls) !! p = Some s.
Proof.
  induction ls as [|l ls IH]; intros c p s Hp Hs; simpl; [exact Hp|].
  apply IH; [|exact Hs]. rewrite run_listener_promises.
  destruct (decide (l_promise l = p)) as [->|Hne].
  - rewrite list_lookup_alter_eq, Hp. simpl.
    rewrite settle_with_settled by exact Hs. reflexivity.
  - rewrite list_lookup_alter_ne by exact Hne. exact Hp.
Qed.

Lemma foldl_listener_rejects ls : forall c p e,
  promises c !! p = Some PPending ->
  (exists l, l ∈ ls /\ l_promise l = p) ->
  (forall l, l ∈ ls -> l_promise l = p -> l_throttleEndTimeMillis l = e) ->
  promises (foldl run_listener c ls) !! p
  = Some (PRejected (fetchThrottleError e)).
Proof.
  induction ls as [|l ls IH]; intros c p e Hp [l0 [Hin Hl0]] Hall; simpl.
  - inversion Hin.
  - destruct (decide (l_promise l = p)) as [Heq|Hne].
    + apply foldl_listener_settled; [|discriminate].
      rewrite run_listener_promises, Heq, list_lookup_alter_eq, Hp. simpl.
      rewrite (Hall l); [reflexivity| |exact Heq]. apply elem_of_cons; auto.
    + apply IH.
      * rewrite run_listener_promises, list_lookup_alter_ne by exact Hne.
        exact Hp.
      * apply elem_of_cons in Hin as [->|Hin]; [contradiction|]. eauto.
      * intros l' Hl'. apply Hall. apply elem_of_cons; auto.
Qed.

Lemma foldl_listener_pending ls : forall c p,
  promises c !! p = Some PPending ->
  (forall l, l ∈ ls -> l_promise l <> p) ->
  promises (foldl run_listener c ls) !! p = Some PPending.
Proof.
  induction ls as [|l ls IH]; intros c p Hp Hall; simpl; [exact Hp|].
  apply IH.
  - rewrite run_listener_promises, list_lookup_alter_ne; [exact Hp|].
    apply Hall, elem_of_cons; auto.
  - intros l' Hl'. apply Hall, elem_of_cons; auto.
Qed.

Lemma cleared_from_refl tm : cleared_from tm tm.
Proof. unfold cleared_from. tauto. Qed.

Lemma cleared_from_clear tm : cleared_from tm (clear_timer tm).
Proof.
  unfold cleared_from, clear_timer. destruct (t_state tm) eqn:H; simpl; tauto.
Qed.

Lemma cleared_from_trans a b c :
  cleared_from a b -> cleared_from b c -> cleared_from a c.
Proof.
  unfold cleared_from. intros (H1 & H2 & H3) (H4 & H5 & H6).
  rewrite H4, H5, H1, H2. repeat split; try reflexivity.
  destruct H3 as [H3|[H3 H3']], H6 as [H6|[H6 H6']]; try congruence.
  - left. congruence.
  - right. split; congruence.
  - right. split; congruence.
Qed.

Lemma foldl_listener_timer ls : forall c id tm,
  timers c !! id = Some tm ->
  exists tm', timers (foldl run_listener c ls) !! id = Some tm' /\
              cleared_from tm tm'.
Proof.
  induction ls as [|l ls IH]; intros c id tm Hid; simpl.
  - exists tm. split; [exact Hid|apply cleared_from_refl].
  - destruct (decide (l_timeout l = id)) as [Heq|Hne].
    + destruct (IH (run_listener c l) id (clear_timer tm)) as (tm' & H1 & H2).
      { rewrite run_listener_timers, Heq, list_lookup_alter_eq, Hid.
        reflexivity. }
      exists tm'. split; [exact H1|].
      eapply cleared_from_trans; [apply cleared_from_clear|exact H2].
    + apply IH. rewrite run_listener_timers, list_lookup_alter_ne by exact Hne.
      exact Hid.
Qed.

Lemma foldl_listener_clears ls : forall c id tm,
  timers c !! id = Some tm -> t_state tm = TPending ->
  (exists l, l ∈ ls /\ l_timeout l = id) ->
  exists tm', timers (foldl run_listener c ls) !! id = Some tm' /\
              t_due tm' = t_due tm /\ t_cb tm' = t_cb tm /\
              t_state tm' = TCleared.
Proof.
  induction ls as [|l ls IH]; intros c id tm Hid Hst [l0 [Hin Hl0]]; simpl.
  - inversion Hin.
  - destruct (decide (l_timeout l = id)) as [Heq|Hne].
    + destruct (foldl_listener_timer ls (run_listener c l) id (clear_timer tm))
        as (tm' & H1 & H2 & H3 & H4).
      { rewrite run_listener_timers, Heq, list_lookup_alter_eq, Hid.
        reflexivity. }
      exists tm'. split; [exact H1|].
      unfold clear_timer in H2, H3, H4. rewrite Hst in H2, H3, H4.
      simpl in H2, H3, H4. repeat split; try assumption.
      destruct H4 as [H4|[H4 _]]; [exact H4|discriminate].
    + apply IH; [|exact Hst|].
      * rewrite run_listener_timers, list_lookup_alter_ne by exact Hne.
        exact Hid.
      * apply elem_of_cons in Hin as [->|Hin]; [contradiction|]. eauto.
Qed.

Lemma foldl_listener_timer_none ls c id :
  timers c !! id = None ->
  timers (foldl run_listener c ls) !! id = None.
Proof.
  intros H. apply lookup_ge_None. apply lookup_ge_None in H.
  destruct (foldl_listener_frame ls c) as (_ & _ & _ & Ht & _).
  rewrite Ht. exact H.
Qed.

(** ** The invariant of a call *)

Lemma attempt_configured (md : ThrottleMetadata) c w :
  configured (call_app c) = true ->
  attemptFetchDynamicConfigWithRetry md (c, w)
  = (set_phase
       (AwaitDelay (length (promises c)) (throttleEndTimeMillis md)
          (backoffCount md))
       (setAbortableTimeout (throttleEndTimeMillis md) (now w) c).1,
     w).
Proof.
  intros H. unfold attemptFetchDynamicConfigWithRetry.
  rewrite (configured_guard _ H). reflexivity.
Qed.

Lemma attempt_notNumbers c w :
  configured (call_app c) = true ->
  attemptFetchDynamicConfigWithRetry NotNumbers (c, w)
  = (set_phase (AwaitDelayNaN (length (promises c)))
       (setAbortableTimeout NaN (now w) c).1,
     w).
Proof.
  intros H. unfold attemptFetchDynamicConfigWithRetry.
  rewrite (configured_guard _ H). reflexivity.
Qed.

Lemma attempt_unconfigured (md : Metadata) c w :
  configured (call_app c) = false ->
  attemptFetchDynamicConfigWithRetry md (c, w)
  = (set_phase (Thrown (PlainError "no api key")) c, w).
Proof.
  intros H. unfold attemptFetchDynamicConfigWithRetry.
  rewrite (unconfigured_guard _ H). reflexivity.
Qed.

Lemma attempt_inv (md : Metadata) c w :
  (forall l, l ∈ listeners (signal c) ->
     (l_promise l < length (promises c))%nat /\
     (l_timeout l < length (timers c))%nat) ->
  (forall id tm p, timers c !! id = Some tm -> t_cb tm = CbResolve p ->
     (p < length (promises c))%nat) ->
  call_inv (attemptFetchDynamicConfigWithRetry md (c, w)).1.
Proof.
  intros Hl Ht. destruct (configured (call_app c)) eqn:Hc;
    [destruct md as [md|]|].
  - rewrite (attempt_configured _ _ _ Hc). simpl. split; simpl.
    + intros l Hin. rewrite !length_app. simpl.
      apply elem_of_app in Hin as [Hin|Hin].
      * destruct (Hl l Hin). lia.
      * apply list_elem_of_singleton in Hin. subst l. simpl. lia.
    + intros id tm p Hid Hcb. rewrite length_app. simpl.
      apply lookup_app_Some in Hid as [Hid|[_ Hid]].
      * specialize (Ht id tm p Hid Hcb). lia.
      * apply list_lookup_singleton_Some in Hid as [_ <-].
        simpl in Hcb. injection Hcb as <-. lia.
    + intros p e n Heq. injection Heq as <- <- <-.
      split; [apply list_lookup_middle; reflexivity|].
      split.
      { eexists. split; [apply elem_of_app; right;
                         apply list_elem_of_singleton; reflexivity|].
        reflexivity. }
      split.
      * intros l Hin Hp. apply elem_of_app in Hin as [Hin|Hin].
        -- destruct (Hl l Hin). lia.
        -- apply list_elem_of_singleton in Hin. subst l. reflexivity.
      * intros id tm Hid Hcb.
        apply lookup_app_Some in Hid as [Hid|[_ Hid]].
        -- specialize (Ht id tm _ Hid Hcb). lia.
        -- apply list_lookup_singleton_Some in Hid as [_ <-]. simpl. lia.
    + discriminate.
    + discriminate.
  - rewrite (attempt_notNumbers _ _ Hc). simpl. split; simpl.
    + intros l Hin. rewrite !length_app. simpl.
      apply elem_of_app in Hin as [Hin|Hin].
      * destruct (Hl l Hin). lia.
      * apply list_elem_of_singleton in Hin. subst l. simpl. lia.
    + intros id tm p Hid Hcb. rewrite length_app. simpl.
      apply lookup_app_Some in Hid as [Hid|[_ Hid]].
      * specialize (Ht id tm p Hid Hcb). lia.
      * apply list_lookup_singleton_Some in Hid as [_ <-].
        simpl in Hcb. injection Hcb as <-. lia.
    + discriminate.
    + discriminate.
    + intros p Heq. injection Heq as <-.
      split; [apply list_lookup_middle; reflexivity|].
      split.
      { eexists. split; [apply elem_of_app; right;
                         apply list_elem_of_singleton; reflexivity|].
        reflexivity. }
      intros l Hin Hp. apply elem_of_app in Hin as [Hin|Hin].
      * destruct (Hl l Hin). lia.
      * apply list_elem_of_singleton in Hin. subst l. reflexivity.
  - rewrite (attempt_unconfigured _ _ _ Hc). simpl. split; simpl;
      try discriminate; assumption.
Qed.

Lemma fetchDynamicConfigWithRetry_inv app w :
  call_inv (fetchDynamicConfigWithRetry app w).1.
Proof.
  unfold fetchDynamicConfigWithRetry.
  destruct (falsy (apiKey app) || falsy (appId app)) eqn:Hg.
  - split; simpl; try discriminate.
    intros l Hin. inversion Hin.
  - apply attempt_inv; simpl.
    + intros l Hin. inversion Hin.
    + intros [|id] tm p Hid Hcb; simpl in Hid; [|discriminate].
      injection Hid as <-. discriminate.
Qed.

Lemma evolves_refl c : evolves c c.
Proof. split; try reflexivity. intros id tm H. eauto. Qed.

Lemma evolves_trans a b c : evolves a b -> evolves b c -> evolves a c.
Proof.
  intros [A1 A2 A3 A4 A5 A6] [B1 B2 B3 B4 B5 B6].
  split; try congruence.
  intros id tm Hid. destruct (B6 id tm Hid) as (tm1 & H1 & H2 & H3).
  destruct (A6 id tm1 H1) as (tm0 & H4 & H5 & H6).
  exists tm0. repeat split; congruence.
Qed.

Lemma evolves_fire c id :
  evolves c (set_timers (alter fire_timer id (timers c)) c).
Proof.
  split; simpl; try reflexivity.
  - apply length_alter.
  - intros j tm2 Hj. destruct (decide (id = j)) as [->|Hne].
    + rewrite list_lookup_alter_eq in Hj.
      destruct (timers c !! j) as [tm|]; [|discriminate].
      simpl in Hj. injection Hj as <-. eauto.
    + rewrite list_lookup_alter_ne in Hj by exact Hne. eauto.
Qed.

Lemma evolves_resolve c p : evolves c (resolve p c).
Proof.
  split; simpl; try reflexivity; [apply length_alter|]. eauto.
Qed.

Lemma evolves_abort c : evolves c (abort c).
Proof.
  unfold abort.
  destruct (foldl_listener_frame (listeners (signal c)) c)
    as (Ha & Hp & Hs & Ht & Hq).
  split; try assumption.
  intros id tm2 Hid. destruct (timers c !! id) as [tm|] eqn:Hc.
  - destruct (foldl_listener_timer (listeners (signal c)) c id tm Hc)
      as (tm' & H1 & H2 & H3 & _).
    rewrite H1 in Hid. injection Hid as <-. eauto.
  - rewrite (foldl_listener_timer_none _ _ _ Hc) in Hid. discriminate.
Qed.

Lemma evolves_callback c id cb :
  evolves c (run_callback cb (set_timers (alter fire_timer id (timers c)) c)).
Proof.
  eapply evolves_trans; [apply evolves_fire|].
  destruct cb; simpl; [apply evolves_resolve|apply evolves_abort].
Qed.

Section Invariant.

Variable calculateBackoffMillis : Z -> Z -> Z.

Lemma after_fetch_fatal e rnd (n : JsNumber) c w :
  isRetriableError e = false ->
  after_fetch calculateBackoffMillis (Rejected e) rnd n (c, w)
  = (set_phase (Thrown e) c, delete_metadata (appKey (call_app c)) w).
Proof. intros H. unfold after_fetch. rewrite H. reflexivity. Qed.

Lemma after_fetch_retry e rnd (n : Z) c w :
  isRetriableError e = true ->
  after_fetch calculateBackoffMillis (Rejected e) rnd n (c, w)
  = let md := {| backoffCount := n + 1;
                 throttleEndTimeMillis :=
                   now w + calculateBackoffMillis n rnd |} in
    attemptFetchDynamicConfigWithRetry md
      (c, store_metadata (appKey (call_app c)) md w).
Proof. intros H. unfold after_fetch. rewrite H. reflexivity. Qed.

Lemma after_fetch_retry_nan e rnd c w :
  isRetriableError e = true ->
  after_fetch calculateBackoffMillis (Rejected e) rnd NaN (c, w)
  = attemptFetchDynamicConfigWithRetry NotNumbers
      (c, store_notNumbers (appKey (call_app c)) w).
Proof. intros H. unfold after_fetch. rewrite H. reflexivity. Qed.

Lemma after_fetch_inv result rnd (n : JsNumber) c w :
  (forall l, l ∈ listeners (signal c) ->
     (l_promise l < length (promises c))%nat /\
     (l_timeout l < length (timers c))%nat) ->
  (forall id tm p, timers c !! id = Some tm -> t_cb tm = CbResolve p ->
     (p < length (promises c))%nat) ->
  call_inv (after_fetch calculateBackoffMillis result rnd n (c, w)).1.
Proof.
  intros Hl Ht. destruct result as [r|e].
  - simpl. split; simpl; try discriminate; assumption.
  - destruct (isRetriableError e) eqn:He.
    + destruct n as [n|].
      * rewrite (after_fetch_retry _ _ _ _ _ He). cbv zeta.
        apply attempt_inv; assumption.
      * rewrite (after_fetch_retry_nan _ _ _ _ He).
        apply attempt_inv; assumption.
    + rewrite (after_fetch_fatal _ _ _ _ _ He). simpl.
      split; simpl; try discriminate; assumption.
Qed.

Lemma request_configured app req :
  fetchDynamicConfig_request app = inr req -> configured app = true.
Proof.
  unfold fetchDynamicConfig_request, configured.
  destruct (falsy (apiKey app) || falsy (appId app)); [discriminate|].
  reflexivity.
Qed.

Lemma request_sendable app req :
  fetchDynamicConfig_request app = inr req -> sendable app = true.
Proof.
  intros H. unfold sendable. rewrite (request_configured _ _ H).
  unfold fetchDynamicConfig_request, getHeaders in H.
  destruct (falsy (apiKey app) || falsy (appId app)); [discriminate|].
  destruct (isHeaderValue _); [reflexivity|discriminate].
Qed.

Lemma sendable_configured app :
  sendable app = true -> configured app = true.
Proof.
  unfold sendable. intros H. apply andb_true_iff in H as [H _]. exact H.
Qed.

Lemma sendable_request app :
  sendable app = true ->
  exists req, fetchDynamicConfig_request app = inr req.
Proof.
  unfold sendable. intros H. apply andb_true_iff in H as [Hc Hv].
  unfold fetchDynamicConfig_request, getHeaders.
  rewrite (configured_guard _ Hc), Hv. eauto.
Qed.

Lemma resume_inv c c2 w :
  call_inv c -> evolves c c2 ->
  call_inv (resume calculateBackoffMillis (c2, w)).1.
Proof.
  intros [Hl Ht Hd Hf Hn] [E1 E2 E3 E4 E5 E6].
  assert (Hl2 : forall l, l ∈ listeners (signal c2) ->
            (l_promise l < length (promises c2))%nat /\
            (l_timeout l < length (timers c2))%nat).
  { rewrite E3, E4, E5. exact Hl. }
  assert (Ht2 : forall id tm p, timers c2 !! id = Some tm ->
            t_cb tm = CbResolve p -> (p < length (promises c2))%nat).
  { intros id tm p Hid Hcb. destruct (E6 id tm Hid) as (tm0 & H1 & _ & H3).
    rewrite E4. apply (Ht id tm0 p H1). congruence. }
  assert (Hf2 : forall n, phase c2 = AwaitFetch n ->
            sendable (call_app c2) = true).
  { rewrite E1, E2. exact Hf. }
  unfold resume. cbv beta iota.
  destruct (phase c2) as [|p e n|n|r|err|p|] eqn:Hph in |- *;
    try (simpl; split; [exact Hl2|exact Ht2|
                        intros ? ? ? Heq; congruence|exact Hf2|
                        intros ? Heq; congruence]).
  - rewrite E2 in Hph. destruct (Hd p e n Hph) as (Hp & Hex & Hall & Hdue).
    destruct (promises c2 !! p) as [[| |err]|] eqn:Hp2.
    + simpl. split; [exact Hl2|exact Ht2| |exact Hf2|].
      * intros p' e' n' Heq. rewrite E2, Hph in Heq.
        injection Heq as <- <- <-.
        split; [exact Hp2|]. rewrite E3. split; [exact Hex|].
        split; [exact Hall|].
        intros id tm Hid Hcb.
        destruct (E6 id tm Hid) as (tm0 & H1 & H2 & H3).
        rewrite H2. apply (Hdue id tm0 H1). congruence.
      * intros p' Heq. rewrite E2, Hph in Heq. discriminate.
    + destruct (fetchDynamicConfig_request (call_app c2)) as [err|req] eqn:Hr.
      * apply after_fetch_inv; assumption.
      * simpl. split; simpl; try discriminate; try assumption.
        intros n' _. apply (request_sendable _ _ Hr).
    + simpl. split; simpl; try discriminate; assumption.
    + exfalso. apply lookup_lt_Some in Hp. rewrite <- E4 in Hp.
      apply lookup_lt_is_Some_2 in Hp. rewrite Hp2 in Hp.
      destruct Hp as [? Hp]. discriminate.
  - rewrite E2 in Hph. destruct (Hn p Hph) as (Hp & Hex & Hall).
    destruct (promises c2 !! p) as [[| |err]|] eqn:Hp2.
    + simpl. split; [exact Hl2|exact Ht2| |exact Hf2|].
      * intros p' e' n' Heq. rewrite E2, Hph in Heq. discriminate.
      * intros p' Heq. rewrite E2, Hph in Heq. injection Heq as <-.
        split; [exact Hp2|]. rewrite E3. split; assumption.
    + destruct (fetchDynamicConfig_request (call_app c2)) as [err|req] eqn:Hr.
      * apply after_fetch_inv; assumption.
      * simpl. split; simpl; try discriminate; assumption.
    + simpl. split; simpl; try discriminate; assumption.
    + exfalso. apply lookup_lt_Some in Hp. rewrite <- E4 in Hp.
      apply lookup_lt_is_Some_2 in Hp. rewrite Hp2 in Hp.
      destruct Hp as [? Hp]. discriminate.
Qed.

Lemma step_inv ev c w c' w' :
  call_inv c ->
  step calculateBackoffMillis ev (c, w) = Some (c', w') ->
  call_inv c'.
Proof.
  intros Hinv Hstep.
  destruct ev as [id t|reply rnd t]; unfold step in Hstep;
    cbv beta iota in Hstep.
  - destruct (timers c !! id) as [tm|]; [|discriminate].
    destruct (_ && _); [|discriminate].
    apply (inj Some) in Hstep.
    pose proof (resume_inv c _ (set_now t w) Hinv
                  (evolves_callback c id (t_cb tm))) as H.
    rewrite Hstep in H. exact H.
  - destruct (phase c) as [| |n| | | |]; try discriminate.
    + destruct (now w <=? t); [|discriminate].
      apply (inj Some) in Hstep.
      pose proof (after_fetch_inv (fetchDynamicConfig_settle reply) rnd n c
                    (set_now t w) (inv_listeners c Hinv) (inv_timers c Hinv))
        as H.
      rewrite Hstep in H. exact H.
    + destruct (now w <=? t); [|discriminate].
      apply (inj Some) in Hstep.
      pose proof (after_fetch_inv (fetchDynamicConfig_settle reply) rnd NaN c
                    (set_now t w) (inv_listeners c Hinv) (inv_timers c Hinv))
        as H.
      rewrite Hstep in H. exact H.
Qed.

Lemma run_inv evs : forall st st',
  call_inv st.1 ->
  run calculateBackoffMillis evs st = Some st' ->
  call_inv st'.1.
Proof.
  induction evs as [|ev evs IH]; intros st st' Hinv Hrun;
    cbn [run] in Hrun.
  - injection Hrun as <-. exact Hinv.
  - destruct (step calculateBackoffMillis ev st) as [[c1 w1]|] eqn:Hs;
      [|discriminate].
    destruct st as [c w]. apply (IH (c1, w1) st'); [|exact Hrun].
    exact (step_inv _ _ _ _ _ Hinv Hs).
Qed.

Lemma reachable_inv app w st :
  reachable calculateBackoffMillis app w st -> call_inv st.1.
Proof.
  intros [evs Hrun]. eapply run_inv; [|exact Hrun].
  apply fetchDynamicConfigWithRetry_inv.
Qed.

End Invariant.

(** ** Single events *)

Lemma request_error app e :
  fetchDynamicConfig_request app = inl e -> isRetriableError e = false.
Proof.
  unfold fetchDynamicConfig_request, getHeaders.
  destruct (falsy (apiKey app) || falsy (appId app)).
  - intros H. injection H as <-. reflexivity.
  - destruct (isHeaderValue _); [discriminate|].
    intros H. injection H as <-. reflexivity.
Qed.

Lemma abort_rejects_delay c c1 p e n :
  call_inv c -> phase c = AwaitDelay p e n ->
  signal c1 = signal c -> promises c1 = promises c ->
  promises (abort c1) !! p = Some (PRejected (fetchThrottleError e)).
Proof.
  intros Hinv Hph Hs Hp.
  destruct (inv_delay c Hinv p e n Hph) as (Hpend & Hex & Hall & _).
  unfold abort. rewrite Hs. apply foldl_listener_rejects; try assumption.
  rewrite Hp. exact Hpend.
Qed.

Lemma callback_resolves c id cb p e n :
  call_inv c -> phase c = AwaitDelay p e n ->
  promises (run_callback cb (set_timers (alter fire_timer id (timers c)) c))
    !! p = Some PResolved ->
  cb = CbResolve p.
Proof.
  intros Hinv Hph Hres. destruct cb as [p'|]; simpl in Hres.
  - destruct (decide (p' = p)) as [->|Hne]; [reflexivity|].
    rewrite list_lookup_alter_ne in Hres by exact Hne.
    destruct (inv_delay c Hinv p e n Hph) as (Hpend & _). congruence.
  - rewrite (abort_rejects_delay c
               (set_timers (alter fire_timer id (timers c)) c) p e n
               Hinv Hph eq_refl eq_refl) in Hres.
    discriminate.
Qed.

Lemma abort_rejects_delay_nan c c1 p :
  call_inv c -> phase c = AwaitDelayNaN p ->
  signal c1 = signal c -> promises c1 = promises c ->
  promises (abort c1) !! p = Some (PRejected (fetchThrottleError NaN)).
Proof.
  intros Hinv Hph Hs Hp.
  destruct (inv_delay_nan c Hinv p Hph) as (Hpend & Hex & Hall).
  unfold abort. rewrite Hs. apply foldl_listener_rejects; try assumption.
  rewrite Hp. exact Hpend.
Qed.

Section Steps.

Variable calculateBackoffMillis : Z -> Z -> Z.

Lemma attempt_app (md : Metadata) c w :
  call_app (attemptFetchDynamicConfigWithRetry md (c, w)).1 = call_app c.
Proof.
  unfold attemptFetchDynamicConfigWithRetry.
  destruct (falsy _ || falsy _); [reflexivity|].
  destruct md; reflexivity.
Qed.

Lemma after_fetch_app result rnd (n : JsNumber) c w :
  call_app (after_fetch calculateBackoffMillis result rnd n (c, w)).1
  = call_app c.
Proof.
  destruct result as [r|e]; [reflexivity|].
  destruct (isRetriableError e) eqn:He.
  - destruct n as [n|].
    + rewrite (after_fetch_retry _ _ _ _ _ _ He). cbv zeta.
      apply attempt_app.
    + rewrite (after_fetch_retry_nan _ _ _ _ _ He). apply attempt_app.
  - rewrite (after_fetch_fatal _ _ _ _ _ _ He). reflexivity.
Qed.

(** What the [try]/[catch] can do once the fetch has settled. *)
Lemma after_fetch_cases result rnd (n : JsNumber) c w :
  (exists r,
      result = Fulfilled r /\
      after_fetch calculateBackoffMillis result rnd n (c, w)
      = (set_phase (Returned r) c, delete_metadata (appKey (call_app c)) w))
  \/
  (exists e,
      result = Rejected e /\ isRetriableError e = false /\
      after_fetch calculateBackoffMillis result rnd n (c, w)
      = (set_phase (Thrown e) c, delete_metadata (appKey (call_app c)) w))
  \/
  (exists e (md : Metadata) w1,
      result = Rejected e /\ isRetriableError e = true /\
      after_fetch calculateBackoffMillis result rnd n (c, w)
      = attemptFetchDynamicConfigWithRetry md (c, w1) /\
      now w1 = now w /\ requests w1 = requests w /\
      forall key, key <> appKey (call_app c) ->
        appThrottleMetadata w1 !! key = appThrottleMetadata w !! key).
Proof.
  destruct result as [r|e]; [left; eauto|].
  destruct (isRetriableError e) eqn:He.
  - right. right. destruct n as [n|].
    + rewrite (after_fetch_retry _ _ _ _ _ _ He). cbv zeta.
      exists e,
        (Numbers {| backoffCount := n + 1;
                    throttleEndTimeMillis :=
                      now w + calculateBackoffMillis n rnd |}),
        (store_metadata (appKey (call_app c))
           {| backoffCount := n + 1;
              throttleEndTimeMillis :=
                now w + calculateBackoffMillis n rnd |} w).
      split; [reflexivity|]. split; [exact He|].
      split; [reflexivity|]. split; [reflexivity|].
      split; [reflexivity|].
      intros key Hk. simpl. apply lookup_insert_ne. congruence.
    + rewrite (after_fetch_retry_nan _ _ _ _ _ He).
      exists e, NotNumbers, (store_notNumbers (appKey (call_app c)) w).
      split; [reflexivity|]. split; [exact He|].
      split; [reflexivity|]. unfold store_notNumbers.
      case_bool_decide; simpl; [auto|].
      split; [reflexivity|]. split; [reflexivity|].
      intros key Hk. apply lookup_delete_ne. congruence.
  - right. left. exists e. rewrite (after_fetch_fatal _ _ _ _ _ _ He).
    split; [reflexivity|]. split; [exact He|reflexivity].
Qed.

(** An attempt of a configured call arms a delay and awaits it. *)
Lemma attempt_shape (md : Metadata) c w :
  configured (call_app c) = true ->
  exists (e : JsNumber) ph,
    attemptFetchDynamicConfigWithRetry md (c, w)
    = (set_phase ph (setAbortableTimeout e (now w) c).1, w) /\
    (ph = AwaitDelayNaN (length (promises c)) \/
     exists e' n, ph = AwaitDelay (length (promises c)) e' n).
Proof.
  intros Hc. destruct md as [md|].
  - rewrite (attempt_configured _ _ _ Hc). eexists _, _.
    split; [reflexivity|]. right. eauto.
  - rewrite (attempt_notNumbers _ _ Hc). eexists _, _.
    split; [reflexivity|]. left. reflexivity.
Qed.

(** A fetch settles only while one is in flight; the [try]/[catch] then
    runs with the count of that fetch. *)
Lemma step_fetch_after reply rnd t c w st' :
  step calculateBackoffMillis (FetchSettles reply rnd t) (c, w) = Some st' ->
  exists n : JsNumber,
    now w <= t /\
    phase c = match n with
              | Finite k => AwaitFetch k
              | NaN => AwaitFetchNaN
              end /\
    st' = after_fetch calculateBackoffMillis
            (fetchDynamicConfig_settle reply) rnd n (c, set_now t w).
Proof.
  unfold step. cbv beta iota. intros H.
  destruct (phase c) as [| |n| | | |]; try discriminate;
    (destruct (now w <=? t) eqn:Ht; [|discriminate]);
    apply Z.leb_le in Ht; apply (inj Some) in H.
  - exists (Finite n). auto.
  - exists NaN. auto.
Qed.

(** What the continuation of the delay can do. *)
Lemma resume_cases c w :
  resume calculateBackoffMillis (c, w) = (c, w) \/
  (exists e w',
      resume calculateBackoffMillis (c, w)
      = (set_phase (Thrown e) c, w')) \/
  (exists p e n req,
      phase c = AwaitDelay p e n /\
      promises c !! p = Some PResolved /\
      fetchDynamicConfig_request (call_app c) = inr req /\
      resume calculateBackoffMillis (c, w)
      = (set_phase (AwaitFetch n) c, add_request req w)) \/
  (exists p req,
      phase c = AwaitDelayNaN p /\
      promises c !! p = Some PResolved /\
      fetchDynamicConfig_request (call_app c) = inr req /\
      resume calculateBackoffMillis (c, w)
      = (set_phase AwaitFetchNaN c, add_request req w)).
Proof.
  unfold resume. destruct (phase c) as [|p e n|n|r|err|p|] eqn:Hph; auto.
  - destruct (promises c !! p) as [[| |err]|] eqn:Hp; auto.
    + destruct (fetchDynamicConfig_request (call_app c)) as [err|req] eqn:Hr.
      * right. left.
        rewrite after_fetch_fatal by exact (request_error _ _ Hr). eauto.
      * right. right. left. exists p, e, n, req. auto.
    + right. left. eauto.
  - destruct (promises c !! p) as [[| |err]|] eqn:Hp; auto.
    + destruct (fetchDynamicConfig_request (call_app c)) as [err|req] eqn:Hr.
      * right. left.
        rewrite after_fetch_fatal by exact (request_error _ _ Hr). eauto.
      * right. right. right. exists p, req. auto.
    + right. left. eauto.
Qed.

Lemma step_app ev c w c' w' :
  step calculateBackoffMillis ev (c, w) = Some (c', w') ->
  call_app c' = call_app c.
Proof.
  intros Hstep.
  destruct ev as [id t|reply rnd t]; unfold step in Hstep;
    cbv beta iota in Hstep.
  - destruct (timers c !! id) as [tm|]; [|discriminate].
    destruct (_ && _); [|discriminate].
    apply (inj Some) in Hstep.
    pose proof (ev_app _ _ (evolves_callback c id (t_cb tm))) as Happ.
    destruct (resume_cases
                (run_callback (t_cb tm)
                   (set_timers (alter fire_timer id (timers c)) c))
                (set_now t w))
      as [H|[(e & w2 & H)|[(p & e & n & req & _ & _ & _ & H)
                          |(p & req & _ & _ & _ & H)]]];
      rewrite Hstep in H.
    + injection H as -> _. exact Happ.
    + injection H as -> _. exact Happ.
    + injection H as -> _. exact Happ.
    + injection H as -> _. exact Happ.
  - destruct (phase c) as [| |n| | | |]; try discriminate.
    + destruct (now w <=? t); [|discriminate].
      apply (inj Some) in Hstep.
      pose proof (after_fetch_app (fetchDynamicConfig_settle reply) rnd n c
                    (set_now t w)) as H.
      rewrite Hstep in H. exact H.
    + destruct (now w <=? t); [|discriminate].
      apply (inj Some) in Hstep.
      pose proof (after_fetch_app (fetchDynamicConfig_settle reply) rnd NaN c
                    (set_now t w)) as H.
      rewrite Hstep in H. exact H.
Qed.

Lemma step_timer_tracks id t c w c' w' cnt L :
  call_inv c -> tracks cnt L (c, w) ->
  step calculateBackoffMillis (TimerFires id t) (c, w) = Some (c', w') ->
  tracks cnt L (c', w').
Proof.
  intros Hinv Htr Hstep. unfold step in Hstep. cbv beta iota in Hstep.
  destruct (timers c !! id) as [tm|] eqn:Hid; [|discriminate].
  destruct (_ && _) eqn:Hok; [|discriminate].
  apply andb_true_iff in Hok as [Hok Hnow].
  apply andb_true_iff in Hok as [_ Hdue].
  apply Z.leb_le in Hnow, Hdue.
  apply (inj Some) in Hstep.
  pose proof (evolves_callback c id (t_cb tm)) as Hev.
  set (c2 := run_callback (t_cb tm)
               (set_timers (alter fire_timer id (timers c)) c)) in *.
  unfold tracks in *. simpl in Htr.
  destruct (resume_cases c2 (set_now t w))
    as [H|[(e & w2 & H)|[(p & e & n & req & Hph & Hp & _ & H)
                        |(p & req & Hph & _ & _ & H)]]];
    rewrite Hstep in H.
  - injection H as -> ->. simpl. rewrite (ev_phase _ _ Hev).
    destruct (phase c); try exact I; try exact Htr.
    destruct Htr. split; [assumption|lia].
  - injection H as -> _. exact I.
  - injection H as -> ->. simpl. rewrite (ev_phase _ _ Hev) in Hph.
    rewrite Hph in Htr. destruct Htr as [-> HL]. split; [reflexivity|].
    pose proof (callback_resolves c id (t_cb tm) p e cnt Hinv Hph Hp) as Hcb.
    destruct (inv_delay c Hinv p e cnt Hph) as (_ & _ & _ & Hd).
    specialize (Hd id tm Hid Hcb). lia.
  - rewrite (ev_phase _ _ Hev) in Hph. rewrite Hph in Htr. contradiction.
Qed.

Lemma step_timer_enabled id t c w tm :
  timers c !! id = Some tm -> t_state tm = TPending ->
  t_due tm <= t -> now w <= t ->
  step calculateBackoffMillis (TimerFires id t) (c, w)
  = Some (resume calculateBackoffMillis
            (run_callback (t_cb tm)
               (set_timers (alter fire_timer id (timers c)) c),
             set_now t w)).
Proof.
  intros Hid Hst Hdue Hnow. unfold step. cbv beta iota. rewrite Hid.
  rewrite bool_decide_eq_true_2 by exact Hst.
  apply Z.leb_le in Hdue, Hnow. rewrite Hdue, Hnow. reflexivity.
Qed.

Lemma step_timer_inv id t c w st' :
  step calculateBackoffMillis (TimerFires id t) (c, w) = Some st' ->
  exists tm, timers c !! id = Some tm /\ t_state tm = TPending /\
             t_due tm <= t /\ now w <= t.
Proof.
  unfold step. cbv beta iota. intros H.
  destruct (timers c !! id) as [tm|]; [|discriminate].
  destruct (_ && _) eqn:Hok; [|discriminate].
  apply andb_true_iff in Hok as [Hok Hnow].
  apply andb_true_iff in Hok as [Hst Hdue].
  apply bool_decide_eq_true in Hst. apply Z.leb_le in Hnow, Hdue.
  eauto.
Qed.

End Steps.

Section Fetches.

Variable calculateBackoffMillis : Z -> Z -> Z.

Lemma step_fetch_enabled reply rnd t c w (n : Z) :
  phase c = AwaitFetch n -> now w <= t ->
  step calculateBackoffMillis (FetchSettles reply rnd t) (c, w)
  = Some (after_fetch calculateBackoffMillis
            (fetchDynamicConfig_settle reply) rnd n (c, set_now t w)).
Proof.
  intros Hph Ht. unfold step. cbv beta iota. rewrite Hph.
  apply Z.leb_le in Ht. rewrite Ht. reflexivity.
Qed.

Lemma step_fetch_nan_enabled reply rnd t c w :
  phase c = AwaitFetchNaN -> now w <= t ->
  step calculateBackoffMillis (FetchSettles reply rnd t) (c, w)
  = Some (after_fetch calculateBackoffMillis
            (fetchDynamicConfig_settle reply) rnd NaN (c, set_now t w)).
Proof.
  intros Hph Ht. unfold step. cbv beta iota. rewrite Hph.
  apply Z.leb_le in Ht. rewrite Ht. reflexivity.
Qed.

(** A fetch settles only while one is in flight, for a count that is a
    number or for one that is not. *)
Lemma step_fetch_inv reply rnd t c w st' :
  step calculateBackoffMillis (FetchSettles reply rnd t) (c, w) = Some st' ->
  now w <= t /\
  ((exists n : Z, phase c = AwaitFetch n) \/ phase c = AwaitFetchNaN).
Proof.
  unfold step. cbv beta iota. intros H.
  destruct (phase c) as [| |n| | | |]; try discriminate;
    (destruct (now w <=? t) eqn:Ht; [|discriminate]);
    apply Z.leb_le in Ht; eauto.
Qed.

Lemma step_fetch_retry reply rnd t c w n e :
  phase c = AwaitFetch n -> now w <= t ->
  configured (call_app c) = true ->
  fetchDynamicConfig_settle reply = Rejected e ->
  isRetriableError e = true ->
  step calculateBackoffMillis (FetchSettles reply rnd t) (c, w)
  = Some
      (set_phase
         (AwaitDelay (length (promises c))
            (throttleEndTimeMillis
               (nextMetadata calculateBackoffMillis n rnd t))
            (n + 1))
         (setAbortableTimeout
            (throttleEndTimeMillis
               (nextMetadata calculateBackoffMillis n rnd t)) t c).1,
       store_metadata (appKey (call_app c))
         (nextMetadata calculateBackoffMillis n rnd t) (set_now t w)).
Proof.
  intros Hph Ht Hc Hs He. rewrite (step_fetch_enabled _ _ _ _ _ _ Hph Ht).
  rewrite Hs, (after_fetch_retry _ _ _ _ _ _ He). cbv zeta.
  rewrite (attempt_configured _ _ _ Hc). reflexivity.
Qed.

Lemma step_fetch_fatal reply rnd t c w n e :
  phase c = AwaitFetch n -> now w <= t ->
  fetchDynamicConfig_settle reply = Rejected e ->
  isRetriableError e = false ->
  step calculateBackoffMillis (FetchSettles reply rnd t) (c, w)
  = Some
      (set_phase (Thrown e) c,
       delete_metadata (appKey (call_app c)) (set_now t w)).
Proof.
  intros Hph Ht Hs He. rewrite (step_fetch_enabled _ _ _ _ _ _ Hph Ht).
  rewrite Hs, (after_fetch_fatal _ _ _ _ _ _ He). reflexivity.
Qed.

Lemma step_fetch_success reply rnd t c w n response :
  phase c = AwaitFetch n -> now w <= t ->
  fetchDynamicConfig_settle reply = Fulfilled response ->
  step calculateBackoffMillis (FetchSettles reply rnd t) (c, w)
  = Some
      (set_phase (Returned response) c,
       delete_metadata (appKey (call_app c)) (set_now t w)).
Proof.
  intros Hph Ht Hs. rewrite (step_fetch_enabled _ _ _ _ _ _ Hph Ht).
  rewrite Hs. reflexivity.
Qed.

Hypothesis backoff_nonneg : forall n rnd, 0 <= calculateBackoffMillis n rnd.

Lemma storedAfterFetches_progression evs : forall c w cnt L,
  call_inv c -> tracks cnt L (c, w) ->
  Forall (fun ev => retriableFailure ev = true) evs ->
  progression cnt L
    (storedAfterFetches calculateBackoffMillis (appKey (call_app c)) evs
       (c, w)).
Proof.
  induction evs as [|ev evs IH]; intros c w cnt L Hinv Htr Hall;
    [exact I|].
  apply Forall_cons in Hall as [Hev Hall].
  cbn [storedAfterFetches].
  destruct (step calculateBackoffMillis ev (c, w)) as [[c' w']|] eqn:Hstep;
    [|exact I].
  pose proof (step_app _ _ _ _ _ _ Hstep) as Happ.
  pose proof (step_inv _ _ _ _ _ _ Hinv Hstep) as Hinv'.
  destruct ev as [id t|reply rnd t].
  - simpl. rewrite <- Happ. apply IH; try assumption.
    exact (step_timer_tracks _ id t c w c' w' cnt L Hinv Htr Hstep).
  - destruct (step_fetch_inv _ _ _ _ _ _ Hstep) as (Ht & [(n & Hph)|Hph]);
      [|unfold tracks in Htr; simpl in Htr; rewrite Hph in Htr;
        contradiction].
    unfold retriableFailure in Hev.
    destruct (fetchDynamicConfig_settle reply) as [r|e] eqn:Hs;
      [discriminate|].
    rewrite (step_fetch_retry _ _ _ _ _ _ _ Hph Ht
               (sendable_configured _ (inv_fetch c Hinv n Hph)) Hs Hev)
      in Hstep.
    unfold tracks in Htr. simpl in Htr. rewrite Hph in Htr.
    destruct Htr as [-> HL].
    injection Hstep as Hc' Hw'.
    simpl. exists (nextMetadata calculateBackoffMillis cnt rnd t).
    split; [rewrite <- Hw'; simpl; rewrite lookup_insert_eq; reflexivity|].
    split; [reflexivity|].
    pose proof (backoff_nonneg cnt rnd) as Hb.
    split; [simpl; lia|].
    rewrite <- Happ. apply IH; try assumption.
    unfold tracks. rewrite <- Hc'. simpl. split; [reflexivity|lia].
Qed.

End Fetches.

Lemma progression_lookup h : forall cnt L k,
  progression cnt L h -> (k < length h)%nat ->
  exists md, h !! k = Some (Some md) /\
             backoffCount md = cnt + Z.of_nat k + 1 /\
             L <= throttleEndTimeMillis md.
Proof.
  induction h as [|o h IH]; intros cnt L k Hp Hk; simpl in Hk; [lia|].
  destruct Hp as (md & -> & Hc & HL & Hp).
  destruct k as [|k].
  - exists md. simpl. split; [reflexivity|]. split; lia.
  - destruct (IH _ _ k Hp ltac:(lia)) as (md' & H1 & H2 & H3).
    exists md'. simpl. split; [exact H1|]. split; lia.
Qed.

Lemma progression_sorted h : forall cnt L i j mi mj,
  progression cnt L h -> (i <= j)%nat ->
  h !! i = Some (Some mi) -> h !! j = Some (Some mj) ->
  throttleEndTimeMillis mi <= throttleEndTimeMillis mj.
Proof.
  induction h as [|o h IH]; intros cnt L i j mi mj Hp Hij Hi Hj;
    [discriminate|].
  destruct Hp as (md & -> & Hc & HL & Hp).
  destruct i as [|i], j as [|j]; simpl in Hi, Hj.
  - injection Hi as <-. injection Hj as <-. lia.
  - injection Hi as <-.
    destruct (progression_lookup h _ _ j Hp) as (md' & H1 & _ & H3).
    { apply lookup_lt_Some in Hj. exact Hj. }
    rewrite Hj in H1. injection H1 as <-. exact H3.
  - lia.
  - apply (IH _ _ i j mi mj Hp); [lia|assumption|assumption].
Qed.

(** ** The retry loop over whole runs *)

Lemma fetchDynamicConfigWithRetry_tracks app w md0 :
  initialMetadata app w = Numbers md0 ->
  tracks (backoffCount md0) (throttleEndTimeMillis md0)
    (fetchDynamicConfigWithRetry app w).
Proof.
  unfold initialMetadata. intros Hmd.
  unfold fetchDynamicConfigWithRetry, tracks.
  destruct (falsy (apiKey app) || falsy (appId app)) eqn:Hg; [exact I|].
  cbv zeta. unfold setTimeout. rewrite Hmd.
  rewrite attempt_configured
    by (unfold configured; simpl; rewrite Hg; reflexivity).
  simpl. split; [reflexivity|]. lia.
Qed.

Lemma fetchDynamicConfigWithRetry_app app w :
  call_app (fetchDynamicConfigWithRetry app w).1 = app.
Proof.
  unfold fetchDynamicConfigWithRetry.
  destruct (falsy (apiKey app) || falsy (appId app)); [reflexivity|].
  cbv zeta. unfold setTimeout. rewrite attempt_app. reflexivity.
Qed.

(** ** Runs with any number of failures exist *)

Section Rounds.

Variable calculateBackoffMillis : Z -> Z -> Z.

(** When its delay elapses, a call whose app is sendable issues its
    request. *)
Lemma delay_elapses c w p e n id tm t :
  sendable (call_app c) = true ->
  phase c = AwaitDelay p e n ->
  promises c !! p = Some PPending ->
  timers c !! id = Some tm -> t_cb tm = CbResolve p ->
  t_state tm = TPending -> t_due tm <= t -> now w <= t ->
  exists c' w',
    step calculateBackoffMillis (TimerFires id t) (c, w) = Some (c', w') /\
    phase c' = AwaitFetch n /\ call_app c' = call_app c.
Proof.
  intros Hc Hph Hp Hid Hcb Hst Hdue Hnow.
  destruct (sendable_request _ Hc) as [req Hreq].
  exists (set_phase (AwaitFetch n)
            (resolve p (set_timers (alter fire_timer id (timers c)) c))),
    (add_request req (set_now t w)).
  split; [|split; reflexivity].
  rewrite (step_timer_enabled _ id t c w tm Hid Hst Hdue Hnow).
  rewrite Hcb. f_equal. unfold resume. simpl. rewrite Hph.
  rewrite list_lookup_alter_eq, Hp. simpl. rewrite Hreq. reflexivity.
Qed.

(** One round: the fetch fails with a retriable error, and the delay armed
    for the retry elapses. *)
Lemma retry_round c w n e rnd :
  call_inv c -> phase c = AwaitFetch n -> isRetriableError e = true ->
  exists t c1 w1 c2 w2,
    step calculateBackoffMillis
      (FetchSettles (NetRejects e) rnd (now w)) (c, w) = Some (c1, w1) /\
    step calculateBackoffMillis
      (TimerFires (length (timers c)) t) (c1, w1) = Some (c2, w2) /\
    phase c2 = AwaitFetch (n + 1) /\ call_inv c2.
Proof.
  intros Hinv Hph He.
  pose proof (inv_fetch c Hinv n Hph) as Hc.
  pose proof (step_fetch_retry calculateBackoffMillis (NetRejects e) rnd
                (now w) c w n e Hph ltac:(lia) (sendable_configured _ Hc)
                eq_refl He) as H1.
  set (md := nextMetadata calculateBackoffMillis n rnd (now w)) in *.
  set (c1 := set_phase
               (AwaitDelay (length (promises c)) (throttleEndTimeMillis md)
                  (n + 1))
               (setAbortableTimeout (throttleEndTimeMillis md) (now w) c).1)
    in *.
  set (w1 := store_metadata (appKey (call_app c)) md (set_now (now w) w))
    in *.
  set (due := now w + Z.max (throttleEndTimeMillis md - now w) 0).
  destruct (delay_elapses c1 w1 (length (promises c))
              (throttleEndTimeMillis md) (n + 1) (length (timers c))
              {| t_due := due; t_cb := CbResolve (length (promises c));
                 t_state := TPending |} due)
    as (c2 & w2 & H2 & Hph2 & _).
  - exact Hc.
  - reflexivity.
  - apply list_lookup_middle. reflexivity.
  - apply list_lookup_middle. reflexivity.
  - reflexivity.
  - reflexivity.
  - simpl. lia.
  - simpl. unfold due. lia.
  - exists due, c1, w1, c2, w2. split; [exact H1|]. split; [exact H2|].
    split; [exact Hph2|].
    apply (step_inv _ _ _ _ _ _ (step_inv _ _ _ _ _ _ Hinv H1) H2).
Qed.

Lemma retry_rounds_exist (es : list (JsError * Z)) : forall c w n,
  Forall (fun er => isRetriableError er.1 = true) es ->
  call_inv c -> phase c = AwaitFetch n ->
  exists evs,
    Forall (fun ev => retriableFailure ev = true) evs /\
    length (storedAfterFetches calculateBackoffMillis (appKey (call_app c))
              evs (c, w))
    = length es.
Proof.
  induction es as [|[e rnd] es IH]; intros c w n Hall Hinv Hph.
  - exists []. split; [constructor|reflexivity].
  - apply Forall_cons in Hall as [He Hall]. simpl in He.
    destruct (retry_round c w n e rnd Hinv Hph He)
      as (t & c1 & w1 & c2 & w2 & H1 & H2 & Hph2 & Hinv2).
    destruct (IH c2 w2 (n + 1) Hall Hinv2 Hph2) as (evs & Hevs & Hlen).
    exists (FetchSettles (NetRejects e) rnd (now w)
            :: TimerFires (length (timers c)) t :: evs).
    split.
    + constructor; [exact He|]. constructor; [reflexivity|exact Hevs].
    + cbn [storedAfterFetches]. rewrite H1. cbn [storedAfterFetches].
      rewrite H2. simpl length.
      rewrite <- (step_app _ _ _ _ _ _ H1), <- (step_app _ _ _ _ _ _ H2).
      rewrite Hlen. reflexivity.
Qed.

(** For every number of failures, a top-level call that starts from
    numbers, for an app that is sendable, has a run in which that many
    fetches fail with retriable errors. *)
Lemma retriable_runs_exist app w md (es : list (JsError * Z)) :
  sendable app = true ->
  initialMetadata app w = Numbers md ->
  Forall (fun er => isRetriableError er.1 = true) es ->
  exists evs,
    Forall (fun ev => retriableFailure ev = true) evs /\
    length (storedAfterFetches calculateBackoffMillis (appKey app) evs
              (fetchDynamicConfigWithRetry app w))
    = length es.
Proof.
  intros Hs Hmd Hall.
  pose proof (sendable_configured _ Hs) as Hc.
  pose proof (fetchDynamicConfigWithRetry_inv app w) as Hinv0.
  pose proof (fetchDynamicConfigWithRetry_app app w) as Happ0.
  set (due := now w + Z.max (throttleEndTimeMillis md - now w) 0).
  destruct (fetchDynamicConfigWithRetry app w) as [c0 w0] eqn:H0.
  simpl in Hinv0, Happ0.
  assert (Hst : c0 = set_phase
                  (AwaitDelay 0 (throttleEndTimeMillis md) (backoffCount md))
                  (setAbortableTimeout (throttleEndTimeMillis md) (now w)
                     (setTimeout CbAbort FETCH_TIMEOUT_MILLIS (now w)
                        {| call_app := app; timers := []; promises := [];
                           signal := {| listeners := [] |};
                           phase := Entered |}).1).1
                /\ w0 = w).
  { unfold fetchDynamicConfigWithRetry in H0.
    rewrite (configured_guard _ Hc) in H0. cbv zeta in H0.
    unfold initialMetadata in Hmd. rewrite Hmd in H0.
    unfold setTimeout in H0. rewrite attempt_configured in H0 by exact Hc.
    injection H0 as <- <-. split; reflexivity. }
  destruct Hst as [Hc0 ->].
  destruct (delay_elapses c0 w 0%nat (throttleEndTimeMillis md)
              (backoffCount md) 1%nat
              {| t_due := due; t_cb := CbResolve 0; t_state := TPending |}
              due)
    as (c1 & w1 & H1 & Hph1 & Happ1).
  - rewrite Happ0. exact Hs.
  - rewrite Hc0. reflexivity.
  - rewrite Hc0. reflexivity.
  - rewrite Hc0. reflexivity.
  - reflexivity.
  - reflexivity.
  - simpl. lia.
  - unfold due. lia.
  - destruct (retry_rounds_exist es c1 w1 (backoffCount md) Hall
                (step_inv _ _ _ _ _ _ Hinv0 H1) Hph1) as (evs & Hevs & Hlen).
    exists (TimerFires 1 due :: evs). split.
    + constructor; [reflexivity|exact Hevs].
    + cbn [storedAfterFetches]. rewrite H1, app_nil_l.
      rewrite <- Happ0, <- Happ1. exact Hlen.
Qed.

End Rounds.

Section Progress.

Variable calculateBackoffMillis : Z -> Z -> Z.
Hypothesis backoff_nonneg : forall n rnd, 0 <= calculateBackoffMillis n rnd.

(** A top-level call for [app] that starts from numbers (an entry of its
    own, or the fresh default) is followed through any events in which
    every fetch fails with a retriable error.  The entry stored for the app
    right after the k-th failure has the starting backoff count plus k, and
    the end times stored after successive failures never decrease.  The
    backoff durations are assumed not to be negative. *)
Lemma retry_failures_progress app w md0 evs :
  initialMetadata app w = Numbers md0 ->
  Forall (fun ev => retriableFailure ev = true) evs ->
  let h :=
    storedAfterFetches calculateBackoffMillis (appKey app) evs
      (fetchDynamicConfigWithRetry app w) in
  (forall k, (k < length h)%nat ->
     exists md, h !! k = Some (Some md) /\
       backoffCount md = backoffCount md0 + Z.of_nat (S k)) /\
  (forall i j mi mj, (i <= j)%nat ->
     h !! i = Some (Some mi) -> h !! j = Some (Some mj) ->
     throttleEndTimeMillis mi <= throttleEndTimeMillis mj).
Proof.
  intros Hmd Hall h.
  assert (Hp : progression (backoffCount md0)
                 (throttleEndTimeMillis md0) h).
  { subst h.
    destruct (fetchDynamicConfigWithRetry app w) as [c0 w0] eqn:H0.
    pose proof (fetchDynamicConfigWithRetry_app app w) as Happ.
    pose proof (fetchDynamicConfigWithRetry_inv app w) as Hinv.
    pose proof (fetchDynamicConfigWithRetry_tracks app w md0 Hmd) as Htr.
    rewrite H0 in Happ, Hinv, Htr. simpl in Happ, Hinv.
    replace (appKey app) with (appKey (call_app c0))
      by (rewrite Happ; reflexivity).
    apply storedAfterFetches_progression; assumption. }
  split.
  - intros k Hk.
    destruct (progression_lookup h _ _ k Hp Hk) as (md & H1 & H2 & _).
    exists md. split; [exact H1|]. lia.
  - intros i j mi mj. apply (progression_sorted h _ _ i j mi mj Hp).
Qed.

End Progress.

(** ** A settled call stays settled *)

Section Settled.

Variable calculateBackoffMillis : Z -> Z -> Z.

Lemma resume_finished c w :
  finished (phase c) = true ->
  resume calculateBackoffMillis (c, w) = (c, w).
Proof. unfold resume. destruct (phase c); try discriminate; reflexivity. Qed.

Lemma step_finished ev c w c' w' :
  finished (phase c) = true ->
  step calculateBackoffMillis ev (c, w) = Some (c', w') ->
  phase c' = phase c /\
  appThrottleMetadata w' = appThrottleMetadata w /\
  nanThrottleMetadata w' = nanThrottleMetadata w /\
  requests w' = requests w.
Proof.
  intros Hfin Hstep.
  destruct ev as [id t|reply rnd t]; unfold step in Hstep;
    cbv beta iota in Hstep.
  - destruct (timers c !! id) as [tm|]; [|discriminate].
    destruct (_ && _); [|discriminate].
    apply (inj Some) in Hstep.
    pose proof (ev_phase _ _ (evolves_callback c id (t_cb tm))) as Hph.
    rewrite resume_finished in Hstep by (rewrite Hph; exact Hfin).
    injection Hstep as <- <-. auto.
  - destruct (phase c); discriminate.
Qed.

Lemma run_finished evs : forall c w c' w',
  finished (phase c) = true ->
  run calculateBackoffMillis evs (c, w) = Some (c', w') ->
  phase c' = phase c /\
  appThrottleMetadata w' = appThrottleMetadata w /\
  nanThrottleMetadata w' = nanThrottleMetadata w /\
  requests w' = requests w.
Proof.
  induction evs as [|ev evs IH]; intros c w c' w' Hfin Hrun;
    cbn [run] in Hrun.
  - injection Hrun as <- <-. auto.
  - destruct (step calculateBackoffMillis ev (c, w)) as [[c1 w1]|] eqn:Hs;
      [|discriminate].
    destruct (step_finished _ _ _ _ _ Hfin Hs) as (H1 & H2 & H3 & H3').
    destruct (IH c1 w1 c' w' ltac:(rewrite H1; exact Hfin) Hrun)
      as (H4 & H5 & H6 & H6').
    repeat split; congruence.
Qed.

End Settled.

(** ** Samples *)

Lemma sampleBackoff_nonneg n rnd : 0 <= sampleBackoff n rnd.
Proof.
  unfold sampleBackoff.
  pose proof (Z.pow_nonneg 2 n ltac:(lia)).
  pose proof (Z.mod_pos_bound (Z.abs rnd) 500 ltac:(lia)).
  lia.
Qed.

Lemma retry_failures_progress_sample :
  let h :=
    storedAfterFetches sampleBackoff (appKey sampleApp) sampleFailures
      (fetchDynamicConfigWithRetry sampleApp sampleWorld) in
  length h = 3%nat /\
  (forall k, (k < length h)%nat ->
     exists md, h !! k = Some (Some md) /\
       backoffCount md = 0 + Z.of_nat (S k)) /\
  (forall i j mi mj, (i <= j)%nat ->
     h !! i = Some (Some mi) -> h !! j = Some (Some mj) ->
     throttleEndTimeMillis mi <= throttleEndTimeMillis mj).
Proof.
  split; [vm_compute; reflexivity|].
  apply (retry_failures_progress sampleBackoff sampleBackoff_nonneg
           sampleApp sampleWorld
           {| backoffCount := 0; throttleEndTimeMillis := 1000 |}
           sampleFailures).
  - reflexivity.
  - repeat constructor.
Defined.

(** C1.  The retry loop at the app id [constructor].  The object literal
    [appThrottleMetadata] reads, under that name, the function that every
    object inherits, so the call starts from a backoff count and an end
    time that are [undefined].  After each of two retriable failures the
    entry stored has no numbers: the count is not one greater than the
    count before, and there is no end time; each retry is armed for the
    very time of the failure. *)
Theorem retry_failures_at_inherited_name :
  let st := fetchDynamicConfigWithRetry constructorApp sampleWorld in
  Forall (fun ev => retriableFailure ev = true) constructorFailures /\
  initialMetadata constructorApp sampleWorld = NotNumbers /\
  storedAfterFetches sampleBackoff (appKey constructorApp)
    constructorFailures st
  = [None; None] /\
  exists c w,
    run sampleBackoff constructorFailures st = Some (c, w) /\
    phase c = AwaitDelayNaN 2 /\
    lookupMetadata w (appKey constructorApp) = Some NotNumbers /\
    timers c !! 3%nat
    = Some {| t_due := 1300; t_cb := CbResolve 2; t_state := TPending |}.
Proof.
  intros st. split; [repeat constructor|].
  split; [vm_compute; reflexivity|].
  split; [vm_compute; reflexivity|].
  destruct (run sampleBackoff constructorFailures st) as [[c w]|] eqn:Hrun;
    [|vm_compute in Hrun; discriminate Hrun].
  exists c, w. split; [reflexivity|].
  vm_compute in Hrun. injection Hrun as <- <-.
  split; [reflexivity|]. split; vm_compute; reflexivity.
Qed.

(** ** Classification and the outcomes of a settled fetch *)

Section Outcomes.

Variable calculateBackoffMillis : Z -> Z -> Z.

(** C2.  An error is retriable exactly when it is a [FirebaseError] whose
    [httpStatus] is 429, 500, 503 or 504.  When the fetch of a call fails at
    time [t], a retriable error stores the advanced metadata and re-enters
    the loop, which arms and awaits a new delay for it; any other error
    settles the call with that error, and no later event changes that. *)
Theorem fetch_failure_classified e :
  (isRetriableError e = true <->
   exists code data httpStatus,
     e = FirebaseError code data /\
     data !! "httpStatus" = Some httpStatus /\
     (httpStatus = 429 \/ httpStatus = 500 \/
      httpStatus = 503 \/ httpStatus = 504)) /\
  forall c w n reply rnd t,
    phase c = AwaitFetch n ->
    configured (call_app c) = true ->
    now w <= t ->
    fetchDynamicConfig_settle reply = Rejected e ->
    exists c' w',
      step calculateBackoffMillis (FetchSettles reply rnd t) (c, w)
      = Some (c', w') /\
      if isRetriableError e then
        let md :=
          {| backoffCount := n + 1;
             throttleEndTimeMillis := t + calculateBackoffMillis n rnd |} in
        appThrottleMetadata w'
        = <[appKey (call_app c) := md]> (appThrottleMetadata w) /\
        phase c'
        = AwaitDelay (length (promises c)) (throttleEndTimeMillis md)
            (backoffCount md) /\
        promises c' !! length (promises c) = Some PPending /\
        timers c' !! length (timers c)
        = Some {| t_due := t + Z.max (throttleEndTimeMillis md - t) 0;
                  t_cb := CbResolve (length (promises c));
                  t_state := TPending |}
      else
        phase c' = Thrown e /\
        forall evs c'' w'',
          run calculateBackoffMillis evs (c', w') = Some (c'', w'') ->
          phase c'' = Thrown e.
Proof.
  split; [apply isRetriableError_spec|].
  intros c w n reply rnd t Hph Hc Ht Hs.
  destruct (isRetriableError e) eqn:He.
  - eexists _, _. split.
    + apply (step_fetch_retry _ _ _ _ _ _ _ _ Hph Ht Hc Hs He).
    + cbv zeta. simpl. split; [reflexivity|]. split; [reflexivity|].
      split; apply list_lookup_middle; reflexivity.
  - eexists _, _. split.
    + apply (step_fetch_fatal _ _ _ _ _ _ _ _ Hph Ht Hs He).
    + split; [reflexivity|]. intros evs c'' w'' Hrun.
      apply (run_finished calculateBackoffMillis) in Hrun as [H _];
        [exact H|reflexivity].
Qed.

(** After [delete appThrottleMetadata[key]], the key reads what the object
    inherits under it, if anything. *)
Lemma lookupMetadata_deleted key w t' :
  lookupMetadata (set_now t' (delete_metadata key w)) key
  = if inherited key then Some NotNumbers else None.
Proof.
  unfold lookupMetadata, delete_metadata. simpl.
  rewrite lookup_delete_eq.
  rewrite (bool_decide_eq_false_2 (key ∈ nanThrottleMetadata w ∖ {[key]})).
  - reflexivity.
  - intros Hin. apply elem_of_difference in Hin as [_ Hin].
    apply Hin, elem_of_singleton. reflexivity.
Qed.

(** When the fetch of a call succeeds, the call returns the response and the
    entry of its app is deleted from [appThrottleMetadata].  When the app id
    is not the name of a member that the object inherits, a top-level call
    for the app made on the resulting state, at whatever time [t'], then
    starts from backoff count 0 and end time [t']. *)
Lemma fetch_success_clears_metadata c w (n : Z) reply rnd t response :
  phase c = AwaitFetch n ->
  configured (call_app c) = true ->
  now w <= t ->
  fetchDynamicConfig_settle reply = Fulfilled response ->
  exists c' w',
    step calculateBackoffMillis (FetchSettles reply rnd t) (c, w)
    = Some (c', w') /\
    phase c' = Returned response /\
    appThrottleMetadata w'
    = delete (appKey (call_app c)) (appThrottleMetadata w) /\
    appThrottleMetadata w' !! appKey (call_app c) = None /\
    (appKey (call_app c) ∉ nanThrottleMetadata w') /\
    (inherited (appKey (call_app c)) = false ->
     forall t',
       initialMetadata (call_app c) (set_now t' w')
       = Numbers {| backoffCount := 0; throttleEndTimeMillis := t' |} /\
       exists p,
         phase (fetchDynamicConfigWithRetry (call_app c) (set_now t' w')).1
         = AwaitDelay p t' 0).
Proof.
  intros Hph Hc Ht Hs. eexists _, _. split.
  - apply (step_fetch_success _ _ _ _ _ _ _ _ Hph Ht Hs).
  - split; [reflexivity|]. split; [reflexivity|].
    split; [apply lookup_delete_eq|].
    split.
    { simpl. intros Hin. apply elem_of_difference in Hin as [_ Hin].
      apply Hin, elem_of_singleton. reflexivity. }
    intros Hkey t'.
    assert (Hmd : initialMetadata (call_app c)
                    (set_now t'
                       (delete_metadata (appKey (call_app c)) (set_now t w)))
                  = Numbers {| backoffCount := 0;
                               throttleEndTimeMillis := t' |}).
    { unfold initialMetadata. rewrite lookupMetadata_deleted, Hkey.
      reflexivity. }
    split; [exact Hmd|].
    unfold initialMetadata in Hmd.
    unfold fetchDynamicConfigWithRetry.
    rewrite (configured_guard _ Hc). cbv zeta. unfold setTimeout.
    rewrite Hmd. rewrite attempt_configured by exact Hc.
    simpl. eauto.
Qed.

(** C4.  When the fetch of a call fails with an error that is not retriable
    (status 400 is such an error), the entry of its app is deleted, the call
    is settled with that very error at the time of the failure, and no
    timer, promise or listener has been created. *)
Theorem fetch_fatal_failure_rethrows c w n reply rnd t e :
  phase c = AwaitFetch n ->
  now w <= t ->
  fetchDynamicConfig_settle reply = Rejected e ->
  isRetriableError e = false ->
  isRetriableError (httpError 400) = false /\
  exists c' w',
    step calculateBackoffMillis (FetchSettles reply rnd t) (c, w)
    = Some (c', w') /\
    phase c' = Thrown e /\
    appThrottleMetadata w'
    = delete (appKey (call_app c)) (appThrottleMetadata w) /\
    now w' = t /\
    timers c' = timers c /\
    promises c' = promises c /\
    signal c' = signal c /\
    requests w' = requests w.
Proof.
  intros Hph Ht Hs He. split; [reflexivity|]. eexists _, _. split.
  - apply (step_fetch_fatal _ _ _ _ _ _ _ _ Hph Ht Hs He).
  - simpl. repeat split; reflexivity.
Qed.

End Outcomes.

Lemma fetch_failure_classified_witness :
  exists c' w',
    step sampleBackoff (FetchSettles (NetRejects (httpError 503)) 7 1200)
      sampleAttempting = Some (c', w') /\
    phase c' = AwaitDelay 1 2207 1 /\
    appThrottleMetadata w' !! "abcdefgh12345:23405"
    = Some {| backoffCount := 1; throttleEndTimeMillis := 2207 |}.
Proof.
  destruct (proj2 (fetch_failure_classified sampleBackoff (httpError 503))
              sampleAttempting.1 sampleAttempting.2 0
              (NetRejects (httpError 503)) 7 1200
              eq_refl eq_refl ltac:(vm_compute; discriminate) eq_refl)
    as (c' & w' & Hstep & Hcase).
  exists c', w'. split; [exact Hstep|].
  change (isRetriableError (httpError 503)) with true in Hcase.
  destruct Hcase as (Hmd & Hph & _). split.
  - rewrite Hph. reflexivity.
  - rewrite Hmd. reflexivity.
Defined.

Lemma fetch_success_clears_metadata_sample :
  exists c w c' w',
    run sampleBackoff [TimerFires 1 5000]
      (fetchDynamicConfigWithRetry sampleApp sampleStoredWorld)
    = Some (c, w) /\
    appThrottleMetadata w !! "abcdefgh12345:23405"
    = Some {| backoffCount := 2; throttleEndTimeMillis := 5000 |} /\
    step sampleBackoff
      (FetchSettles
         (NetResponds
            {| status := 200;
               json := Fulfilled {[ "measurementId" := JStr "abcd-efgh-ijkl" ]}
            |}) 0 5200)
      (c, w) = Some (c', w') /\
    appThrottleMetadata w' !! "abcdefgh12345:23405" = None /\
    phase (fetchDynamicConfigWithRetry sampleApp (set_now 6000 w')).1
    = AwaitDelay 0 6000 0.
Proof.
  do 4 eexists. split; [vm_compute; reflexivity|].
  split; [vm_compute; reflexivity|].
  split; [vm_compute; reflexivity|].
  split; vm_compute; reflexivity.
Defined.

(** C3.  A successful fetch at the app id [constructor].  The entry of
    the app is deleted, but a later top-level call for the app does not
    start from the fresh default: under that name the object reads the
    function that every object inherits, and the call starts from a
    backoff count and an end time that are [undefined]. *)
Theorem fetch_success_at_inherited_name :
  exists c w c' w',
    run sampleBackoff [TimerFires 1 1000]
      (fetchDynamicConfigWithRetry constructorApp sampleWorld)
    = Some (c, w) /\
    step sampleBackoff
      (FetchSettles
         (NetResponds
            {| status := 200;
               json := Fulfilled {[ "measurementId" := JStr "abcd-efgh-ijkl" ]}
            |}) 0 1200)
      (c, w) = Some (c', w') /\
    phase c' = Returned {[ "measurementId" := JStr "abcd-efgh-ijkl" ]} /\
    appThrottleMetadata w' !! appKey constructorApp = None /\
    (appKey constructorApp ∉ nanThrottleMetadata w') /\
    initialMetadata constructorApp (set_now 6000 w') = NotNumbers /\
    initialMetadata constructorApp (set_now 6000 w')
    <> Numbers {| backoffCount := 0; throttleEndTimeMillis := 6000 |} /\
    phase (fetchDynamicConfigWithRetry constructorApp (set_now 6000 w')).1
    = AwaitDelayNaN 0.
Proof.
  do 4 eexists. split; [vm_compute; reflexivity|].
  split; [vm_compute; reflexivity|].
  split; [vm_compute; reflexivity|].
  split; [vm_compute; reflexivity|].
  split; [apply (proj1 (bool_decide_eq_false _)); vm_compute; reflexivity|].
  split; [vm_compute; reflexivity|].
  split; [vm_compute; discriminate|].
  vm_compute. reflexivity.
Qed.

Lemma fetch_fatal_failure_rethrows_witness :
  exists c' w',
    step sampleBackoff (FetchSettles (NetRejects (httpError 400)) 0 1200)
      sampleAttempting = Some (c', w') /\
    phase c' = Thrown (httpError 400) /\
    timers c' = timers sampleAttempting.1.
Proof.
  destruct (fetch_fatal_failure_rethrows sampleBackoff
              sampleAttempting.1 sampleAttempting.2 0
              (NetRejects (httpError 400)) 0 1200 (httpError 400)
              eq_refl ltac:(vm_compute; discriminate) eq_refl eq_refl)
    as (_ & c' & w' & Hstep & Hph & _ & _ & Htm & _).
  exists c', w'. split; [exact Hstep|]. split; [exact Hph|exact Htm].
Defined.

(** ** [setAbortableTimeout] *)

Section Delay.

Variable calculateBackoffMillis : Z -> Z -> Z.

Lemma resume_promises c w :
  promises (resume calculateBackoffMillis (c, w)).1 = promises c.
Proof.
  destruct (resume_cases calculateBackoffMillis c w)
    as [H|[(e & w2 & H)|[(p & e & n & req & _ & _ & _ & H)
                        |(p & req & _ & _ & _ & H)]]];
    rewrite H; reflexivity.
Qed.

Lemma resume_timers c w :
  timers (resume calculateBackoffMillis (c, w)).1 = timers c.
Proof.
  destruct (resume_cases calculateBackoffMillis c w)
    as [H|[(e & w2 & H)|[(p & e & n & req & _ & _ & _ & H)
                        |(p & req & _ & _ & _ & H)]]];
    rewrite H; reflexivity.
Qed.

(** In that range the timers of the model are the platform's. *)
Lemma timerDelay_platform d :
  0 <= d <= 2147483647 ->
  platformTimerDelay (Finite d) = timerDelay (Finite d).
Proof.
  intros Hd. unfold platformTimerDelay, timerDelay, toInt32.
  rewrite Z.mod_small by lia. lia.
Qed.

(** C5, for an end time at most [2^31 - 1] milliseconds ahead, which is
    as far as the platform's timers keep a delay: the delay that
    [setAbortableTimeout] computes for an end time [2^31] milliseconds
    ahead is read by the platform as no delay at all.
    [setAbortableTimeout(signal, e)] called at time [t] leaves a pending
    promise and a pending timer due at [t + max(e - t, 0)], a delay that
    the platform keeps.  The timer cannot fire earlier; when it fires the
    promise is resolved.  If the signal aborts while the timer is pending,
    the timer is cleared, so that it never fires, and the promise is
    rejected with the [FirebaseError] of code [FETCH_THROTTLE] whose
    [throttleEndTimeMillis] is [e].  If the signal aborts once the promise
    is resolved, the promise stays resolved, the timer stays as it is and
    the caller is where it was. *)
Theorem setAbortableTimeout_contract c (e : Z) t :
  (forall l, l ∈ listeners (signal c) ->
     (l_promise l < length (promises c))%nat) ->
  e - t <= 2147483647 ->
  let c1 := (setAbortableTimeout e t c).1 in
  let p := (setAbortableTimeout e t c).2 in
  let id := length (timers c) in
  let due := t + Z.max (e - t) 0 in
  (promises c1 !! p = Some PPending /\
   timers c1 !! id
   = Some {| t_due := due; t_cb := CbResolve p; t_state := TPending |} /\
   platformTimerDelay (Math_max (number_sub e t) 0) = Z.max (e - t) 0 /\
   platformTimerDelay (Math_max (number_sub (t + 2147483648) t) 0) = 0) /\
  (forall w t' st',
     step calculateBackoffMillis (TimerFires id t') (c1, w) = Some st' ->
     due <= t') /\
  (forall w t', now w <= t' -> due <= t' ->
     exists c2 w2,
       step calculateBackoffMillis (TimerFires id t') (c1, w)
       = Some (c2, w2) /\
       promises c2 !! p = Some PResolved) /\
  (promises (abort c1) !! p
   = Some (PRejected
             (FirebaseError (AnalyticsCode FETCH_THROTTLE)
                {[ "throttleEndTimeMillis" := e ]})) /\
   timers (abort c1) !! id
   = Some {| t_due := due; t_cb := CbResolve p; t_state := TCleared |} /\
   forall w t',
     step calculateBackoffMillis (TimerFires id t') (abort c1, w) = None) /\
  (forall c3 tm,
     promises c3 !! p = Some PResolved ->
     timers c3 !! id = Some tm -> t_state tm = TFired ->
     promises (abort c3) !! p = Some PResolved /\
     timers (abort c3) !! id = Some tm /\
     phase (abort c3) = phase c3).
Proof.
  intros Hrefs Hrange c1 p id due.
  assert (Hp : promises c1 !! p = Some PPending).
  { apply list_lookup_middle. reflexivity. }
  assert (Hid : timers c1 !! id
                = Some {| t_due := due; t_cb := CbResolve p;
                          t_state := TPending |}).
  { apply list_lookup_middle. reflexivity. }
  split; [|split; [|split; [|split]]].
  - split; [exact Hp|]. split; [exact Hid|]. split.
    + change (Math_max (number_sub e t) 0) with (Finite (Z.max (e - t) 0)).
      rewrite timerDelay_platform by lia. reflexivity.
    + change (Math_max (number_sub (t + 2147483648) t) 0)
        with (Finite (Z.max (t + 2147483648 - t) 0)).
      replace (t + 2147483648 - t) with 2147483648 by lia. reflexivity.
  - intros w t' st' Hstep.
    destruct (step_timer_inv _ _ _ _ _ _ Hstep) as (tm & Htm & _ & Hdue & _).
    rewrite Hid in Htm. injection Htm as <-. exact Hdue.
  - intros w t' Hnow Hdue.
    eexists _, _. split.
    + rewrite (step_timer_enabled _ id t' c1 w _ Hid eq_refl Hdue Hnow).
      f_equal. apply surjective_pairing.
    + rewrite resume_promises. simpl.
      rewrite list_lookup_alter_eq.
      change (promises c ++ [PPending]) with (promises c1). rewrite Hp.
      reflexivity.
  - assert (Hrej : promises (abort c1) !! p
                   = Some (PRejected (fetchThrottleError e))).
    { unfold abort. apply foldl_listener_rejects; [exact Hp| |].
      - eexists. split; [apply elem_of_app; right;
                         apply list_elem_of_singleton; reflexivity|].
        reflexivity.
      - intros l Hin Hl. apply elem_of_app in Hin as [Hin|Hin].
        + specialize (Hrefs l Hin). subst p. simpl in Hl. lia.
        + apply list_elem_of_singleton in Hin. subst l. reflexivity. }
    assert (Hclr : timers (abort c1) !! id
                   = Some {| t_due := due; t_cb := CbResolve p;
                             t_state := TCleared |}).
    { unfold abort.
      destruct (foldl_listener_clears (listeners (signal c1)) c1 id _ Hid
                  eq_refl) as (tm' & H1 & H2 & H3 & H4).
      - eexists. split; [apply elem_of_app; right;
                         apply list_elem_of_singleton; reflexivity|].
        reflexivity.
      - rewrite H1. destruct tm' as [d cb s]. simpl in H2, H3, H4.
        subst d cb s. reflexivity. }
    split; [exact Hrej|]. split; [exact Hclr|].
    intros w t'. unfold step. cbv beta iota. rewrite Hclr. reflexivity.
  - intros c3 tm Hp3 Hid3 Hst. split; [|split].
    + unfold abort. apply foldl_listener_settled; [exact Hp3|discriminate].
    + unfold abort.
      destruct (foldl_listener_timer (listeners (signal c3)) c3 id tm Hid3)
        as (tm' & H1 & H2 & H3 & H4).
      rewrite H1. destruct tm as [d cb s], tm' as [d' cb' s'].
      simpl in *. subst. destruct H4 as [->|[H4 _]]; [reflexivity|].
      discriminate.
    + apply evolves_abort.
Qed.

End Delay.

Lemma setAbortableTimeout_contract_witness :
  let c := (fetchDynamicConfigWithRetry sampleApp sampleWorld).1 in
  promises (setAbortableTimeout 5000 1200 c).1 !! 1%nat = Some PPending /\
  promises (abort (setAbortableTimeout 5000 1200 c).1) !! 1%nat
  = Some (PRejected
            (FirebaseError (AnalyticsCode FETCH_THROTTLE)
               {[ "throttleEndTimeMillis" := 5000 ]})).
Proof.
  destruct (setAbortableTimeout_contract sampleBackoff
              (fetchDynamicConfigWithRetry sampleApp sampleWorld).1 5000 1200)
    as ((Hp & _ & _ & _) & _ & _ & (Hrej & _) & _).
  - intros l Hin. apply list_elem_of_singleton in Hin. subst l.
    vm_compute. lia.
  - lia.
  - split; [exact Hp|exact Hrej].
Defined.

(** ** The watchdog *)

Lemma filter_watchdog_none (l : list Timer) :
  (forall i tm, l !! i = Some tm -> t_cb tm <> CbAbort) ->
  filter (fun tm => isWatchdog tm = true) l = [].
Proof.
  induction l as [|x l IH]; intros H; [reflexivity|].
  rewrite filter_cons_False.
  - apply IH. intros i tm Hi. apply (H (S i) tm Hi).
  - unfold isWatchdog. intros Hw. apply bool_decide_eq_true in Hw.
    exact (H 0%nat x eq_refl Hw).
Qed.

Lemma watchdog_first_filter due c :
  watchdog_first due c ->
  exists tm, watchdogs c = [tm] /\ t_cb tm = CbAbort /\ t_due tm = due.
Proof.
  intros [(tm & H0 & Hcb & Hdue) Hrest]. unfold watchdogs.
  destruct (timers c) as [|tm0 rest]; [discriminate|].
  simpl in H0. injection H0 as ->.
  exists tm. split; [|split; assumption].
  rewrite filter_cons_True
    by (unfold isWatchdog; apply bool_decide_eq_true_2; exact Hcb).
  f_equal. apply filter_watchdog_none. exact Hrest.
Qed.

Lemma watchdog_first_evolves due c c2 :
  evolves c c2 -> watchdog_first due c -> watchdog_first due c2.
Proof.
  intros Hev [(tm & H0 & Hcb & Hdue) Hrest]. split.
  - destruct (lookup_lt_is_Some_2 (timers c2) 0) as [tm2 H2].
    { rewrite (ev_timers _ _ Hev). apply lookup_lt_Some in H0. exact H0. }
    destruct (ev_timer _ _ Hev 0%nat tm2 H2) as (tm' & H3 & H4 & H5).
    exists tm2. split; [exact H2|]. split; congruence.
  - intros id tm2 H2.
    destruct (ev_timer _ _ Hev (S id) tm2 H2) as (tm' & H3 & _ & H5).
    rewrite H5. apply (Hrest id tm' H3).
Qed.

Lemma watchdog_first_phase due ph c :
  watchdog_first due c -> watchdog_first due (set_phase ph c).
Proof. intros H. exact H. Qed.

Lemma watchdog_first_attempt due (md : Metadata) c w :
  watchdog_first due c ->
  watchdog_first due (attemptFetchDynamicConfigWithRetry md (c, w)).1.
Proof.
  intros [(tm & H0 & Hcb & Hdue) Hrest].
  destruct (configured (call_app c)) eqn:Hc.
  - destruct (attempt_shape md c w Hc) as (e & ph & -> & _).
    simpl. split; simpl.
    + exists tm. split; [|split; assumption].
      rewrite lookup_app_l; [exact H0|]. apply lookup_lt_Some in H0. exact H0.
    + intros id tm' Hid.
      apply lookup_app_Some in Hid as [Hid|[_ Hid]].
      * apply (Hrest id tm' Hid).
      * apply list_lookup_singleton_Some in Hid as [_ <-]. discriminate.
  - rewrite (attempt_unconfigured _ _ _ Hc). simpl. split; eauto.
Qed.

Section Watchdog.

Variable calculateBackoffMillis : Z -> Z -> Z.

Lemma watchdog_first_step due ev c w c' w' :
  watchdog_first due c ->
  step calculateBackoffMillis ev (c, w) = Some (c', w') ->
  watchdog_first due c'.
Proof.
  intros Hw Hstep.
  destruct ev as [id t|reply rnd t]; unfold step in Hstep;
    cbv beta iota in Hstep.
  - destruct (timers c !! id) as [tm|]; [|discriminate].
    destruct (_ && _); [|discriminate].
    apply (inj Some) in Hstep.
    pose proof (watchdog_first_evolves due _ _
                  (evolves_callback c id (t_cb tm)) Hw) as Hw2.
    destruct (resume_cases calculateBackoffMillis
                (run_callback (t_cb tm)
                   (set_timers (alter fire_timer id (timers c)) c))
                (set_now t w))
      as [H|[(e & w2 & H)|[(p & e & n & req & _ & _ & _ & H)
                          |(p & req & _ & _ & _ & H)]]];
      rewrite Hstep in H; injection H as -> _; exact Hw2.
  - destruct (step_fetch_after _ _ _ _ _ _ _ Hstep) as (n & _ & _ & Heq).
    destruct (after_fetch_cases calculateBackoffMillis
                (fetchDynamicConfig_settle reply) rnd n c (set_now t w))
      as [(r & _ & H)|[(e & _ & _ & H)|(e & md & w1 & _ & _ & H & _)]];
      rewrite <- Heq in H.
    + injection H as -> _. exact Hw.
    + injection H as -> _. exact Hw.
    + pose proof (watchdog_first_attempt due md c w1 Hw) as Hw1.
      rewrite <- H in Hw1. exact Hw1.
Qed.

Lemma watchdog_first_run due evs : forall c w c' w',
  watchdog_first due c ->
  run calculateBackoffMillis evs (c, w) = Some (c', w') ->
  watchdog_first due c'.
Proof.
  induction evs as [|ev evs IH]; intros c w c' w' Hw Hrun;
    cbn [run] in Hrun.
  - injection Hrun as <- _. exact Hw.
  - destruct (step calculateBackoffMillis ev (c, w)) as [[c1 w1]|] eqn:Hs;
      [|discriminate].
    apply (IH c1 w1 c' w'); [|exact Hrun].
    exact (watchdog_first_step due ev c w c1 w1 Hw Hs).
Qed.

Lemma watchdog_first_initial app w :
  configured app = true ->
  watchdog_first (now w + FETCH_TIMEOUT_MILLIS)
    (fetchDynamicConfigWithRetry app w).1.
Proof.
  intros Hc. unfold fetchDynamicConfigWithRetry.
  rewrite (configured_guard _ Hc). cbv zeta. unfold setTimeout.
  apply watchdog_first_attempt. split; simpl.
  - eexists. split; [reflexivity|]. split; reflexivity.
  - intros id tm Hid. discriminate.
Qed.

(** The watchdog fires while the call awaits a delay. *)
Lemma watchdog_fires_in_delay c w id tm t p (e n : Z) :
  call_inv c -> phase c = AwaitDelay p e n ->
  timers c !! id = Some tm -> t_cb tm = CbAbort -> t_state tm = TPending ->
  t_due tm <= t -> now w <= t ->
  step calculateBackoffMillis (TimerFires id t) (c, w)
  = Some (set_phase (Thrown (fetchThrottleError e))
            (abort (set_timers (alter fire_timer id (timers c)) c)),
          set_now t w).
Proof.
  intros Hinv Hph Hid Hcb Hst Hdue Hnow.
  rewrite (step_timer_enabled _ id t c w tm Hid Hst Hdue Hnow).
  rewrite Hcb. simpl run_callback. f_equal. unfold resume.
  destruct (evolves_abort (set_timers (alter fire_timer id (timers c)) c))
    as [_ E2 _ _ _ _].
  simpl in E2. rewrite E2, Hph.
  rewrite (abort_rejects_delay c
             (set_timers (alter fire_timer id (timers c)) c) p e n
             Hinv Hph eq_refl eq_refl).
  reflexivity.
Qed.

Lemma watchdog_fires_in_delay_nan c w id tm t p :
  call_inv c -> phase c = AwaitDelayNaN p ->
  timers c !! id = Some tm -> t_cb tm = CbAbort -> t_state tm = TPending ->
  t_due tm <= t -> now w <= t ->
  step calculateBackoffMillis (TimerFires id t) (c, w)
  = Some (set_phase (Thrown (fetchThrottleError NaN))
            (abort (set_timers (alter fire_timer id (timers c)) c)),
          set_now t w).
Proof.
  intros Hinv Hph Hid Hcb Hst Hdue Hnow.
  rewrite (step_timer_enabled _ id t c w tm Hid Hst Hdue Hnow).
  rewrite Hcb. simpl run_callback. f_equal. unfold resume.
  destruct (evolves_abort (set_timers (alter fire_timer id (timers c)) c))
    as [_ E2 _ _ _ _].
  simpl in E2. rewrite E2, Hph.
  rewrite (abort_rejects_delay_nan c
             (set_timers (alter fire_timer id (timers c)) c) p
             Hinv Hph eq_refl eq_refl).
  reflexivity.
Qed.

(** C6, amended.  A top-level call whose app has an API key and an app id
    arms one watchdog, due 60 seconds after the call, and in every state
    the call reaches that timer is its only watchdog.  When the watchdog
    fires while the call awaits a delay, the call is settled with the
    [FirebaseError] of code [FETCH_THROTTLE] whose [throttleEndTimeMillis]
    is the end time of that delay (and which has no such number when the
    end time is not a number), the stored metadata and the requests issued
    are as before, and no later event of the call changes any of the
    three. *)
Theorem watchdog_cancels_pending_delay app w0 :
  configured app = true ->
  watchdogs (fetchDynamicConfigWithRetry app w0).1
  = [{| t_due := now w0 + 60000; t_cb := CbAbort; t_state := TPending |}] /\
  forall c w,
    reachable calculateBackoffMillis app w0 (c, w) ->
    (exists tm, watchdogs c = [tm] /\ t_due tm = now w0 + 60000) /\
    forall id tm t err,
      timers c !! id = Some tm -> t_cb tm = CbAbort ->
      t_state tm = TPending -> t_due tm <= t -> now w <= t ->
      (exists p e n,
          phase c = AwaitDelay p e n /\
          err = FirebaseError (AnalyticsCode FETCH_THROTTLE)
                  {[ "throttleEndTimeMillis" := e ]}) \/
      (exists p,
          phase c = AwaitDelayNaN p /\
          err = FirebaseError (AnalyticsCode FETCH_THROTTLE) ∅) ->
      exists c' w',
        step calculateBackoffMillis (TimerFires id t) (c, w)
        = Some (c', w') /\
        phase c' = Thrown err /\
        appThrottleMetadata w' = appThrottleMetadata w /\
        nanThrottleMetadata w' = nanThrottleMetadata w /\
        requests w' = requests w /\
        forall evs c'' w'',
          run calculateBackoffMillis evs (c', w') = Some (c'', w'') ->
          phase c'' = Thrown err /\
          appThrottleMetadata w'' = appThrottleMetadata w /\
          nanThrottleMetadata w'' = nanThrottleMetadata w /\
          requests w'' = requests w.
Proof.
  intros Hc. split.
  - unfold fetchDynamicConfigWithRetry, watchdogs.
    rewrite (configured_guard _ Hc). cbv zeta. unfold setTimeout.
    match goal with
    | |- context [attemptFetchDynamicConfigWithRetry ?md (?c, ?w)] =>
        destruct (attempt_shape md c w Hc) as (e & ph & -> & _)
    end.
    reflexivity.
  - intros c w Hreach.
    pose proof (reachable_inv _ _ _ _ Hreach) as Hinv. simpl in Hinv.
    destruct Hreach as [evs0 Hrun0].
    destruct (fetchDynamicConfigWithRetry app w0) as [c0 w1] eqn:H0.
    pose proof (watchdog_first_initial app w0 Hc) as Hw0.
    rewrite H0 in Hw0. simpl in Hw0.
    pose proof (watchdog_first_run _ evs0 c0 w1 c w Hw0 Hrun0) as Hw.
    split.
    + destruct (watchdog_first_filter _ _ Hw) as (tm & H1 & _ & H2).
      exists tm. split; [exact H1|]. rewrite H2. reflexivity.
    + intros id tm t err Hid Hcb Hst Hdue Hnow Hph.
      assert (Hstep : step calculateBackoffMillis (TimerFires id t) (c, w)
                      = Some (set_phase (Thrown err)
                                (abort (set_timers
                                          (alter fire_timer id (timers c)) c)),
                              set_now t w)).
      { destruct Hph as [(p & e & n & Hph & ->)|(p & Hph & ->)].
        - apply (watchdog_fires_in_delay c w id tm t p e n); assumption.
        - apply (watchdog_fires_in_delay_nan c w id tm t p); assumption. }
      eexists _, _. split; [exact Hstep|].
      split; [reflexivity|]. split; [reflexivity|]. split; [reflexivity|].
      split; [reflexivity|].
      intros evs c'' w'' Hrun.
      apply (run_finished calculateBackoffMillis) in Hrun
        as (H1 & H2 & H3 & H4); [|reflexivity].
      split; [exact H1|]. split; [exact H2|]. split; assumption.
Qed.

End Watchdog.

(** C6 as stated fails for a call whose app has no API key: the guard
    throws before any timer is set, so no watchdog is armed. *)
Lemma watchdog_not_armed_without_api_key :
  let st :=
    fetchDynamicConfigWithRetry
      {| apiKey := None; appId := Some "abcdefgh12345:23405" |}
      sampleWorld in
  phase st.1 = Thrown (PlainError "no api key") /\
  timers st.1 = [] /\
  length (watchdogs st.1) <> 1%nat.
Proof. split; [reflexivity|]. split; [reflexivity|]. discriminate. Qed.

Lemma watchdog_cancels_pending_delay_witness :
  let st := fetchDynamicConfigWithRetry sampleApp sampleThrottledWorld in
  phase st.1 = AwaitDelay 0 200000 7 /\
  exists c' w',
    step sampleBackoff (TimerFires 0 61000) st = Some (c', w') /\
    phase c'
    = Thrown (FirebaseError (AnalyticsCode FETCH_THROTTLE)
                {[ "throttleEndTimeMillis" := 200000 ]}) /\
    appThrottleMetadata w' = appThrottleMetadata sampleThrottledWorld /\
    requests w' = [].
Proof.
  intros st. split; [reflexivity|].
  destruct (proj2 (watchdog_cancels_pending_delay sampleBackoff
                     sampleApp sampleThrottledWorld eq_refl)
              st.1 st.2 (ex_intro _ [] eq_refl)) as [_ H].
  destruct (H 0%nat
              {| t_due := 61000; t_cb := CbAbort; t_state := TPending |}
              61000
              (FirebaseError (AnalyticsCode FETCH_THROTTLE)
                 {[ "throttleEndTimeMillis" := 200000 ]})
              eq_refl eq_refl eq_refl
              ltac:(vm_compute; discriminate) ltac:(vm_compute; discriminate)
              (or_introl
                 (ex_intro _ 0%nat
                    (ex_intro _ 200000
                       (ex_intro _ 7 (conj eq_refl eq_refl))))))
    as (c' & w' & Hstep & Hph & Hmd & _ & Hreq & _).
  exists c', w'. split; [exact Hstep|]. split; [exact Hph|].
  split; [exact Hmd|exact Hreq].
Defined.

(** ** [initializeGAId] *)

Lemma config_object fid :
  <["update" := JBool true]>
    (<[ORIGIN_KEY := JStr "firebase"]> (<[GA_FID_KEY := JStr fid]> ∅))
  = ({[ "firebase_id" := JStr fid;
        "origin" := JStr "firebase";
        "update" := JBool true ]} : JsObject).
Proof.
  apply map_eq. intros k. unfold ORIGIN_KEY, GA_FID_KEY.
  destruct (decide (k = "update")) as [->|H1];
    [rewrite lookup_insert_eq; reflexivity|].
  destruct (decide (k = "origin")) as [->|H2];
    [reflexivity|].
  destruct (decide (k = "firebase_id")) as [->|H3];
    [reflexivity|].
  rewrite !lookup_insert_ne by congruence.
  rewrite lookup_empty, lookup_singleton_ne by congruence. reflexivity.
Qed.

(** C8.  With API key [AAbbCCdd12345], app id [abcdefgh12345:23405],
    installation id [fid-1234-zyxw] and an endpoint that answers 200 with
    the body whose [measurementId] is [abcd-efgh-ijkl], [initializeGAId]
    calls the core gtag function with [config], the measurement id and the
    object of [firebase_id], [origin] and [update], provided the preceding
    [js] call of that function returns. *)
Theorem initializeGAId_scenario (gtagCore : Gtag) fidFirst t st :
  gtagCore [AVal (JStr "js"); ADate t] = None ->
  let app :=
    {| apiKey := Some "AAbbCCdd12345";
       appId := Some "abcdefgh12345:23405" |} in
  let r :=
    initializeGAId sampleNet (Fulfilled "fid-1234-zyxw") fidFirst t
      gtagCore app st in
  gtagCalls r.1
  = gtagCalls st
    ++ [[AVal (JStr "js"); ADate t];
        configCall "abcd-efgh-ijkl" "fid-1234-zyxw"] /\
  configCall "abcd-efgh-ijkl" "fid-1234-zyxw" ∈ gtagCalls r.1 /\
  fetchCalls r.1
  = fetchCalls st
    ++ [sampleRequest].
Proof.
  intros Hjs app r.
  assert (Hcalls : gtagCalls r.1
                   = gtagCalls st
                     ++ [[AVal (JStr "js"); ADate t];
                         configCall "abcd-efgh-ijkl" "fid-1234-zyxw"]).
  { subst r app. unfold initializeGAId.
    change (fetchDynamicConfig sampleNet _)
      with ([sampleRequest],
            Fulfilled
              ({[ "measurementId" := JStr "abcd-efgh-ijkl" ]} : JsObject)).
    cbv beta iota zeta. unfold promiseAll2. cbv beta iota.
    rewrite Hjs. unfold configCall.
    change (getProp {[ "measurementId" := JStr "abcd-efgh-ijkl" ]}
              "measurementId") with (JStr "abcd-efgh-ijkl").
    rewrite config_object.
    destruct (gtagCore [AVal (JStr GtagCommand.CONFIG); _; _]); reflexivity. }
  split; [exact Hcalls|]. split.
  - rewrite Hcalls. apply elem_of_app. right.
    apply elem_of_cons. right. apply elem_of_cons. left. reflexivity.
  - subst r app. unfold initializeGAId.
    change (fetchDynamicConfig sampleNet _)
      with ([sampleRequest],
            Fulfilled
              ({[ "measurementId" := JStr "abcd-efgh-ijkl" ]} : JsObject)).
    cbv beta iota zeta. unfold promiseAll2. cbv beta iota.
    rewrite Hjs.
    destruct (gtagCore [AVal (JStr GtagCommand.CONFIG); _; _]); reflexivity.
Qed.

Lemma initializeGAId_scenario_witness :
  configCall "abcd-efgh-ijkl" "fid-1234-zyxw"
  ∈ gtagCalls
      (initializeGAId sampleNet (Fulfilled "fid-1234-zyxw") false 1000
         (fun _ => None) sampleApp emptyGaState).1.
Proof.
  exact (proj1 (proj2 (initializeGAId_scenario (fun _ => None) false 1000
                         emptyGaState eq_refl))).
Defined.

(** ** [logEvent] *)

(** C9.  When [options] is given and its [global] is [true], [logEvent]
    calls gtag before it returns, with [event], the event name and the
    event parameters as given (an empty object when there are none, and
    no [send_to] added), and attaches nothing to the dynamic-config
    promise.  In every other case it does nothing before it returns and
    does not throw; once the promise is fulfilled gtag is called once,
    with the parameters extended by [send_to] set to the [measurementId]
    property of the config ([undefined] when the config has none); when
    the promise is rejected gtag is not called and the error is logged. *)
Theorem logEvent_dispatch (gtagFunction : Gtag) eventName eventParams options :
  let r := logEvent gtagFunction eventName eventParams options in
  match options with
  | Some {| global := Some true |} =>
      sync r
      = [GtagCalled [AVal (JStr "event"); AVal (JStr eventName);
                     AObj (default ∅ eventParams)]] /\
      thrown r
      = gtagFunction [AVal (JStr "event"); AVal (JStr eventName);
                      AObj (default ∅ eventParams)] /\
      onSettled r = None
  | _ =>
      sync r = [] /\ thrown r = None /\
      exists handlers,
        onSettled r = Some handlers /\
        (forall config,
           let args :=
             [AVal (JStr "event"); AVal (JStr eventName);
              AObj (<["send_to" :=
                        match config !! "measurementId" with
                        | Some measurementId => measurementId
                        | None => JUndefined
                        end]>
                      (default ∅ eventParams))] in
           gtagCallsOf (handlers (Fulfilled config)) = [args] /\
           errorsLoggedIn (handlers (Fulfilled config))
           = match gtagFunction args with
             | Some e => [e]
             | None => []
             end) /\
        (forall e, handlers (Rejected e) = [ErrorLogged e])
  end.
Proof.
  intros r. subst r. unfold logEvent.
  destruct options as [[[[|]|]]|]; simpl; [auto|..];
    (split; [reflexivity|]; split; [reflexivity|];
     eexists; split; [reflexivity|]; split; [|reflexivity];
     intros config; unfold getProp;
     destruct (config !! "measurementId"); simpl;
     destruct (gtagFunction _); split; reflexivity).
Qed.

(** ** [CollectionReference.doc] *)



(** * Further properties of the retry loop *)

(** ** Aborting twice *)

Lemma alter_fixed {A} (f : A -> A) (l : list A) i :
  (forall x, l !! i = Some x -> f x = x) -> alter f i l = l.
Proof.
  intros H. apply list_eq. intros j.
  destruct (decide (i = j)) as [->|Hne].
  - rewrite list_lookup_alter_eq. destruct (l !! j) as [x|] eqn:Hj;
      [|reflexivity].
    simpl. rewrite (H x eq_refl). reflexivity.
  - apply list_lookup_alter_ne. exact Hne.
Qed.

(** A listener whose timer and promise are no longer pending does
    nothing. *)
Lemma run_listener_spent c l :
  promises c !! l_promise l <> Some PPending ->
  (forall tm, timers c !! l_timeout l = Some tm -> t_state tm <> TPending) ->
  run_listener c l = c.
Proof.
  intros Hp Ht. unfold run_listener, reject, clearTimeout.
  destruct c as [a ts ps sg ph]. unfold set_promises, set_timers. simpl in *.
  f_equal.
  - apply alter_fixed. intros tm Htm. unfold clear_timer.
    specialize (Ht tm Htm). destruct (t_state tm); congruence.
  - apply alter_fixed. intros s Hs. destruct s; try reflexivity.
    congruence.
Qed.

Lemma foldl_listener_spent ls : forall c,
  (forall l, l ∈ ls -> promises c !! l_promise l <> Some PPending) ->
  (forall l tm, l ∈ ls -> timers c !! l_timeout l = Some tm ->
     t_state tm <> TPending) ->
  foldl run_listener c ls = c.
Proof.
  induction ls as [|l ls IH]; intros c Hp Ht; [reflexivity|].
  simpl. rewrite run_listener_spent.
  - apply IH.
    + intros l' Hl'. apply Hp, elem_of_cons. auto.
    + intros l' tm Hl'. apply Ht, elem_of_cons. auto.
  - apply Hp, elem_of_cons. auto.
  - intros tm. apply Ht, elem_of_cons. auto.
Qed.

Lemma foldl_listener_promise_none ls c p :
  promises c !! p = None ->
  promises (foldl run_listener c ls) !! p = None.
Proof.
  intros H. apply lookup_ge_None. apply lookup_ge_None in H.
  destruct (foldl_listener_frame ls c) as (_ & _ & _ & _ & Hq).
  rewrite Hq. exact H.
Qed.

Lemma foldl_listener_not_pending ls : forall c p,
  promises c !! p <> Some PPending ->
  promises (foldl run_listener c ls) !! p <> Some PPending.
Proof.
  intros c p H. destruct (promises c !! p) as [s|] eqn:Hp.
  - rewrite (foldl_listener_settled ls c p s Hp); congruence.
  - rewrite (foldl_listener_promise_none ls c p Hp). discriminate.
Qed.

Lemma foldl_listener_promises_done ls : forall c l,
  l ∈ ls ->
  promises (foldl run_listener c ls) !! l_promise l <> Some PPending.
Proof.
  induction ls as [|l0 ls IH]; intros c l Hin; [inversion Hin|].
  simpl. apply elem_of_cons in Hin as [->|Hin]; [|apply IH; exact Hin].
  apply foldl_listener_not_pending. rewrite run_listener_promises.
  rewrite list_lookup_alter_eq.
  change (promises (clearTimeout (l_timeout l0) c)) with (promises c).
  destruct (promises c !! l_promise l0) as [[| |]|]; simpl; discriminate.
Qed.

Lemma foldl_listener_timers_done ls : forall c l tm,
  l ∈ ls ->
  timers (foldl run_listener c ls) !! l_timeout l = Some tm ->
  t_state tm <> TPending.
Proof.
  induction ls as [|l0 ls IH]; intros c l tm Hin Htm; [inversion Hin|].
  simpl in Htm. apply elem_of_cons in Hin as [->|Hin];
    [|apply (IH _ l tm Hin Htm)].
  destruct (timers (run_listener c l0) !! l_timeout l0) as [tm0|] eqn:H0.
  - destruct (foldl_listener_timer ls _ _ tm0 H0) as (tm' & H1 & _ & _ & H2).
    rewrite H1 in Htm. injection Htm as <-.
    rewrite run_listener_timers, list_lookup_alter_eq in H0.
    destruct (timers c !! l_timeout l0) as [tmc|]; [|discriminate].
    simpl in H0. injection H0 as <-.
    unfold clear_timer in H2. destruct H2 as [H2|[H2 H3]].
    + rewrite H2. destruct (t_state tmc) eqn:E; simpl; rewrite ?E;
        discriminate.
    + rewrite H3. discriminate.
  - rewrite (foldl_listener_timer_none ls _ _ H0) in Htm. discriminate.
Qed.

(** X1.  A second [abort()] runs every listener again and changes
    nothing: timers already cleared or fired stay as they are, and settled
    promises keep their settlement. *)
Theorem abort_twice c : abort (abort c) = abort c.
Proof.
  unfold abort at 1.
  destruct (foldl_listener_frame (listeners (signal c)) c)
    as (_ & _ & Hs & _ & _).
  fold (abort c) in Hs. rewrite Hs.
  apply foldl_listener_spent.
  - intros l Hl. apply foldl_listener_promises_done. exact Hl.
  - intros l tm Hl. apply foldl_listener_timers_done. exact Hl.
Qed.

(** ** What one event does to the shared state *)

Lemma attempt_world (md : Metadata) c w :
  (attemptFetchDynamicConfigWithRetry md (c, w)).2 = w.
Proof.
  unfold attemptFetchDynamicConfigWithRetry.
  destruct (falsy _ || falsy _); [reflexivity|].
  destruct md; reflexivity.
Qed.

Lemma attempt_timers_old (md : Metadata) c w i tm :
  timers c !! i = Some tm ->
  timers (attemptFetchDynamicConfigWithRetry md (c, w)).1 !! i = Some tm.
Proof.
  intros Hi. unfold attemptFetchDynamicConfigWithRetry.
  destruct (falsy _ || falsy _); simpl; [exact Hi|].
  destruct md; simpl;
    (rewrite lookup_app_l; [exact Hi|]; apply lookup_lt_Some in Hi; exact Hi).
Qed.

Lemma foldl_listener_timer_settled ls c id tm :
  timers c !! id = Some tm -> t_state tm <> TPending ->
  timers (foldl run_listener c ls) !! id = Some tm.
Proof.
  intros Hid Hst.
  destruct (foldl_listener_timer ls c id tm Hid) as (tm' & H1 & H2 & H3 & H4).
  rewrite H1. destruct tm as [d cb s], tm' as [d' cb' s']. simpl in *.
  subst. destruct H4 as [->|[H4 _]]; [reflexivity|contradiction].
Qed.

Lemma foldl_listener_timer_other ls : forall c id,
  (forall l, l ∈ ls -> l_timeout l <> id) ->
  timers (foldl run_listener c ls) !! id = timers c !! id.
Proof.
  induction ls as [|l ls IH]; intros c id H; [reflexivity|].
  simpl. rewrite IH by (intros l' Hl'; apply H, elem_of_cons; auto).
  rewrite run_listener_timers. apply list_lookup_alter_ne.
  apply H, elem_of_cons. auto.
Qed.

Section Effects.

Variable calculateBackoffMillis : Z -> Z -> Z.

Lemma resume_detail c w :
  resume calculateBackoffMillis (c, w) = (c, w) \/
  (exists e, inFlight (phase c) = 0%nat /\
             resume calculateBackoffMillis (c, w)
             = (set_phase (Thrown e) c, w)) \/
  (exists e, inFlight (phase c) = 0%nat /\
             resume calculateBackoffMillis (c, w)
             = (set_phase (Thrown e) c,
                delete_metadata (appKey (call_app c)) w)) \/
  (exists p e n req,
      phase c = AwaitDelay p e n /\
      promises c !! p = Some PResolved /\
      fetchDynamicConfig_request (call_app c) = inr req /\
      resume calculateBackoffMillis (c, w)
      = (set_phase (AwaitFetch n) c, add_request req w)) \/
  (exists p req,
      phase c = AwaitDelayNaN p /\
      promises c !! p = Some PResolved /\
      fetchDynamicConfig_request (call_app c) = inr req /\
      resume calculateBackoffMillis (c, w)
      = (set_phase AwaitFetchNaN c, add_request req w)).
Proof.
  unfold resume. destruct (phase c) as [|p e n|n|r|err|p|] eqn:Hph; auto.
  - destruct (promises c !! p) as [[| |err]|] eqn:Hp; auto.
    + destruct (fetchDynamicConfig_request (call_app c)) as [err|req] eqn:Hr.
      * right. right. left.
        rewrite after_fetch_fatal by exact (request_error _ _ Hr). eauto.
      * right. right. right. left. exists p, e, n, req. auto.
    + right. left. eauto.
  - destruct (promises c !! p) as [[| |err]|] eqn:Hp; auto.
    + destruct (fetchDynamicConfig_request (call_app c)) as [err|req] eqn:Hr.
      * right. right. left.
        rewrite after_fetch_fatal by exact (request_error _ _ Hr). eauto.
      * right. right. right. right. exists p, req. auto.
    + right. left. eauto.
Qed.

Lemma after_fetch_world result rnd (n : JsNumber) c w :
  let w' := (after_fetch calculateBackoffMillis result rnd n (c, w)).2 in
  now w' = now w /\ requests w' = requests w /\
  forall key, key <> appKey (call_app c) ->
    appThrottleMetadata w' !! key = appThrottleMetadata w !! key.
Proof.
  destruct (after_fetch_cases calculateBackoffMillis result rnd n c w)
    as [(r & _ & ->)|[(e & _ & _ & ->)
       |(e & md & w1 & _ & _ & -> & H1 & H2 & H3)]]; cbv zeta.
  - simpl. split; [reflexivity|]. split; [reflexivity|].
    intros key Hk. apply lookup_delete_ne. congruence.
  - simpl. split; [reflexivity|]. split; [reflexivity|].
    intros key Hk. apply lookup_delete_ne. congruence.
  - rewrite attempt_world. auto.
Qed.

(** One event: the clock does not go back, only the entry of the call's
    own app can change, and a request is added only when a delay resolves,
    not before its end time. *)
Lemma step_effects ev c w c' w' :
  call_inv c ->
  step calculateBackoffMillis ev (c, w) = Some (c', w') ->
  now w <= now w' /\
  (forall key, key <> appKey (call_app c) ->
     appThrottleMetadata w' !! key = appThrottleMetadata w !! key) /\
  (requests w' = requests w \/
   (exists p e n req,
     phase c = AwaitDelay p e n /\ phase c' = AwaitFetch n /\
     e <= now w' /\
     fetchDynamicConfig_request (call_app c) = inr req /\
     requests w' = requests w ++ [req]) \/
   (exists p req,
     phase c = AwaitDelayNaN p /\ phase c' = AwaitFetchNaN /\
     fetchDynamicConfig_request (call_app c) = inr req /\
     requests w' = requests w ++ [req])).
Proof.
  intros Hinv Hstep. destruct ev as [id t|reply rnd t].
  - destruct (step_timer_inv _ _ _ _ _ _ Hstep)
      as (tm & Hid & Hst & Hdue & Hnow).
    rewrite (step_timer_enabled _ id t c w tm Hid Hst Hdue Hnow) in Hstep.
    apply (inj Some) in Hstep.
    pose proof (evolves_callback c id (t_cb tm)) as Hev.
    set (c2 := run_callback (t_cb tm)
                 (set_timers (alter fire_timer id (timers c)) c)) in *.
    destruct (resume_detail c2 (set_now t w))
      as [H|[(e & _ & H)|[(e & _ & H)
            |[(p & e & n & req & Hph & Hp & Hreq & H)
             |(p & req & Hph & Hp & Hreq & H)]]]];
      rewrite Hstep in H; injection H as -> ->; simpl.
    + split; [exact Hnow|]. split; auto.
    + split; [exact Hnow|]. split; auto.
    + split; [exact Hnow|]. split; [|auto].
      intros key Hk. rewrite (ev_app _ _ Hev). apply lookup_delete_ne.
      congruence.
    + split; [exact Hnow|]. split; [auto|]. right. left.
      rewrite (ev_phase _ _ Hev) in Hph. rewrite (ev_app _ _ Hev) in Hreq.
      exists p, e, n, req. repeat split; try assumption.
      pose proof (callback_resolves c id (t_cb tm) p e n Hinv Hph Hp) as Hcb.
      destruct (inv_delay c Hinv p e n Hph) as (_ & _ & _ & Hd).
      specialize (Hd id tm Hid Hcb). lia.
    + split; [exact Hnow|]. split; [auto|]. right. right.
      rewrite (ev_phase _ _ Hev) in Hph. rewrite (ev_app _ _ Hev) in Hreq.
      exists p, req. repeat split; assumption.
  - destruct (step_fetch_after _ _ _ _ _ _ _ Hstep) as (n & Ht & _ & Hst).
    destruct (after_fetch_world (fetchDynamicConfig_settle reply) rnd n c
                (set_now t w)) as (H1 & H2 & H3).
    rewrite <- Hst in H1, H2, H3. simpl in H1, H2, H3.
    split; [lia|]. split; [exact H3|]. left. exact H2.
Qed.

End Effects.

(** ** Requests and stored metadata over whole runs *)

Section Runs.

Variable calculateBackoffMillis : Z -> Z -> Z.

Lemma run_app evs : forall c w c' w',
  run calculateBackoffMillis evs (c, w) = Some (c', w') ->
  call_app c' = call_app c.
Proof.
  induction evs as [|ev evs IH]; intros c w c' w' Hrun; cbn [run] in Hrun.
  - injection Hrun as <- _. reflexivity.
  - destruct (step calculateBackoffMillis ev (c, w)) as [[c1 w1]|] eqn:Hs;
      [|discriminate].
    rewrite (IH c1 w1 c' w' Hrun). exact (step_app _ _ _ _ _ _ Hs).
Qed.

Lemma resume_in_flight c w n :
  phase c = AwaitFetch n -> resume calculateBackoffMillis (c, w) = (c, w).
Proof. intros H. unfold resume. rewrite H. reflexivity. Qed.

Lemma attempt_not_in_flight (md : Metadata) c w :
  inFlight (phase (attemptFetchDynamicConfigWithRetry md (c, w)).1) = 0%nat.
Proof.
  unfold attemptFetchDynamicConfigWithRetry.
  destruct (falsy _ || falsy _); [reflexivity|].
  destruct md; reflexivity.
Qed.

Lemma after_fetch_not_in_flight result rnd (n : JsNumber) c w :
  inFlight (phase (after_fetch calculateBackoffMillis result rnd n (c, w)).1)
  = 0%nat.
Proof.
  destruct (after_fetch_cases calculateBackoffMillis result rnd n c w)
    as [(r & _ & ->)|[(e & _ & _ & ->)|(e & md & w1 & _ & _ & -> & _)]];
    [reflexivity|reflexivity|apply attempt_not_in_flight].
Qed.

(** One event: the requests added are requests of the call's app, and
    they balance the change of the number in flight. *)
Lemma step_balance ev c w c' w' :
  call_inv c ->
  step calculateBackoffMillis ev (c, w) = Some (c', w') ->
  exists added,
    requests w' = requests w ++ added /\
    Forall (fun r => fetchDynamicConfig_request (call_app c) = inr r) added /\
    (length added + inFlight (phase c)
     = settledFetches [ev] + inFlight (phase c'))%nat.
Proof.
  intros Hinv Hstep. destruct ev as [id t|reply rnd t].
  - destruct (step_timer_inv _ _ _ _ _ _ Hstep)
      as (tm & Hid & Hst & Hdue & Hnow).
    rewrite (step_timer_enabled _ id t c w tm Hid Hst Hdue Hnow) in Hstep.
    apply (inj Some) in Hstep.
    pose proof (evolves_callback c id (t_cb tm)) as Hev.
    pose proof (ev_phase _ _ Hev) as Hph0.
    pose proof (ev_app _ _ Hev) as Happ0.
    set (c2 := run_callback (t_cb tm)
                 (set_timers (alter fire_timer id (timers c)) c)) in *.
    destruct (resume_detail calculateBackoffMillis c2 (set_now t w))
      as [H|[(e & Hfl & H)|[(e & Hfl & H)
            |[(p & e & n & req & Hph & _ & Hreq & H)
             |(p & req & Hph & _ & Hreq & H)]]]];
      rewrite Hstep in H; injection H as -> ->; simpl.
    + exists []. rewrite app_nil_r. split; [reflexivity|].
      split; [constructor|]. rewrite Hph0. reflexivity.
    + exists []. rewrite app_nil_r. split; [reflexivity|].
      split; [constructor|]. rewrite <- Hph0, Hfl. reflexivity.
    + exists []. rewrite app_nil_r. split; [reflexivity|].
      split; [constructor|]. rewrite <- Hph0, Hfl. reflexivity.
    + exists [req]. split; [reflexivity|].
      split; [constructor; [rewrite <- Happ0; exact Hreq|constructor]|].
      rewrite <- Hph0, Hph. reflexivity.
    + exists [req]. split; [reflexivity|].
      split; [constructor; [rewrite <- Happ0; exact Hreq|constructor]|].
      rewrite <- Hph0, Hph. reflexivity.
  - destruct (step_fetch_after _ _ _ _ _ _ _ Hstep) as (n & Ht & Hph & Hst).
    destruct (after_fetch_world calculateBackoffMillis
                (fetchDynamicConfig_settle reply) rnd n c
                (set_now t w)) as (_ & H2 & _).
    pose proof (after_fetch_not_in_flight (fetchDynamicConfig_settle reply)
                  rnd n c (set_now t w)) as H0.
    rewrite <- Hst in H2, H0. simpl in H2, H0.
    exists []. rewrite app_nil_r. split; [exact H2|].
    split; [constructor|]. rewrite H0, Hph. destruct n; reflexivity.
Qed.

Lemma run_balance evs : forall c w c' w',
  call_inv c ->
  run calculateBackoffMillis evs (c, w) = Some (c', w') ->
  exists added,
    requests w' = requests w ++ added /\
    Forall (fun r => fetchDynamicConfig_request (call_app c) = inr r) added /\
    (length added + inFlight (phase c)
     = settledFetches evs + inFlight (phase c'))%nat.
Proof.
  induction evs as [|ev evs IH]; intros c w c' w' Hinv Hrun;
    cbn [run] in Hrun.
  - injection Hrun as <- <-. exists []. rewrite app_nil_r.
    split; [reflexivity|]. split; [constructor|reflexivity].
  - destruct (step calculateBackoffMillis ev (c, w)) as [[c1 w1]|] eqn:Hs;
      [|discriminate].
    destruct (step_balance _ _ _ _ _ Hinv Hs) as (a1 & H1 & H2 & H3).
    destruct (IH c1 w1 c' w' (step_inv _ _ _ _ _ _ Hinv Hs) Hrun)
      as (a2 & H4 & H5 & H6).
    rewrite (step_app _ _ _ _ _ _ Hs) in H5.
    exists (a1 ++ a2). split; [rewrite H4, H1, app_assoc; reflexivity|].
    split; [apply Forall_app; auto|].
    rewrite length_app. simpl in H3.
    destruct ev as [id t|reply rnd t]; simpl; simpl in H3; lia.
Qed.

Lemma run_frame evs : forall c w c' w' key,
  call_inv c ->
  run calculateBackoffMillis evs (c, w) = Some (c', w') ->
  key <> appKey (call_app c) ->
  appThrottleMetadata w' !! key = appThrottleMetadata w !! key.
Proof.
  induction evs as [|ev evs IH]; intros c w c' w' key Hinv Hrun Hk;
    cbn [run] in Hrun.
  - injection Hrun as <- <-. reflexivity.
  - destruct (step calculateBackoffMillis ev (c, w)) as [[c1 w1]|] eqn:Hs;
      [|discriminate].
    destruct (step_effects _ _ _ _ _ _ Hinv Hs) as (_ & Hf & _).
    rewrite (IH c1 w1 c' w' key (step_inv _ _ _ _ _ _ Hinv Hs) Hrun).
    + apply Hf. exact Hk.
    + rewrite (step_app _ _ _ _ _ _ Hs). exact Hk.
Qed.

(** The call has issued no request yet and awaits a delay that ends no
    earlier than [L], or the clock has reached [L]. *)
Lemma run_window evs : forall c w c' w' L reqs,
  call_inv c ->
  run calculateBackoffMillis evs (c, w) = Some (c', w') ->
  (L <= now w \/
   (requests w = reqs /\
    match phase c with
    | AwaitDelay _ e _ => L <= e
    | AwaitFetch _ | AwaitDelayNaN _ | AwaitFetchNaN => False
    | _ => True
    end)) ->
  L <= now w' \/ requests w' = reqs.
Proof.
  induction evs as [|ev evs IH]; intros c w c' w' L reqs Hinv Hrun Hst;
    cbn [run] in Hrun.
  - injection Hrun as <- <-. destruct Hst as [H|[H _]]; auto.
  - destruct (step calculateBackoffMillis ev (c, w)) as [[c1 w1]|] eqn:Hs;
      [|discriminate].
    apply (IH c1 w1 c' w' L reqs (step_inv _ _ _ _ _ _ Hinv Hs) Hrun).
    destruct (step_effects _ _ _ _ _ _ Hinv Hs) as (Hnow & _ & Hreq).
    destruct Hst as [H|[Hr Hph]]; [left; lia|].
    destruct Hreq as [Hsame|[(p & e & n & req & Hp & _ & He & _)
                            |(p & req & Hp & _)]].
    + destruct ev as [id t|reply rnd t].
      * right. split; [congruence|].
        destruct (step_timer_inv _ _ _ _ _ _ Hs)
          as (tm & Hid & Hst & Hdue & Hnw).
        rewrite (step_timer_enabled _ id t c w tm Hid Hst Hdue Hnw) in Hs.
        apply (inj Some) in Hs.
        pose proof (ev_phase _ _ (evolves_callback c id (t_cb tm))) as Hev.
        destruct (resume_detail calculateBackoffMillis
                    (run_callback (t_cb tm)
                       (set_timers (alter fire_timer id (timers c)) c))
                    (set_now t w))
          as [H|[(e' & _ & H)|[(e' & _ & H)
                |[(p' & e' & n' & req & _ & _ & _ & H)
                 |(p' & req & _ & _ & _ & H)]]]];
          rewrite Hs in H; injection H as -> Hw; simpl; rewrite ?Hev;
          try exact Hph; try exact I;
          exfalso; rewrite Hw in Hsame; simpl in Hsame;
          apply (f_equal length) in Hsame; rewrite length_app in Hsame;
          simpl in Hsame; lia.
      * destruct (step_fetch_inv _ _ _ _ _ _ _ Hs) as (_ & [[n Hp]|Hp]);
          rewrite Hp in Hph; contradiction.
    + left. rewrite Hp in Hph. lia.
    + rewrite Hp in Hph. contradiction.
Qed.

(** X2.  In a state the call can reach, an event adds a request only by
    resolving the delay the call awaits: the request is the one of the
    call's app and, when the delay was armed with numbers, the clock has
    then reached the end time of that delay and the fetch is for the
    backoff count the delay was armed with.  A delay armed with metadata
    that holds no numbers has no end time to reach. *)
Theorem request_waits_for_throttle_end app w0 c w ev c' w' :
  reachable calculateBackoffMillis app w0 (c, w) ->
  step calculateBackoffMillis ev (c, w) = Some (c', w') ->
  requests w' <> requests w ->
  (exists p e n req,
    phase c = AwaitDelay p e n /\ phase c' = AwaitFetch n /\
    e <= now w' /\
    fetchDynamicConfig_request app = inr req /\
    requests w' = requests w ++ [req]) \/
  (exists p req,
    phase c = AwaitDelayNaN p /\ phase c' = AwaitFetchNaN /\
    fetchDynamicConfig_request app = inr req /\
    requests w' = requests w ++ [req]).
Proof.
  intros Hreach Hstep Hne.
  pose proof (reachable_inv _ _ _ _ Hreach) as Hinv. simpl in Hinv.
  destruct Hreach as [evs Hrun].
  destruct (fetchDynamicConfigWithRetry app w0) as [c0 w1] eqn:H0.
  pose proof (run_app _ _ _ _ _ Hrun) as Happ.
  pose proof (fetchDynamicConfigWithRetry_app app w0) as Happ0.
  rewrite H0 in Happ0. simpl in Happ0.
  destruct (step_effects _ _ _ _ _ _ Hinv Hstep) as (_ & _ & Hreq).
  destruct Hreq as [Hsame|[(p & e & n & req & H1 & H2 & H3 & H4 & H5)
                          |(p & req & H1 & H2 & H4 & H5)]];
    [contradiction| |]; rewrite Happ, Happ0 in H4; [left|right].
  - exists p, e, n, req. auto.
  - exists p, req. auto.
Qed.

(** X3.  A run of a call leaves the stored metadata of every other app as
    it was. *)
Theorem other_apps_metadata_untouched app w0 evs c w key :
  run calculateBackoffMillis evs (fetchDynamicConfigWithRetry app w0)
  = Some (c, w) ->
  key <> appKey app ->
  appThrottleMetadata w !! key = appThrottleMetadata w0 !! key.
Proof.
  intros Hrun Hk.
  pose proof (fetchDynamicConfigWithRetry_inv app w0) as Hinv.
  pose proof (fetchDynamicConfigWithRetry_app app w0) as Happ.
  assert (Hw : (fetchDynamicConfigWithRetry app w0).2 = w0).
  { unfold fetchDynamicConfigWithRetry.
    destruct (falsy _ || falsy _); [reflexivity|].
    cbv zeta. unfold setTimeout. apply attempt_world. }
  destruct (fetchDynamicConfigWithRetry app w0) as [c0 w1].
  simpl in *. subst w1.
  apply (run_frame evs c0 w0 c w key Hinv Hrun). rewrite Happ. exact Hk.
Qed.

(** X4.  A call started while throttle metadata is stored for its app
    issues no request before the stored end time: in every state it
    reaches, either no request has been added or the clock has reached that
    end time. *)
Theorem stored_throttle_window_honoured app w0 md evs c w :
  appThrottleMetadata w0 !! appKey app = Some md ->
  run calculateBackoffMillis evs (fetchDynamicConfigWithRetry app w0)
  = Some (c, w) ->
  throttleEndTimeMillis md <= now w \/ requests w = requests w0.
Proof.
  intros Hmd Hrun.
  pose proof (fetchDynamicConfigWithRetry_inv app w0) as Hinv.
  assert (Hmd0 : initialMetadata app w0 = Numbers md).
  { unfold initialMetadata, lookupMetadata. rewrite Hmd. reflexivity. }
  pose proof (fetchDynamicConfigWithRetry_tracks app w0 md Hmd0) as Htr.
  assert (Hw : (fetchDynamicConfigWithRetry app w0).2 = w0).
  { unfold fetchDynamicConfigWithRetry.
    destruct (falsy _ || falsy _); [reflexivity|].
    cbv zeta. unfold setTimeout. apply attempt_world. }
  assert (Hph : inFlight (phase (fetchDynamicConfigWithRetry app w0).1)
                = 0%nat).
  { unfold fetchDynamicConfigWithRetry.
    destruct (falsy (apiKey app) || falsy (appId app)) eqn:Hg;
      [reflexivity|].
    cbv zeta. unfold setTimeout. apply attempt_not_in_flight. }
  destruct (fetchDynamicConfigWithRetry app w0) as [c0 w1].
  simpl in *. subst w1.
  apply (run_window evs c0 w0 c w _ _ Hinv Hrun). right.
  split; [reflexivity|]. unfold tracks in Htr. simpl in Htr.
  destruct (phase c0); try exact I; try contradiction;
    [tauto|discriminate].
Qed.

(** X5.  Every request a call adds is the request of its app, and the call
    never has two requests in flight: the number of requests added is the
    number of fetches that have settled, plus one while a fetch is
    pending. *)
Theorem one_request_per_attempt app w0 evs c w :
  run calculateBackoffMillis evs (fetchDynamicConfigWithRetry app w0)
  = Some (c, w) ->
  exists added,
    requests w = requests w0 ++ added /\
    Forall (fun r => fetchDynamicConfig_request app = inr r) added /\
    length added = (settledFetches evs + inFlight (phase c))%nat.
Proof.
  intros Hrun.
  pose proof (fetchDynamicConfigWithRetry_inv app w0) as Hinv.
  pose proof (fetchDynamicConfigWithRetry_app app w0) as Happ.
  assert (Hw : (fetchDynamicConfigWithRetry app w0).2 = w0).
  { unfold fetchDynamicConfigWithRetry.
    destruct (falsy _ || falsy _); [reflexivity|].
    cbv zeta. unfold setTimeout. apply attempt_world. }
  assert (Hph : inFlight (phase (fetchDynamicConfigWithRetry app w0).1)
                = 0%nat).
  { unfold fetchDynamicConfigWithRetry.
    destruct (falsy (apiKey app) || falsy (appId app)) eqn:Hg;
      [reflexivity|].
    cbv zeta. unfold setTimeout. apply attempt_not_in_flight. }
  destruct (fetchDynamicConfigWithRetry app w0) as [c0 w1].
  simpl in *. subst w1.
  destruct (run_balance evs c0 w0 c w Hinv Hrun) as (added & H1 & H2 & H3).
  exists added. rewrite Happ in H2. split; [exact H1|].
  split; [exact H2|]. lia.
Qed.

(** X6.  A top-level call for an app without an API key or without an app
    id leaves the shared state as it is, and no event can ever happen to
    it: it has no timer and no fetch. *)
Theorem unconfigured_call_is_inert app w0 evs c w :
  configured app = false ->
  run calculateBackoffMillis evs (fetchDynamicConfigWithRetry app w0)
  = Some (c, w) ->
  evs = [] /\ w = w0 /\ phase c = Thrown (PlainError "no api key") /\
  timers c = [].
Proof.
  intros Hc Hrun. unfold fetchDynamicConfigWithRetry in Hrun.
  rewrite (unconfigured_guard _ Hc) in Hrun.
  destruct evs as [|ev evs].
  - injection Hrun as <- <-. auto.
  - exfalso. cbn [run] in Hrun.
    destruct ev as [id t|reply rnd t]; simpl in Hrun; discriminate.
Qed.

End Runs.

(** ** The watchdog after it has fired, and after the call has settled *)

Lemma attempt_listeners (md : Metadata) c w l :
  l ∈ listeners (signal (attemptFetchDynamicConfigWithRetry md (c, w)).1) ->
  l ∈ listeners (signal c) \/ l_timeout l = length (timers c).
Proof.
  unfold attemptFetchDynamicConfigWithRetry.
  destruct (falsy _ || falsy _); simpl; [auto|].
  destruct md; simpl; intros H;
    (apply elem_of_app in H as [H|H]; [auto|]);
    apply list_elem_of_singleton in H; subst l; auto.
Qed.

Lemma watchdog_kept_attempt (md : Metadata) c w :
  watchdog_kept c ->
  watchdog_kept (attemptFetchDynamicConfigWithRetry md (c, w)).1.
Proof.
  intros [Hl (tm & H0 & Hst)]. split.
  - intros l Hin. apply attempt_listeners in Hin as [Hin|Hin]; [auto|].
    rewrite Hin. apply lookup_lt_Some in H0. lia.
  - exists tm. split; [apply attempt_timers_old; exact H0|exact Hst].
Qed.

Section Spent.

Variable calculateBackoffMillis : Z -> Z -> Z.

Lemma resume_signal c w :
  signal (resume calculateBackoffMillis (c, w)).1 = signal c.
Proof.
  destruct (resume_cases calculateBackoffMillis c w)
    as [H|[(e & w2 & H)|[(p & e & n & req & _ & _ & _ & H)
                        |(p & req & _ & _ & _ & H)]]];
    rewrite H; reflexivity.
Qed.

Lemma after_fetch_timers_old result rnd (n : JsNumber) c w i tm :
  timers c !! i = Some tm ->
  timers (after_fetch calculateBackoffMillis result rnd n (c, w)).1 !! i
  = Some tm.
Proof.
  intros Hi.
  destruct (after_fetch_cases calculateBackoffMillis result rnd n c w)
    as [(r & _ & ->)|[(e & _ & _ & ->)|(e & md & w1 & _ & _ & -> & _)]];
    [exact Hi|exact Hi|apply attempt_timers_old; exact Hi].
Qed.

(** A timer that has fired or was cleared stays as it is. *)
Lemma step_timer_settled ev c w c' w' i tm :
  timers c !! i = Some tm -> t_state tm <> TPending ->
  step calculateBackoffMillis ev (c, w) = Some (c', w') ->
  timers c' !! i = Some tm.
Proof.
  intros Hi Hst Hstep. destruct ev as [id t|reply rnd t].
  - destruct (step_timer_inv _ _ _ _ _ _ Hstep)
      as (tm0 & Hid & Hst0 & Hdue & Hnow).
    rewrite (step_timer_enabled _ id t c w tm0 Hid Hst0 Hdue Hnow) in Hstep.
    apply (inj Some) in Hstep.
    pose proof (resume_timers calculateBackoffMillis
                  (run_callback (t_cb tm0)
                     (set_timers (alter fire_timer id (timers c)) c))
                  (set_now t w)) as Ht.
    rewrite Hstep in Ht. simpl in Ht. rewrite Ht.
    assert (Hne : id <> i) by (intros ->; congruence).
    destruct (t_cb tm0); simpl.
    + rewrite list_lookup_alter_ne by exact Hne. exact Hi.
    + unfold abort. apply foldl_listener_timer_settled; [|exact Hst].
      simpl. rewrite list_lookup_alter_ne by exact Hne. exact Hi.
  - destruct (step_fetch_after _ _ _ _ _ _ _ Hstep) as (n & _ & _ & Hst').
    pose proof (after_fetch_timers_old (fetchDynamicConfig_settle reply) rnd
                  n c (set_now t w) i tm Hi) as H.
    rewrite <- Hst' in H. exact H.
Qed.

Lemma run_timer_settled evs : forall c w c' w' i tm,
  timers c !! i = Some tm -> t_state tm <> TPending ->
  run calculateBackoffMillis evs (c, w) = Some (c', w') ->
  timers c' !! i = Some tm.
Proof.
  induction evs as [|ev evs IH]; intros c w c' w' i tm Hi Hst Hrun;
    cbn [run] in Hrun.
  - injection Hrun as <- _. exact Hi.
  - destruct (step calculateBackoffMillis ev (c, w)) as [[c1 w1]|] eqn:Hs;
      [|discriminate].
    apply (IH c1 w1 c' w' i tm); [|exact Hst|exact Hrun].
    exact (step_timer_settled _ _ _ _ _ _ _ Hi Hst Hs).
Qed.

Lemma watchdog_kept_step ev c w c' w' :
  watchdog_kept c ->
  step calculateBackoffMillis ev (c, w) = Some (c', w') ->
  watchdog_kept c'.
Proof.
  intros [Hl (tm & H0 & Hst)] Hstep. destruct ev as [id t|reply rnd t].
  - destruct (step_timer_inv _ _ _ _ _ _ Hstep)
      as (tm0 & Hid & Hst0 & Hdue & Hnow).
    rewrite (step_timer_enabled _ id t c w tm0 Hid Hst0 Hdue Hnow) in Hstep.
    apply (inj Some) in Hstep.
    set (c1 := set_timers (alter fire_timer id (timers c)) c) in *.
    set (c2 := run_callback (t_cb tm0) c1) in *.
    pose proof (resume_timers calculateBackoffMillis c2 (set_now t w)) as Ht.
    pose proof (resume_signal c2 (set_now t w)) as Hs.
    rewrite Hstep in Ht, Hs. simpl in Ht, Hs.
    pose proof (ev_signal _ _ (evolves_callback c id (t_cb tm0))) as Hsig.
    fold c1 in Hsig. fold c2 in Hsig.
    assert (H1 : exists tm1, timers c1 !! 0%nat = Some tm1 /\
                             t_state tm1 <> TCleared).
    { unfold c1. simpl. destruct (decide (id = 0%nat)) as [->|Hne].
      - rewrite list_lookup_alter_eq, H0. simpl. eexists.
        split; [reflexivity|simpl; discriminate].
      - rewrite list_lookup_alter_ne by exact Hne. eauto. }
    split.
    + rewrite Hs, Hsig. exact Hl.
    + rewrite Ht. unfold c2. destruct (t_cb tm0); simpl; [exact H1|].
      unfold abort. rewrite foldl_listener_timer_other; [exact H1|].
      exact Hl.
  - destruct (step_fetch_after _ _ _ _ _ _ _ Hstep) as (n & _ & _ & Hst').
    assert (Hk : watchdog_kept c) by (split; eauto).
    destruct (after_fetch_cases calculateBackoffMillis
                (fetchDynamicConfig_settle reply) rnd n c (set_now t w))
      as [(r & _ & H)|[(e & _ & _ & H)|(e & md & w1 & _ & _ & H & _)]];
      rewrite H in Hst'.
    + injection Hst' as -> _. exact Hk.
    + injection Hst' as -> _. exact Hk.
    + pose proof (watchdog_kept_attempt md c w1 Hk) as H1.
      rewrite <- Hst' in H1. exact H1.
Qed.

Lemma watchdog_kept_run evs : forall c w c' w',
  watchdog_kept c ->
  run calculateBackoffMillis evs (c, w) = Some (c', w') ->
  watchdog_kept c'.
Proof.
  induction evs as [|ev evs IH]; intros c w c' w' Hk Hrun;
    cbn [run] in Hrun.
  - injection Hrun as <- _. exact Hk.
  - destruct (step calculateBackoffMillis ev (c, w)) as [[c1 w1]|] eqn:Hs;
      [|discriminate].
    apply (IH c1 w1 c' w'); [|exact Hrun].
    exact (watchdog_kept_step _ _ _ _ _ Hk Hs).
Qed.

Lemma watchdog_kept_initial app w :
  configured app = true ->
  watchdog_kept (fetchDynamicConfigWithRetry app w).1.
Proof.
  intros Hc. unfold fetchDynamicConfigWithRetry.
  rewrite (configured_guard _ Hc). cbv zeta. unfold setTimeout.
  apply watchdog_kept_attempt. split; simpl.
  - intros l Hin. inversion Hin.
  - eexists. split; [reflexivity|]. simpl. discriminate.
Qed.

(** X7.  The watchdog of a configured call is never cancelled: in every
    state the call reaches, also after it has returned or thrown, the
    timer is there, due 60 seconds after the call, and pending or fired.
    When it fires after the call has settled, only the clock changes. *)
Theorem watchdog_is_never_cleared app w0 evs c w :
  configured app = true ->
  run calculateBackoffMillis evs (fetchDynamicConfigWithRetry app w0)
  = Some (c, w) ->
  exists tm,
    timers c !! 0%nat = Some tm /\ t_cb tm = CbAbort /\
    t_due tm = now w0 + 60000 /\ t_state tm <> TCleared /\
    forall t,
      finished (phase c) = true -> t_state tm = TPending ->
      t_due tm <= t -> now w <= t ->
      exists c',
        step calculateBackoffMillis (TimerFires 0 t) (c, w)
        = Some (c', set_now t w) /\
        phase c' = phase c.
Proof.
  intros Hc Hrun.
  pose proof (watchdog_first_initial app w0 Hc) as Hw0.
  pose proof (watchdog_kept_initial app w0 Hc) as Hk0.
  destruct (fetchDynamicConfigWithRetry app w0) as [c0 w1].
  simpl in Hw0, Hk0.
  pose proof (watchdog_first_run _ _ evs c0 w1 c w Hw0 Hrun) as Hw.
  pose proof (watchdog_kept_run evs c0 w1 c w Hk0 Hrun) as Hk.
  destruct Hw as [(tm & H0 & Hcb & Hdue) _].
  destruct Hk as [_ (tm' & H0' & Hst)].
  rewrite H0 in H0'. injection H0' as <-.
  exists tm. split; [exact H0|]. split; [exact Hcb|].
  split; [exact Hdue|]. split; [exact Hst|].
  intros t Hfin Hpend Hd Hn.
  rewrite (step_timer_enabled _ 0%nat t c w tm H0 Hpend Hd Hn).
  pose proof (ev_phase _ _ (evolves_callback c 0%nat (t_cb tm))) as Hev.
  rewrite resume_finished by (rewrite Hev; exact Hfin).
  eexists. split; [reflexivity|]. exact Hev.
Qed.

(** X8.  When the watchdog of a configured call fires while a fetch is in
    flight, the call goes on as it was.  From then on no timer can end a
    delay of the call early: an event of a timer leaves an awaited delay
    pending or starts the fetch it was armed for. *)
Theorem watchdog_during_fetch_is_spent app w0 evs c w n tm t :
  configured app = true ->
  run calculateBackoffMillis evs (fetchDynamicConfigWithRetry app w0)
  = Some (c, w) ->
  phase c = AwaitFetch n ->
  timers c !! 0%nat = Some tm -> t_state tm = TPending ->
  t_due tm <= t -> now w <= t ->
  exists c1,
    step calculateBackoffMillis (TimerFires 0 t) (c, w)
    = Some (c1, set_now t w) /\
    phase c1 = AwaitFetch n /\
    forall evs' c2 w2 id t' c3 w3 p e m,
      run calculateBackoffMillis evs' (c1, set_now t w) = Some (c2, w2) ->
      phase c2 = AwaitDelay p e m ->
      step calculateBackoffMillis (TimerFires id t') (c2, w2)
      = Some (c3, w3) ->
      phase c3 = AwaitDelay p e m \/ phase c3 = AwaitFetch m.
Proof.
  intros Hc Hrun Hph H0 Hpend Hd Hn.
  pose proof (watchdog_first_initial app w0 Hc) as Hw0.
  pose proof (fetchDynamicConfigWithRetry_inv app w0) as Hinv0.
  pose proof (fetchDynamicConfigWithRetry_app app w0) as Happ0.
  destruct (fetchDynamicConfigWithRetry app w0) as [c0 w1].
  simpl in Hw0, Hinv0, Happ0.
  pose proof (watchdog_first_run _ _ evs c0 w1 c w Hw0 Hrun) as Hw.
  pose proof (run_inv _ evs (c0, w1) (c, w) Hinv0 Hrun) as Hinv.
  simpl in Hinv.
  pose proof (run_app _ _ _ _ _ _ Hrun) as Happ.
  pose proof (step_timer_enabled calculateBackoffMillis 0%nat t c w tm
                H0 Hpend Hd Hn) as Hstep.
  pose proof (ev_phase _ _ (evolves_callback c 0%nat (t_cb tm))) as Hev.
  rewrite (resume_in_flight _ _ (set_now t w) n) in Hstep
    by (rewrite Hev; exact Hph).
  eexists. split; [exact Hstep|]. split; [rewrite Hev; exact Hph|].
  intros evs' c2 w2 id t' c3 w3 p e m Hrun2 Hph2 Hstep3.
  set (c1 := run_callback (t_cb tm)
               (set_timers (alter fire_timer 0%nat (timers c)) c)) in *.
  pose proof (step_inv _ _ _ _ _ _ Hinv Hstep) as Hinv1.
  pose proof (watchdog_first_step _ _ _ _ _ _ _ Hw Hstep) as Hw1.
  pose proof (run_inv _ evs' (c1, set_now t w) (c2, w2) Hinv1 Hrun2)
    as Hinv2.
  simpl in Hinv2.
  pose proof (watchdog_first_run _ _ evs' c1 _ c2 w2 Hw1 Hrun2) as Hw2.
  assert (Hfired : exists tm1, timers c1 !! 0%nat = Some tm1 /\
                               t_state tm1 <> TPending).
  { destruct Hw as [(tmw & Hw0' & Hcbw & _) _].
    rewrite H0 in Hw0'. injection Hw0' as <-.
    unfold c1. rewrite Hcbw. simpl. unfold abort.
    destruct (foldl_listener_timer
                (listeners
                   (signal (set_timers (alter fire_timer 0%nat (timers c)) c)))
                (set_timers (alter fire_timer 0%nat (timers c)) c) 0%nat
                (fire_timer tm)) as (tm1 & Ht1 & _ & _ & Hs1).
    { simpl. rewrite list_lookup_alter_eq, H0. reflexivity. }
    exists tm1. split; [exact Ht1|].
    simpl in Hs1. destruct Hs1 as [->|[Hs1 _]]; discriminate. }
  destruct Hfired as (tm1 & Ht1 & Hs1).
  pose proof (run_timer_settled evs' c1 _ c2 w2 0%nat tm1 Ht1 Hs1 Hrun2)
    as Ht2.
  destruct (step_timer_inv _ _ _ _ _ _ Hstep3)
    as (tm3 & Hid3 & Hst3 & Hdue3 & Hnow3).
  assert (Hcb3 : exists p', t_cb tm3 = CbResolve p').
  { destruct (t_cb tm3) as [p'|] eqn:Hcb; [eauto|]. exfalso.
    destruct id as [|id].
    - rewrite Ht2 in Hid3. injection Hid3 as <-. contradiction.
    - destruct Hw2 as [_ Hrest]. exact (Hrest id tm3 Hid3 Hcb). }
  destruct Hcb3 as [p' Hcb3].
  rewrite (step_timer_enabled _ id t' c2 w2 tm3 Hid3 Hst3 Hdue3 Hnow3)
    in Hstep3.
  apply (inj Some) in Hstep3. rewrite Hcb3 in Hstep3.
  destruct (inv_delay c2 Hinv2 p e m Hph2) as (Hpend2 & _).
  assert (Hconf : sendable (call_app c2) = true).
  { rewrite (run_app _ _ _ _ _ _ Hrun2).
    rewrite (step_app _ _ _ _ _ _ Hstep).
    exact (inv_fetch c Hinv n Hph). }
  destruct (sendable_request _ Hconf) as [req Hreq].
  unfold resume in Hstep3. simpl in Hstep3. rewrite Hph2 in Hstep3.
  destruct (decide (p' = p)) as [->|Hne].
  - rewrite list_lookup_alter_eq, Hpend2 in Hstep3. simpl in Hstep3.
    rewrite Hreq in Hstep3. injection Hstep3 as <- _. right. reflexivity.
  - rewrite list_lookup_alter_ne, Hpend2 in Hstep3 by exact Hne.
    injection Hstep3 as <- _. left. exact Hph2.
Qed.

End Spent.

(** ** The further properties on the samples *)

Lemma sampleAttempting_run :
  run sampleBackoff [TimerFires 1 1000]
    (fetchDynamicConfigWithRetry sampleApp sampleWorld)
  = Some (sampleAttempting.1, sampleAttempting.2).
Proof. vm_compute. reflexivity. Defined.

Lemma sampleResumed_run :
  run sampleBackoff
    [TimerFires 1 5000; FetchSettles (NetRejects (httpError 503)) 7 5100]
    (fetchDynamicConfigWithRetry sampleApp sampleStoredWorld)
  = Some (sampleResumed.1, sampleResumed.2).
Proof. vm_compute. reflexivity. Defined.

Lemma request_waits_for_throttle_end_witness :
  (exists p e n req,
    phase (fetchDynamicConfigWithRetry sampleApp sampleWorld).1
    = AwaitDelay p e n /\
    phase sampleAttempting.1 = AwaitFetch n /\
    e <= now sampleAttempting.2 /\
    fetchDynamicConfig_request sampleApp = inr req /\
    requests sampleAttempting.2 = requests sampleWorld ++ [req]) \/
  (exists p req,
    phase (fetchDynamicConfigWithRetry sampleApp sampleWorld).1
    = AwaitDelayNaN p /\
    phase sampleAttempting.1 = AwaitFetchNaN /\
    fetchDynamicConfig_request sampleApp = inr req /\
    requests sampleAttempting.2 = requests sampleWorld ++ [req]).
Proof.
  apply (request_waits_for_throttle_end sampleBackoff sampleApp sampleWorld
           (fetchDynamicConfigWithRetry sampleApp sampleWorld).1
           (fetchDynamicConfigWithRetry sampleApp sampleWorld).2
           (TimerFires 1 1000) sampleAttempting.1 sampleAttempting.2).
  - exists []. reflexivity.
  - vm_compute. reflexivity.
  - vm_compute. discriminate.
Defined.

Lemma other_apps_metadata_untouched_witness :
  appThrottleMetadata sampleResumed.2 !! "another-app"
  = Some {| backoffCount := 1; throttleEndTimeMillis := 900 |}.
Proof.
  rewrite (other_apps_metadata_untouched sampleBackoff sampleApp
             sampleStoredWorld _ sampleResumed.1 sampleResumed.2
             "another-app" sampleResumed_run).
  - reflexivity.
  - vm_compute. discriminate.
Defined.

Lemma stored_throttle_window_honoured_witness :
  5000 <= now sampleResumed.2
  \/ requests sampleResumed.2 = requests sampleStoredWorld.
Proof.
  exact (stored_throttle_window_honoured sampleBackoff sampleApp
           sampleStoredWorld
           {| backoffCount := 2; throttleEndTimeMillis := 5000 |}
           _ sampleResumed.1 sampleResumed.2 eq_refl sampleResumed_run).
Defined.

Lemma one_request_per_attempt_witness :
  exists added,
    requests sampleResumed.2 = requests sampleStoredWorld ++ added /\
    Forall (fun r => fetchDynamicConfig_request sampleApp = inr r) added /\
    length added = 1%nat.
Proof.
  exact (one_request_per_attempt sampleBackoff sampleApp sampleStoredWorld
           _ sampleResumed.1 sampleResumed.2 sampleResumed_run).
Defined.

Lemma unconfigured_call_is_inert_witness :
  let st :=
    fetchDynamicConfigWithRetry
      {| apiKey := Some ""; appId := Some "abcdefgh12345:23405" |}
      sampleStoredWorld in
  st.2 = sampleStoredWorld /\ timers st.1 = [].
Proof.
  destruct (unconfigured_call_is_inert sampleBackoff
              {| apiKey := Some ""; appId := Some "abcdefgh12345:23405" |}
              sampleStoredWorld []
              (fetchDynamicConfigWithRetry
                 {| apiKey := Some ""; appId := Some "abcdefgh12345:23405" |}
                 sampleStoredWorld).1
              (fetchDynamicConfigWithRetry
                 {| apiKey := Some ""; appId := Some "abcdefgh12345:23405" |}
                 sampleStoredWorld).2 eq_refl eq_refl)
    as (_ & Hw & _ & Ht).
  split; [exact Hw|exact Ht].
Defined.

Lemma watchdog_is_never_cleared_witness :
  exists tm,
    timers sampleResumed.1 !! 0%nat = Some tm /\
    t_due tm = 61000 /\ t_state tm <> TCleared.
Proof.
  destruct (watchdog_is_never_cleared sampleBackoff sampleApp
              sampleStoredWorld _ sampleResumed.1 sampleResumed.2 eq_refl
              sampleResumed_run) as (tm & H0 & _ & Hdue & Hst & _).
  exists tm. split; [exact H0|]. split; [exact Hdue|exact Hst].
Defined.

Lemma watchdog_during_fetch_is_spent_witness :
  exists c1,
    step sampleBackoff (TimerFires 0 61000) sampleAttempting
    = Some (c1, set_now 61000 sampleAttempting.2) /\
    phase c1 = AwaitFetch 0.
Proof.
  destruct (watchdog_during_fetch_is_spent sampleBackoff sampleApp
              sampleWorld _ sampleAttempting.1 sampleAttempting.2 0
              {| t_due := 61000; t_cb := CbAbort; t_state := TPending |}
              61000 eq_refl sampleAttempting_run eq_refl eq_refl eq_refl
              ltac:(vm_compute; discriminate)
              ltac:(vm_compute; discriminate))
    as (c1 & Hstep & Hph & _).
  exists c1. split; [exact Hstep|exact Hph].
Defined.

(** * Properties of the other dispatch functions *)

(** ** [setUserProperties] and its flattened names *)

Lemma flatten_fold (l : list (string * JsValue)) :
  forall (acc : gmap string ParamValue) k,
    NoDup l.*1 ->
    foldl (fun flatProperties kv =>
             <["user_properties." +:+ kv.1 := PPrim kv.2]> flatProperties)
      acc l !! ("user_properties." +:+ k)
    = match (list_to_map l : JsObject) !! k with
      | Some v => Some (PPrim v)
      | None => acc !! ("user_properties." +:+ k)
      end.
Proof.
  induction l as [|[k0 v0] l IH]; intros acc k Hnd; [reflexivity|].
  apply NoDup_cons in Hnd as [Hk0 Hnd]. simpl.
  rewrite (IH _ k Hnd). destruct (decide (k0 = k)) as [->|Hne].
  - rewrite lookup_insert_eq.
    rewrite (not_elem_of_list_to_map_1 l k Hk0).
    rewrite lookup_insert_eq. reflexivity.
  - rewrite (lookup_insert_ne _ k0 k) by exact Hne.
    destruct (list_to_map l !! k); [reflexivity|].
    apply lookup_insert_ne. intros H. apply Hne.
    apply (inj (String.app "user_properties.")) in H. exact H.
Qed.

Lemma flatten_fold_other (l : list (string * JsValue)) :
  forall (acc : gmap string ParamValue) name,
    (forall k, name <> "user_properties." +:+ k) ->
    foldl (fun flatProperties kv =>
             <["user_properties." +:+ kv.1 := PPrim kv.2]> flatProperties)
      acc l !! name
    = acc !! name.
Proof.
  induction l as [|[k0 v0] l IH]; intros acc name H; [reflexivity|].
  simpl. rewrite (IH _ name H). apply lookup_insert_ne.
  intros Heq. exact (H k0 (eq_sym Heq)).
Qed.

(** X9.  The object that [setUserProperties] builds for a global call has,
    under the name [user_properties.] followed by a key, the value of that
    key, for the keys of the properties and for no others; no other name is
    set. *)
Theorem flattenUserProperties_lookup properties :
  (forall k,
     flattenUserProperties properties !! ("user_properties." +:+ k)
     = PPrim <$> properties !! k) /\
  (forall name,
     (forall k, name <> "user_properties." +:+ k) ->
     flattenUserProperties properties !! name = None).
Proof.
  split.
  - intros k. unfold flattenUserProperties.
    rewrite flatten_fold by apply NoDup_fst_map_to_list.
    rewrite list_to_map_to_list.
    destruct (properties !! k); reflexivity.
  - intros name H. unfold flattenUserProperties.
    rewrite flatten_fold_other by exact H. apply lookup_empty.
Qed.

(** ** Failures of the set functions *)

(** X10.  [setCurrentScreen], [setUserId] and [setUserProperties].  When
    [options] is given and its [global] is [true], each calls gtag before
    it returns, with [set] and an object that holds the screen name under
    [screen_name], the id under [user_id], or the flattened properties; an
    exception of gtag reaches the caller, and nothing is attached to the
    config promise.  In every other case each does nothing before it
    returns and does not throw; once the promise is fulfilled gtag gets
    one [config] call for the [measurementId] property of the config, with
    [update] set to [true] beside the screen name, the id or the
    properties as they are, and an exception of that call is logged; when
    the promise is rejected gtag is not called and the error is logged. *)
Theorem set_functions_dispatch (gtagFunction : SetGtag)
    screenName id properties options :
  let value (s : option string) :=
    match s with
    | Some s => PPrim (JStr s)
    | None => PNull
    end in
  let dispatches (r : SetResult) (setParams configParams : _) :=
    match options with
    | Some {| global := Some true |} =>
        let args := [SVal (JStr "set"); SParams setParams] in
        s_sync r = [SetCalled args] /\
        s_thrown r = gtagFunction args /\
        s_onSettled r = None
    | _ =>
        s_sync r = [] /\ s_thrown r = None /\
        exists handlers,
          s_onSettled r = Some handlers /\
          (forall config,
             let args :=
               [SVal (JStr "config");
                SVal match config !! "measurementId" with
                     | Some measurementId => measurementId
                     | None => JUndefined
                     end;
                SParams configParams] in
             handlers (Fulfilled config)
             = SetCalled args ::
               match gtagFunction args with
               | Some e => [SetLogged e]
               | None => []
               end) /\
          (forall e, handlers (Rejected e) = [SetLogged e])
    end in
  dispatches (setCurrentScreen gtagFunction screenName options)
    {[ "screen_name" := value screenName ]}
    {[ "update" := PPrim (JBool true);
       "screen_name" := value screenName ]} /\
  dispatches (setUserId gtagFunction id options)
    {[ "user_id" := value id ]}
    {[ "update" := PPrim (JBool true); "user_id" := value id ]} /\
  dispatches (setUserProperties gtagFunction properties options)
    (flattenUserProperties properties)
    {[ "update" := PPrim (JBool true);
       "user_properties" := PObject properties ]}.
Proof.
  intros value dispatches. subst value dispatches. cbv beta.
  unfold setCurrentScreen, setUserId, setUserProperties, thenCatch.
  destruct screenName, id;
    (destruct options as [[[[|]|]]|]; simpl;
     repeat split; try reflexivity;
     eexists; (split; [reflexivity|]); split; try reflexivity;
     intros config; unfold getProp;
     destruct (config !! "measurementId"); reflexivity).
Qed.

(** ** [setAnalyticsCollectionEnabled] *)

(** X11.  Once the config promise is fulfilled,
    [setAnalyticsCollectionEnabled] sets the window property [ga-disable-]
    followed by the measurement id, as the template literal prints it, to
    the negation of its argument and leaves every other property; a later
    call for the same id overrides an earlier one.  When the promise is
    rejected the window is as it was and the error is logged. *)
Theorem setAnalyticsCollectionEnabled_flag enabled config window :
  let id :=
    match config !! "measurementId" with
    | Some (JStr s) => s
    | Some (JNum z) => numberToString z
    | Some (JBool true) => "true"
    | Some (JBool false) => "false"
    | Some JUndefined | None => "undefined"
    end in
  setAnalyticsCollectionEnabled enabled (Fulfilled config) window
  = (<["ga-disable-" +:+ id := JBool (negb enabled)]> window, []) /\
  (forall again,
     (setAnalyticsCollectionEnabled again (Fulfilled config)
        (setAnalyticsCollectionEnabled enabled (Fulfilled config) window).1).1
     = <["ga-disable-" +:+ id := JBool (negb again)]> window) /\
  (forall e,
     setAnalyticsCollectionEnabled enabled (Rejected e) window
     = (window, [e])) /\
  (numberToString 1234 = "1234" /\
   numberToString (2 ^ 60) = "1152921504606847000" /\
   numberToString (10 ^ 21) = "1e+21" /\
   numberToString (- 2 ^ 70) = "-1.1805916207174113e+21").
Proof.
  intros id.
  assert (Hid : toPropertyKey (getProp config "measurementId") = id).
  { subst id. unfold getProp.
    destruct (config !! "measurementId") as [[|[|]|z|s]|]; reflexivity. }
  unfold setAnalyticsCollectionEnabled. rewrite Hid.
  split; [reflexivity|]. split; [|split; [reflexivity|]].
  - intros again. simpl. apply insert_insert_eq.
  - repeat split; vm_compute; reflexivity.
Qed.

(** * Further properties of [initializeGAId] and of [factory] *)

(** ** [initializeGAId] *)

Lemma initializeGAId_effects net getId fidFirst t gtagCore app st :
  let r := initializeGAId net getId fidFirst t gtagCore app st in
  dynamicConfigPromisesList r.1
  = dynamicConfigPromisesList st ++ [(fetchDynamicConfig net app).2] /\
  fetchCalls r.1 = fetchCalls st ++ (fetchDynamicConfig net app).1 /\
  loggedErrors r.1
  = loggedErrors st
    ++ match (fetchDynamicConfig net app).2 with
       | Fulfilled _ => []
       | Rejected e => [e]
       end /\
  measurementIdToAppId r.1
  = match (fetchDynamicConfig net app).2 with
    | Fulfilled config =>
        setProp (toPropertyKey (getProp config "measurementId"))
          (getProp config "appId") (measurementIdToAppId st)
    | Rejected _ => measurementIdToAppId st
    end.
Proof.
  unfold initializeGAId.
  destruct (fetchDynamicConfig net app) as [reqs dyn]. cbv zeta. simpl.
  destruct (promiseAll2 fidFirst dyn getId) as [[cfg fid]|e]; simpl.
  - destruct (gtagCore _); simpl.
    + destruct dyn; rewrite ?app_nil_r; auto.
    + destruct (gtagCore _); simpl; destruct dyn; rewrite ?app_nil_r; auto.
  - destruct dyn; rewrite ?app_nil_r; auto.
Qed.

Lemma promiseAll2_rejects fidFirst pa pb :
  (exists e, pa = Rejected e) \/ (exists e, pb = Rejected e) ->
  exists e, promiseAll2 fidFirst pa pb = Rejected e.
Proof.
  intros [[e He]|[e He]]; rewrite He.
  - destruct pb; simpl; eauto.
  - destruct pa; simpl; eauto.
Qed.

Lemma initializeGAId_rejected net getId fidFirst t gtagCore app st e :
  promiseAll2 fidFirst (fetchDynamicConfig net app).2 getId = Rejected e ->
  let r := initializeGAId net getId fidFirst t gtagCore app st in
  gtagCalls r.1 = gtagCalls st /\ r.2 = Rejected e.
Proof.
  intros Hrej r. subst r. unfold initializeGAId.
  destruct (fetchDynamicConfig net app) as [reqs dyn]. simpl in Hrej.
  cbv zeta. rewrite Hrej. split; reflexivity.
Qed.

(** X12.  When the config fetch or the installation id fails,
    [initializeGAId] rejects and never calls gtag; a failure of the fetch
    is also logged.  Whatever happens, it adds exactly one promise to the
    list and issues the requests of one [fetchDynamicConfig]. *)
Theorem initializeGAId_failure_skips_gtag
    net getId fidFirst t gtagCore app st :
  (exists e, (fetchDynamicConfig net app).2 = Rejected e)
  \/ (exists e, getId = Rejected e) ->
  let r := initializeGAId net getId fidFirst t gtagCore app st in
  gtagCalls r.1 = gtagCalls st /\
  (exists e, r.2 = Rejected e) /\
  (forall e, (fetchDynamicConfig net app).2 = Rejected e ->
     loggedErrors r.1 = loggedErrors st ++ [e]) /\
  dynamicConfigPromisesList r.1
  = dynamicConfigPromisesList st ++ [(fetchDynamicConfig net app).2] /\
  fetchCalls r.1 = fetchCalls st ++ (fetchDynamicConfig net app).1.
Proof.
  intros Hfail r.
  destruct (initializeGAId_effects net getId fidFirst t gtagCore app st)
    as (Hl & Hf & Hlog & _).
  fold r in Hl, Hf, Hlog.
  destruct (promiseAll2_rejects fidFirst _ _ Hfail) as [e0 Hrej].
  destruct (initializeGAId_rejected net getId fidFirst t gtagCore app st e0
              Hrej) as [Hc Hres].
  fold r in Hc, Hres.
  split; [exact Hc|]. split; [eauto|]. split; [|split; assumption].
  intros e He. rewrite Hlog, He. reflexivity.
Qed.

(** X13.  When the config fetch is fulfilled, [initializeGAId] records the
    app id of the config in [measurementIdToAppId] under the measurement
    id of the config, as a property key, whether or not the installation id
    arrives; it leaves the other entries and logs nothing.  A measurement
    id [__proto__] records nothing. *)
Theorem initializeGAId_maps_measurement_id
    net getId fidFirst t gtagCore app st config :
  (fetchDynamicConfig net app).2 = Fulfilled config ->
  let r := initializeGAId net getId fidFirst t gtagCore app st in
  let key :=
    match config !! "measurementId" with
    | Some (JStr s) => s
    | Some (JNum z) => numberToString z
    | Some (JBool true) => "true"
    | Some (JBool false) => "false"
    | Some JUndefined | None => "undefined"
    end in
  let value :=
    match config !! "appId" with
    | Some appId => appId
    | None => JUndefined
    end in
  (key <> "__proto__" ->
   measurementIdToAppId r.1 = <[key := value]> (measurementIdToAppId st)) /\
  (key = "__proto__" ->
   measurementIdToAppId r.1 = measurementIdToAppId st) /\
  loggedErrors r.1 = loggedErrors st.
Proof.
  intros Hcfg r key value.
  destruct (initializeGAId_effects net getId fidFirst t gtagCore app st)
    as (_ & _ & Hlog & Hmap).
  fold r in Hlog, Hmap. rewrite Hcfg in Hlog, Hmap.
  assert (Hkey : toPropertyKey (getProp config "measurementId") = key).
  { subst key. unfold getProp.
    destruct (config !! "measurementId") as [[|[|]|z|s]|]; reflexivity. }
  assert (Hval : getProp config "appId" = value) by reflexivity.
  rewrite Hkey, Hval in Hmap. rewrite Hmap, Hlog, app_nil_r.
  unfold setProp. split; [|split; [|reflexivity]].
  - intros Hne. rewrite bool_decide_eq_false_2 by exact Hne. reflexivity.
  - intros He. rewrite bool_decide_eq_true_2 by exact He. reflexivity.
Qed.

(** ** [factory] and [settings] *)

Section FactoryProperties.

Variable wrapOrCreateGtag : string -> string -> Gtag * Gtag.

Lemma factory_cases env app st :
  (falsy (appId app) = true /\
   factory wrapOrCreateGtag env app st = (st, inl (Created NO_GA_ID ∅))) \/
  (exists id,
      appId app = Some id /\ id <> "" /\
      (is_Some (initializationPromisesMap st !! id) \/
       inherited id = true) /\
      factory wrapOrCreateGtag env app st
      = (st, inl (Created ALREADY_EXISTS {[ "id" := id ]}))) \/
  (exists id st',
      appId app = Some id /\ id <> "" /\
      (initializationPromisesMap st !! id = None /\
       inherited id = false) /\
      factory wrapOrCreateGtag env app st = (st', inr app) /\
      let st1 := if globalInitDone st then st else
                   pageInit wrapOrCreateGtag env st in
      let r :=
        initializeGAId (env_net env) (env_getId env) (env_fidFirst env)
          (env_clock env) (callable (gtagCoreFunction st1)) app
          (gaState st1) in
      initializationPromisesMap st'
      = <[id := r.2]> (initializationPromisesMap st) /\
      gaState st' = r.1 /\
      dataLayerName st' = dataLayerName st /\
      gtagName st' = gtagName st /\
      globalInitDone st' = true /\
      pageCalls st' = pageCalls st1).
Proof.
  unfold factory. destruct (falsy (appId app)) eqn:Hf; [left; auto|].
  right. destruct (appId app) as [id|] eqn:Hid; [|discriminate].
  simpl in Hf. apply bool_decide_eq_false in Hf. simpl.
  destruct (initializationPromisesMap st !! id) as [promise|] eqn:Hm;
    [left; exists id; eauto 6|].
  destruct (inherited id) eqn:Hin; [left; exists id; auto 6|].
  - right. cbv zeta.
    destruct (initializeGAId _ _ _ _ _ _ _) as [ga init] eqn:Hi.
    eexists id, _. split; [reflexivity|]. split; [exact Hf|].
    split; [auto|]. split; [reflexivity|]. simpl.
    destruct (globalInitDone st) eqn:Hg; simpl; rewrite ?Hg;
      repeat split; reflexivity.
Qed.

(** X14.  A call of [factory] that throws leaves every module variable as
    it was, and it throws only for a missing or empty app id, for an app id
    that is already registered, or for one that is the name of a member of
    [Object.prototype]: for such a name it throws [ALREADY_EXISTS] even
    when nothing is registered. *)
Theorem factory_failure_leaves_state env app st :
  (forall st' e,
     factory wrapOrCreateGtag env app st = (st', inl e) ->
     st' = st /\
     ((falsy (appId app) = true /\ e = Created NO_GA_ID ∅) \/
      exists id,
        appId app = Some id /\
        (is_Some (initializationPromisesMap st !! id) \/
         id ∈ ["constructor"; "__defineGetter__"; "__defineSetter__";
               "hasOwnProperty"; "__lookupGetter__"; "__lookupSetter__";
               "isPrototypeOf"; "propertyIsEnumerable"; "toString";
               "valueOf"; "__proto__"; "toLocaleString"]) /\
        e = Created ALREADY_EXISTS {[ "id" := id ]})) /\
  (forall id,
     appId app = Some id ->
     id ∈ ["constructor"; "__defineGetter__"; "__defineSetter__";
           "hasOwnProperty"; "__lookupGetter__"; "__lookupSetter__";
           "isPrototypeOf"; "propertyIsEnumerable"; "toString";
           "valueOf"; "__proto__"; "toLocaleString"] ->
     factory wrapOrCreateGtag env app st
     = (st, inl (Created ALREADY_EXISTS {[ "id" := id ]}))).
Proof.
  split.
  - intros st' e H.
    destruct (factory_cases env app st)
      as [[Hf H1]|[(id & Hid & _ & Hm & H1)
                  |(id & st1 & _ & _ & _ & H1 & _)]];
      rewrite H1 in H; try discriminate; injection H as <- <-.
    + split; [reflexivity|]. left. auto.
    + split; [reflexivity|]. right. exists id.
      split; [exact Hid|]. split; [|reflexivity].
      destruct Hm as [Hm|Hm]; [left; exact Hm|right].
      apply bool_decide_eq_true in Hm. exact Hm.
  - intros id Hid Hin.
    destruct (factory_cases env app st)
      as [[Hf H1]|[(id' & Hid' & _ & _ & H1)
                  |(id' & st1 & Hid' & _ & [_ Hm] & _)]].
    + exfalso. rewrite Hid in Hf. simpl in Hf.
      apply bool_decide_eq_true in Hf. subst id. revert Hin.
      apply (proj1 (bool_decide_eq_false _)). reflexivity.
    + rewrite Hid in Hid'. injection Hid' as <-. exact H1.
    + exfalso. rewrite Hid in Hid'. injection Hid' as <-.
      apply bool_decide_eq_false in Hm. contradiction.
Qed.

(** X15.  After a call of [factory] for an app has returned, every further
    call for that app throws [ALREADY_EXISTS] and changes nothing, however
    the initialization of the first call ends. *)
Theorem factory_registers_once env app st st1 instance env' :
  factory wrapOrCreateGtag env app st = (st1, inr instance) ->
  factory wrapOrCreateGtag env' app st1
  = (st1, inl (Created ALREADY_EXISTS {[ "id" := default "" (appId app) ]})).
Proof.
  intros H.
  destruct (factory_cases env app st)
    as [[Hf H1]|[(id & Hid & _ & Hm & H1)
                |(id & st' & Hid & Hne & Hm & H1 & Hmap & _)]];
    rewrite H1 in H; try discriminate; injection H as <- _.
  cbv zeta in Hmap. unfold factory. rewrite Hid. simpl.
  rewrite bool_decide_eq_false_2 by exact Hne.
  rewrite Hmap, lookup_insert_eq. reflexivity.
Qed.

Lemma factory_returns_setup env app st st1 instance :
  factory wrapOrCreateGtag env app st = (st1, inr instance) ->
  globalInitDone st1 = true /\
  pageCalls st1
  = (if globalInitDone st then pageCalls st
     else pageCalls st
          ++ (if env_scriptOnPage env then []
              else [InsertScriptTag (dataLayerName st)])
          ++ [GetOrCreateDataLayer (dataLayerName st);
              WrapOrCreateGtag (dataLayerName st) (gtagName st)]).
Proof.
  intros H.
  destruct (factory_cases env app st)
    as [[Hf H1]|[(id & Hid & _ & Hm & H1)
                |(id & st' & Hid & Hne & Hm & H1 & _ & _ & _ & _ & Hg & Hp)]];
    rewrite H1 in H; try discriminate; injection H as <- _.
  split; [exact Hg|].
  rewrite Hp. destruct (globalInitDone st); reflexivity.
Qed.

(** X16.  The page is set up once.  A call of [factory] that returns sets
    the flag; if the flag was not set it has called the page helpers with
    the current names, inserting the script only when none is on the page;
    and no later call of [factory] calls a page helper or changes a name. *)
Theorem page_setup_runs_once env app st st1 instance :
  factory wrapOrCreateGtag env app st = (st1, inr instance) ->
  globalInitDone st1 = true /\
  pageCalls st1
  = (if globalInitDone st then pageCalls st
     else pageCalls st
          ++ (if env_scriptOnPage env then []
              else [InsertScriptTag (dataLayerName st)])
          ++ [GetOrCreateDataLayer (dataLayerName st);
              WrapOrCreateGtag (dataLayerName st) (gtagName st)]) /\
  forall env' app',
    let st2 := (factory wrapOrCreateGtag env' app' st1).1 in
    pageCalls st2 = pageCalls st1 /\
    dataLayerName st2 = dataLayerName st1 /\
    gtagName st2 = gtagName st1 /\
    globalInitDone st2 = true.
Proof.
  intros H.
  destruct (factory_returns_setup env app st st1 instance H) as [Hg Hp].
  split; [exact Hg|]. split; [exact Hp|].
  intros env' app'.
  destruct (factory_cases env' app' st1)
    as [[_ H2]|[(id2 & _ & _ & _ & H2)
               |(id2 & st2 & _ & _ & _ & H2 & _ & _ & Hd & Hn & Hg2 & Hp2)]];
    rewrite H2; simpl; auto.
  rewrite Hg in Hp2. auto.
Qed.

(** X17.  [settings] works only before the first call of [factory] that
    returns: afterwards it throws [ALREADY_INITIALIZED].  Before, it
    replaces each name for which a non-empty option is given, and the first
    page setup then uses the names it has left. *)
Theorem settings_only_before_setup options st :
  (globalInitDone st = true ->
   settings options st = inl (Created ALREADY_INITIALIZED ∅)) /\
  (forall env app st1 instance,
     factory wrapOrCreateGtag env app st = (st1, inr instance) ->
     settings options st1 = inl (Created ALREADY_INITIALIZED ∅)) /\
  (globalInitDone st = false ->
   exists st',
     settings options st = inr st' /\
     dataLayerName st'
     = (if falsy (opt_dataLayerName options) then dataLayerName st
        else default "" (opt_dataLayerName options)) /\
     gtagName st'
     = (if falsy (opt_gtagName options) then gtagName st
        else default "" (opt_gtagName options)) /\
     forall env app st1 instance,
       factory wrapOrCreateGtag env app st' = (st1, inr instance) ->
       pageCalls st1
       = pageCalls st
         ++ (if env_scriptOnPage env then []
             else [InsertScriptTag (dataLayerName st')])
         ++ [GetOrCreateDataLayer (dataLayerName st');
             WrapOrCreateGtag (dataLayerName st') (gtagName st')]).
Proof.
  split; [|split].
  - intros Hg. unfold settings. rewrite Hg. reflexivity.
  - intros env app st1 instance H.
    destruct (factory_returns_setup env app st st1 instance H) as (Hg & _).
    unfold settings. rewrite Hg. reflexivity.
  - intros Hg. unfold settings. rewrite Hg. eexists.
    split; [reflexivity|]. split; [reflexivity|]. split; [reflexivity|].
    intros env app st1 instance H.
    destruct (factory_returns_setup env app _ st1 instance H) as (_ & Hp).
    simpl in Hp. simpl. exact Hp.
Qed.

(** X18.  [factory] does not check the API key.  For an app without an
    API key, with an app id that is not registered and is not the name of
    a member of [Object.prototype], it returns an instance, makes no
    request and no gtag call, logs the error of the fetch, and registers
    the app with a rejected initialization, so that the app cannot be
    registered again. *)
Theorem factory_without_api_key env app st id :
  falsy (apiKey app) = true ->
  appId app = Some id -> id <> "" ->
  initializationPromisesMap st !! id = None ->
  id ∉ ["constructor"; "__defineGetter__"; "__defineSetter__";
        "hasOwnProperty"; "__lookupGetter__"; "__lookupSetter__";
        "isPrototypeOf"; "propertyIsEnumerable"; "toString"; "valueOf";
        "__proto__"; "toLocaleString"] ->
  exists st1,
    factory wrapOrCreateGtag env app st = (st1, inr app) /\
    (exists e, initializationPromisesMap st1 !! id = Some (Rejected e)) /\
    fetchCalls (gaState st1) = fetchCalls (gaState st) /\
    gtagCalls (gaState st1) = gtagCalls (gaState st) /\
    loggedErrors (gaState st1)
    = loggedErrors (gaState st) ++ [PlainError "no api key"] /\
    forall env',
      factory wrapOrCreateGtag env' app st1
      = (st1, inl (Created ALREADY_EXISTS {[ "id" := id ]})).
Proof.
  intros Hkey Hid Hne Hm Hown.
  destruct (factory_cases env app st)
    as [[Hf _]|[(id' & Hid' & _ & Hm' & _)
               |(id' & st1 & Hid' & _ & _ & H1 & Hmap & Hga & _)]].
  - rewrite Hid in Hf. simpl in Hf. apply bool_decide_eq_true in Hf.
    contradiction.
  - rewrite Hid in Hid'. injection Hid' as <-.
    destruct Hm' as [[pr Hm']|Hm']; [congruence|].
    apply bool_decide_eq_true in Hm'. contradiction.
  - rewrite Hid in Hid'. injection Hid' as <-.
    exists st1. split; [exact H1|].
    cbv zeta in Hmap, Hga.
    assert (Hfetch : fetchDynamicConfig (env_net env) app
                     = ([], Rejected (PlainError "no api key"))).
    { apply fetchDynamicConfig_unconfigured. unfold configured.
      rewrite Hkey. reflexivity. }
    assert (Hga0 : gaState
                     (if globalInitDone st then st
                      else pageInit wrapOrCreateGtag env st)
                   = gaState st)
      by (destruct (globalInitDone st); reflexivity).
    match type of Hga with
    | _ = (initializeGAId ?n ?g ?f ?t ?core ?a ?s).1 =>
        destruct (promiseAll2_rejects f (fetchDynamicConfig n a).2 g
                    ltac:(left; rewrite Hfetch; eauto)) as [e Hrej];
        destruct (initializeGAId_rejected n g f t core a s e Hrej)
          as [Hc He];
        destruct (initializeGAId_effects n g f t core a s)
          as (_ & Hreq & Hlog' & _)
    end.
    rewrite Hfetch in Hreq, Hlog'. simpl in Hreq, Hlog'.
    rewrite app_nil_r in Hreq.
    split; [exists e; rewrite Hmap, He; apply lookup_insert_eq|].
    rewrite Hga0 in Hc, Hlog', Hreq, Hga.
    split; [rewrite Hga; exact Hreq|].
    split; [rewrite Hga; exact Hc|].
    split; [rewrite Hga; exact Hlog'|].
    intros env'. unfold factory. rewrite Hid. simpl.
    rewrite bool_decide_eq_false_2 by exact Hne.
    rewrite Hmap, lookup_insert_eq. reflexivity.
Qed.

End FactoryProperties.

(** ** These properties on the samples *)

Lemma sampleRegistered_factory :
  factory sampleWrap sampleEnv sampleApp loadedFactoryState
  = (sampleRegistered, inr sampleApp).
Proof. reflexivity. Defined.

Lemma initializeGAId_failure_skips_gtag_witness :
  gtagCalls
    (initializeGAId sampleNet (Rejected (PlainError "no installation"))
       false 1000 (fun _ => None) sampleApp emptyGaState).1
  = [].
Proof.
  exact (proj1 (initializeGAId_failure_skips_gtag sampleNet
                  (Rejected (PlainError "no installation")) false 1000
                  (fun _ => None) sampleApp emptyGaState
                  (or_intror (ex_intro _ _ eq_refl)))).
Defined.

Lemma initializeGAId_maps_measurement_id_witness :
  measurementIdToAppId
    (initializeGAId sampleNet (Fulfilled "fid-1234-zyxw") false 1000
       (fun _ => None) sampleApp emptyGaState).1
  = {[ "abcd-efgh-ijkl" := JUndefined ]}.
Proof.
  exact (proj1 (initializeGAId_maps_measurement_id sampleNet
                  (Fulfilled "fid-1234-zyxw") false 1000 (fun _ => None)
                  sampleApp emptyGaState
                  {[ "measurementId" := JStr "abcd-efgh-ijkl" ]} eq_refl)
           ltac:(discriminate)).
Defined.

Lemma factory_failure_leaves_state_witness :
  (factory sampleWrap sampleEnv sampleApp sampleRegistered).1
  = sampleRegistered /\
  factory sampleWrap sampleEnv constructorApp loadedFactoryState
  = (loadedFactoryState,
     inl (Created ALREADY_EXISTS {[ "id" := "constructor" ]})).
Proof.
  split.
  - exact (proj1 (proj1 (factory_failure_leaves_state sampleWrap sampleEnv
                           sampleApp sampleRegistered)
                    (factory sampleWrap sampleEnv sampleApp
                       sampleRegistered).1
                    (Created ALREADY_EXISTS
                       {[ "id" := "abcdefgh12345:23405" ]})
                    eq_refl)).
  - apply (proj2 (factory_failure_leaves_state sampleWrap sampleEnv
                    constructorApp loadedFactoryState) "constructor");
      [reflexivity|].
    apply (bool_decide_unpack _). reflexivity.
Defined.

Lemma factory_registers_once_witness :
  factory sampleWrap sampleEnv sampleApp sampleRegistered
  = (sampleRegistered,
     inl (Created ALREADY_EXISTS {[ "id" := "abcdefgh12345:23405" ]})).
Proof.
  exact (factory_registers_once sampleWrap sampleEnv sampleApp
           loadedFactoryState sampleRegistered sampleApp sampleEnv
           sampleRegistered_factory).
Defined.

Lemma page_setup_runs_once_witness :
  pageCalls sampleRegistered
  = [InsertScriptTag "dataLayer"; GetOrCreateDataLayer "dataLayer";
     WrapOrCreateGtag "dataLayer" "gtag"].
Proof.
  exact (proj1 (proj2 (page_setup_runs_once sampleWrap sampleEnv sampleApp
                         loadedFactoryState sampleRegistered sampleApp
                         sampleRegistered_factory))).
Defined.

Lemma settings_only_before_setup_witness :
  settings {| opt_dataLayerName := Some "layer"; opt_gtagName := None |}
    sampleRegistered
  = inl (Created ALREADY_INITIALIZED ∅).
Proof.
  exact (proj1 (proj2 (settings_only_before_setup sampleWrap
                         {| opt_dataLayerName := Some "layer";
                            opt_gtagName := None |}
                         loadedFactoryState))
           sampleEnv sampleApp sampleRegistered sampleApp
           sampleRegistered_factory).
Defined.

Lemma factory_without_api_key_witness :
  exists st1,
    factory sampleWrap sampleEnv
      {| apiKey := None; appId := Some "abcdefgh12345:23405" |}
      loadedFactoryState
    = (st1, inr {| apiKey := None; appId := Some "abcdefgh12345:23405" |}) /\
    fetchCalls (gaState st1) = [].
Proof.
  destruct (factory_without_api_key sampleWrap sampleEnv
              {| apiKey := None; appId := Some "abcdefgh12345:23405" |}
              loadedFactoryState "abcdefgh12345:23405"
              eq_refl eq_refl ltac:(discriminate) eq_refl
              ltac:(apply (proj1 (bool_decide_eq_false _)); reflexivity))
    as (st1 & H1 & _ & Hf & _).
  exists st1. split; [exact H1|exact Hf].
Defined.

(** * The stored metadata and the state of the loop *)

Lemma lookupMetadata_numbers w key md :
  lookupMetadata w key = Some (Numbers md) <->
  appThrottleMetadata w !! key = Some md.
Proof.
  unfold lookupMetadata.
  destruct (appThrottleMetadata w !! key) as [md'|].
  - split; intros H; injection H as ->; reflexivity.
  - split; [|discriminate].
    destruct (bool_decide _ || inherited key); discriminate.
Qed.

Lemma lookupMetadata_notNumbers w key :
  lookupMetadata w key = Some NotNumbers ->
  appThrottleMetadata w !! key = None.
Proof.
  unfold lookupMetadata.
  destruct (appThrottleMetadata w !! key); [discriminate|reflexivity].
Qed.

Lemma lookupMetadata_world w w' key :
  appThrottleMetadata w' !! key = appThrottleMetadata w !! key ->
  (key ∈ nanThrottleMetadata w' <-> key ∈ nanThrottleMetadata w) ->
  lookupMetadata w' key = lookupMetadata w key.
Proof.
  intros Hm Hn. unfold lookupMetadata. rewrite Hm.
  destruct (appThrottleMetadata w !! key); [reflexivity|].
  rewrite (bool_decide_ext _ _ Hn). reflexivity.
Qed.

Lemma lookup_store_notNumbers key w :
  lookupMetadata w key = Some NotNumbers ->
  lookupMetadata (store_notNumbers key w) key = Some NotNumbers.
Proof.
  intros H. unfold store_notNumbers. case_bool_decide; [exact H|].
  unfold lookupMetadata. simpl. rewrite lookup_delete_eq.
  rewrite bool_decide_eq_true_2; [reflexivity|].
  apply elem_of_union_r, elem_of_singleton. reflexivity.
Qed.

(** What a write under another key leaves as it is. *)
Lemma write_other key k entry w :
  k <> key ->
  appThrottleMetadata (write k entry w) !! key
  = appThrottleMetadata w !! key /\
  (key ∈ nanThrottleMetadata (write k entry w)
   <-> key ∈ nanThrottleMetadata w).
Proof.
  intros Hk. destruct entry as [[md|]|]; simpl.
  - split; [apply lookup_insert_ne; exact Hk|].
    rewrite elem_of_difference, elem_of_singleton. split; [tauto|].
    intros H. split; [exact H|congruence].
  - unfold store_notNumbers. case_bool_decide; [tauto|]. simpl.
    split; [apply lookup_delete_ne; exact Hk|].
    rewrite elem_of_union, elem_of_singleton. split; [|tauto].
    intros [Hin|Hin]; [exact Hin|congruence].
  - split; [apply lookup_delete_ne; exact Hk|].
    rewrite elem_of_difference, elem_of_singleton. split; [tauto|].
    intros H. split; [exact H|congruence].
Qed.

Lemma mirrors_world key t0 c w w' :
  appThrottleMetadata w' !! key = appThrottleMetadata w !! key ->
  (key ∈ nanThrottleMetadata w' <-> key ∈ nanThrottleMetadata w) ->
  mirrors key t0 (c, w) -> mirrors key t0 (c, w').
Proof.
  intros Hm Hn. pose proof (lookupMetadata_world w w' key Hm Hn) as Hl.
  unfold mirrors. cbn [fst snd]. rewrite Hl, Hm.
  destruct (phase c); tauto.
Qed.

Section Mirror.

Variable calculateBackoffMillis : Z -> Z -> Z.

Lemma mirrors_step t0 ev c w c' w' :
  call_inv c ->
  mirrors (appKey (call_app c)) t0 (c, w) ->
  step calculateBackoffMillis ev (c, w) = Some (c', w') ->
  mirrors (appKey (call_app c)) t0 (c', w').
Proof.
  intros Hinv Hm Hstep.
  destruct ev as [id t|reply rnd t].
  - destruct (step_timer_inv _ _ _ _ _ _ Hstep)
      as (tm & Hid & Hst & Hdue & Hnow).
    rewrite (step_timer_enabled _ id t c w tm Hid Hst Hdue Hnow) in Hstep.
    apply (inj Some) in Hstep.
    pose proof (ev_phase _ _ (evolves_callback c id (t_cb tm))) as Hev.
    destruct (resume_detail calculateBackoffMillis
                (run_callback (t_cb tm)
                   (set_timers (alter fire_timer id (timers c)) c))
                (set_now t w))
      as [H|[(e & _ & H)|[(e & _ & H)
            |[(p & e & n & req & Hph & _ & _ & H)
             |(p & req & Hph & _ & _ & H)]]]];
      rewrite Hstep in H; injection H as -> ->;
      try exact I.
    + apply (mirrors_world _ _ _ w); [reflexivity|reflexivity|].
      unfold mirrors in *. simpl in Hm |- *. rewrite Hev. exact Hm.
    + apply (mirrors_world _ _ _ w); [reflexivity|reflexivity|].
      unfold mirrors in *. simpl in Hm |- *.
      rewrite Hev in Hph. rewrite Hph in Hm.
      destruct Hm as [Hm|(Hm & Hn & _)]; [left; eauto|right; auto].
    + apply (mirrors_world _ _ _ w); [reflexivity|reflexivity|].
      unfold mirrors in *. simpl in Hm |- *.
      rewrite Hev in Hph. rewrite Hph in Hm. exact Hm.
  - destruct (step_fetch_after _ _ _ _ _ _ _ Hstep) as (n & _ & Hph & Hst).
    symmetry in Hst.
    destruct (fetchDynamicConfig_settle reply) as [r|e].
    + simpl in Hst. injection Hst as <- <-. unfold mirrors. simpl.
      split; [apply lookup_delete_eq|].
      rewrite elem_of_difference, elem_of_singleton. tauto.
    + destruct (isRetriableError e) eqn:He.
      * destruct n as [n|].
        -- rewrite (after_fetch_retry _ _ _ _ _ _ He) in Hst.
           cbv zeta in Hst.
           unfold attemptFetchDynamicConfigWithRetry in Hst.
           destruct (falsy _ || falsy _); injection Hst as <- <-;
             [exact I|].
           unfold mirrors. simpl. left. apply lookup_insert_eq.
        -- rewrite (after_fetch_retry_nan _ _ _ _ _ He) in Hst.
           unfold attemptFetchDynamicConfigWithRetry in Hst.
           destruct (falsy _ || falsy _); injection Hst as <- <-;
             [exact I|].
           unfold mirrors in *. simpl in Hm |- *. rewrite Hph in Hm.
           apply lookup_store_notNumbers.
           rewrite <- Hm. apply lookupMetadata_world; reflexivity.
      * rewrite (after_fetch_fatal _ _ _ _ _ _ He) in Hst.
        injection Hst as <- <-. exact I.
Qed.

Lemma mirrors_act t0 a c w c' w' :
  call_inv c ->
  spares (appKey (call_app c)) a = true ->
  mirrors (appKey (call_app c)) t0 (c, w) ->
  act calculateBackoffMillis a (c, w) = Some (c', w') ->
  call_inv c' /\ call_app c' = call_app c /\
  mirrors (appKey (call_app c)) t0 (c', w').
Proof.
  intros Hinv Hsp Hm Hact. destruct a as [ev|k entry t]; simpl in Hact.
  - split; [exact (step_inv _ _ _ _ _ _ Hinv Hact)|].
    split; [exact (step_app _ _ _ _ _ _ Hact)|].
    exact (mirrors_step t0 ev c w c' w' Hinv Hm Hact).
  - destruct (_ && _); [|discriminate]. injection Hact as <- <-.
    split; [exact Hinv|]. split; [reflexivity|].
    simpl in Hsp. apply negb_true_iff, bool_decide_eq_false in Hsp.
    destruct (write_other (appKey (call_app c)) k entry (set_now t w) Hsp)
      as [H1 H2].
    apply (mirrors_world _ _ _ w); [exact H1|exact H2|exact Hm].
Qed.

Lemma mirrors_run t0 acts : forall c w c' w',
  call_inv c ->
  forallb (spares (appKey (call_app c))) acts = true ->
  mirrors (appKey (call_app c)) t0 (c, w) ->
  run_among calculateBackoffMillis acts (c, w) = Some (c', w') ->
  call_inv c' /\ call_app c' = call_app c /\
  mirrors (appKey (call_app c)) t0 (c', w').
Proof.
  induction acts as [|a acts IH]; intros c w c' w' Hinv Hsp Hm Hrun;
    cbn [run_among] in Hrun.
  - injection Hrun as <- <-. auto.
  - destruct (act calculateBackoffMillis a (c, w)) as [[c1 w1]|] eqn:Hs;
      [|discriminate].
    simpl in Hsp. apply andb_true_iff in Hsp as [Hsp1 Hsp2].
    destruct (mirrors_act t0 a c w c1 w1 Hinv Hsp1 Hm Hs)
      as (Hinv1 & Happ1 & Hm1).
    rewrite <- Happ1 in Hsp2, Hm1.
    destruct (IH c1 w1 c' w' Hinv1 Hsp2 Hm1 Hrun) as (H1 & H2 & H3).
    rewrite Happ1 in H2, H3. auto.
Qed.

Lemma mirrors_initial app w0 :
  mirrors (appKey app) (now w0) (fetchDynamicConfigWithRetry app w0).
Proof.
  unfold fetchDynamicConfigWithRetry, mirrors.
  destruct (falsy (apiKey app) || falsy (appId app)) eqn:Hg; [exact I|].
  cbv zeta. unfold setTimeout, attemptFetchDynamicConfigWithRetry.
  simpl. rewrite Hg.
  destruct (lookupMetadata w0 (appKey app)) as [[[n e]|]|] eqn:Hl; simpl.
  - left. apply lookupMetadata_numbers. exact Hl.
  - exact Hl.
  - right. auto.
Qed.

(** X19.  The stored entry of the call's app mirrors the loop, as long as
    the other calls that run between the events of the call write under
    other keys only.  While a delay is awaited the entry is the metadata of
    that delay, and while a fetch is in flight it has the count of that
    fetch, unless the call found nothing under the key and has not failed
    yet; a loop that runs on metadata without numbers finds such metadata
    under the key; once the call has returned there is no entry. *)
Theorem stored_metadata_mirrors_loop app w0 acts c w :
  forallb (spares (appKey app)) acts = true ->
  run_among calculateBackoffMillis acts (fetchDynamicConfigWithRetry app w0)
  = Some (c, w) ->
  let stored := appThrottleMetadata w !! appKey app in
  match phase c with
  | AwaitDelay _ e n =>
      stored = Some {| backoffCount := n; throttleEndTimeMillis := e |} \/
      (lookupMetadata w (appKey app) = None /\ n = 0 /\ e = now w0)
  | AwaitFetch n =>
      (exists e,
         stored = Some {| backoffCount := n; throttleEndTimeMillis := e |}) \/
      (lookupMetadata w (appKey app) = None /\ n = 0)
  | AwaitDelayNaN _ | AwaitFetchNaN =>
      lookupMetadata w (appKey app) = Some NotNumbers
  | Returned _ => stored = None /\ appKey app ∉ nanThrottleMetadata w
  | _ => True
  end.
Proof.
  intros Hsp Hrun.
  pose proof (fetchDynamicConfigWithRetry_inv app w0) as Hinv.
  pose proof (fetchDynamicConfigWithRetry_app app w0) as Happ.
  pose proof (mirrors_initial app w0) as Hm.
  destruct (fetchDynamicConfigWithRetry app w0) as [c0 w1].
  simpl in Hinv, Happ. rewrite <- Happ in Hm, Hsp.
  destruct (mirrors_run (now w0) acts c0 w1 c w Hinv Hsp Hm Hrun)
    as (_ & _ & H).
  rewrite Happ in H. exact H.
Qed.

(** Once the call has settled, an entry under a key stays as it is while
    the other calls write under other keys. *)
Lemma settled_entry_kept key md acts : forall c1 w1 c2 w2,
  finished (phase c1) = true ->
  appThrottleMetadata w1 !! key = Some md ->
  forallb (spares key) acts = true ->
  run_among calculateBackoffMillis acts (c1, w1) = Some (c2, w2) ->
  appThrottleMetadata w2 !! key = Some md.
Proof.
  induction acts as [|a acts IH];
    intros c1 w1 c2 w2 Hfin Hst Hsp Hrun; cbn [run_among] in Hrun.
  - injection Hrun as <- <-. exact Hst.
  - simpl in Hsp. apply andb_true_iff in Hsp as [Hsp1 Hsp2].
    destruct a as [ev|k entry t]; cbn [act] in Hrun.
    + destruct (step calculateBackoffMillis ev (c1, w1))
        as [[c3 w3]|] eqn:Hs; [|discriminate].
      destruct (step_finished _ _ _ _ _ _ Hfin Hs) as (H1 & H2 & H3 & H4).
      apply (IH c3 w3 c2 w2); try assumption.
      * rewrite H1. exact Hfin.
      * rewrite H2. exact Hst.
    + cbn [fst snd] in Hrun.
      destruct (_ && _); [|discriminate].
      simpl in Hsp1. apply negb_true_iff, bool_decide_eq_false in Hsp1.
      apply (IH c1 (write k entry (set_now t w1)) c2 w2);
        try assumption.
      destruct (write_other key k entry (set_now t w1) Hsp1)
        as [-> _]. exact Hst.
Qed.

(** X20.  A call that its watchdog cuts short while it awaits a delay for
    stored metadata is resumed by the next call, as long as the other
    calls that run in between write under other keys only: the call is
    rejected with the throttle error that carries the end time of the
    delay, and a top-level call for the same app on the state reached
    later, at whatever time, awaits a delay with the same end time and the
    same backoff count. *)
Theorem next_call_resumes_aborted_delay
    app w0 acts c w p e n id tm t c' w' acts' c2 w2 t' :
  configured app = true ->
  forallb (spares (appKey app)) acts = true ->
  run_among calculateBackoffMillis acts (fetchDynamicConfigWithRetry app w0)
  = Some (c, w) ->
  phase c = AwaitDelay p e n ->
  is_Some (appThrottleMetadata w !! appKey app) ->
  timers c !! id = Some tm -> t_cb tm = CbAbort ->
  step calculateBackoffMillis (TimerFires id t) (c, w) = Some (c', w') ->
  forallb (spares (appKey app)) acts' = true ->
  run_among calculateBackoffMillis acts' (c', w') = Some (c2, w2) ->
  phase c'
  = Thrown (FirebaseError (AnalyticsCode FETCH_THROTTLE)
              {[ "throttleEndTimeMillis" := e ]}) /\
  phase (fetchDynamicConfigWithRetry app (set_now t' w2)).1
  = AwaitDelay 0 e n.
Proof.
  intros Hc Hsp Hrun Hph [md Hmd] Hid Hcb Hstep Hsp' Hrun'.
  pose proof (Hm0 := mirrors_initial app w0).
  pose proof (fetchDynamicConfigWithRetry_inv app w0) as Hinv0.
  pose proof (fetchDynamicConfigWithRetry_app app w0) as Happ0.
  destruct (fetchDynamicConfigWithRetry app w0) as [c0 w1].
  simpl in Hinv0, Happ0. rewrite <- Happ0 in Hm0, Hsp.
  destruct (mirrors_run (now w0) acts c0 w1 c w Hinv0 Hsp Hm0 Hrun)
    as (Hinv & Happ & Hm).
  rewrite Happ0 in Hm, Happ. unfold mirrors in Hm. simpl in Hm.
  rewrite Hph in Hm.
  destruct Hm as [Hm|(Hm & _)];
    [|unfold lookupMetadata in Hm; rewrite Hmd in Hm; discriminate].
  destruct (step_timer_inv _ _ _ _ _ _ Hstep)
    as (tm0 & Hid0 & Hst & Hdue & Hnow).
  rewrite Hid in Hid0. injection Hid0 as <-.
  pose proof (step_inv _ _ _ _ _ _ Hinv Hstep) as Hinv'.
  pose proof (step_app _ _ _ _ _ _ Hstep) as Happ'.
  rewrite (watchdog_fires_in_delay _ c w id tm t p e n Hinv Hph Hid Hcb Hst
             Hdue Hnow) in Hstep.
  injection Hstep as Hc' Hw'. split; [rewrite <- Hc'; reflexivity|].
  assert (Hthrown : phase c' = Thrown (fetchThrottleError e))
    by (rewrite <- Hc'; reflexivity).
  assert (Hm2 : appThrottleMetadata w2 !! appKey app
                = Some {| backoffCount := n; throttleEndTimeMillis := e |}).
  { apply (settled_entry_kept (appKey app) _ acts' c' w' c2 w2);
      try assumption.
    - rewrite Hthrown. reflexivity.
    - rewrite <- Hw'. exact Hm. }
  unfold fetchDynamicConfigWithRetry.
  rewrite (configured_guard _ Hc). cbv zeta. unfold setTimeout.
  assert (Hl : lookupMetadata (set_now t' w2) (appKey app)
               = Some (Numbers {| backoffCount := n;
                                  throttleEndTimeMillis := e |}))
    by (apply lookupMetadata_numbers; exact Hm2).
  rewrite Hl. cbn [default]. unfold Datatypes.id.
  rewrite attempt_configured by exact Hc.
  reflexivity.
Qed.

End Mirror.

Lemma stored_metadata_mirrors_loop_witness :
  phase sampleResumed.1 = AwaitDelay 1 9107 3 /\
  appThrottleMetadata
    (write "1:other:web" None (set_now 5200 sampleResumed.2))
  !! appKey sampleApp
  = Some {| backoffCount := 3; throttleEndTimeMillis := 9107 |}.
Proof.
  pose (acts := [Own (TimerFires 1 5000);
                 Other "1:other:web"
                   (Some (Numbers {| backoffCount := 1;
                                     throttleEndTimeMillis := 7000 |}))
                   5050;
                 Own (FetchSettles (NetRejects (httpError 503)) 7 5100);
                 Other "1:other:web" None 5200]).
  assert (Hrun : run_among sampleBackoff acts
                   (fetchDynamicConfigWithRetry sampleApp sampleStoredWorld)
                 = Some (sampleResumed.1,
                         write "1:other:web" None
                           (set_now 5200 sampleResumed.2)))
    by (vm_compute; reflexivity).
  pose proof (stored_metadata_mirrors_loop sampleBackoff sampleApp
                sampleStoredWorld acts _ _ eq_refl Hrun) as H.
  assert (Hph : phase sampleResumed.1 = AwaitDelay 1 9107 3)
    by (vm_compute; reflexivity).
  split; [exact Hph|].
  cbv zeta in H. rewrite Hph in H.
  destruct H as [H|[H _]]; [exact H|vm_compute in H; discriminate H].
Defined.

Lemma next_call_resumes_aborted_delay_witness :
  let st := fetchDynamicConfigWithRetry sampleApp sampleThrottledWorld in
  exists c' w',
    step sampleBackoff (TimerFires 0 61000) st = Some (c', w') /\
    phase c'
    = Thrown (FirebaseError (AnalyticsCode FETCH_THROTTLE)
                {[ "throttleEndTimeMillis" := 200000 ]}) /\
    phase (fetchDynamicConfigWithRetry sampleApp
             (set_now 62000
                (write "1:other:web" None (set_now 61500 w')))).1
    = AwaitDelay 0 200000 7.
Proof.
  intros st.
  destruct (step sampleBackoff (TimerFires 0 61000) st) as [[c' w']|] eqn:Hs;
    [|vm_compute in Hs; discriminate Hs].
  exists c', w'. split; [reflexivity|].
  apply (next_call_resumes_aborted_delay sampleBackoff sampleApp
           sampleThrottledWorld [] st.1 st.2 0%nat 200000 7 0%nat
           {| t_due := 61000; t_cb := CbAbort; t_state := TPending |}
           61000 c' w' [Other "1:other:web" None 61500] c'
           (write "1:other:web" None (set_now 61500 w')) 62000).
  - reflexivity.
  - reflexivity.
  - reflexivity.
  - vm_compute. reflexivity.
  - eexists. vm_compute. reflexivity.
  - vm_compute. reflexivity.
  - reflexivity.
  - exact Hs.
  - reflexivity.
  - cbn [run_among act fst snd].
    assert (Hn : now w' = 61000).
    { vm_compute in Hs. injection Hs as _ <-. reflexivity. }
    rewrite Hn. reflexivity.
Defined.

(** * End times under a positive backoff *)

Section Climb.

Variable calculateBackoffMillis : Z -> Z -> Z.
Hypothesis backoff_pos : forall n rnd, 0 < calculateBackoffMillis n rnd.

Lemma storedAfterFetches_climbing evs : forall c w cnt L,
  call_inv c -> tracks cnt L (c, w) ->
  Forall (fun ev => retriableFailure ev = true) evs ->
  climbing L
    (storedAfterFetches calculateBackoffMillis (appKey (call_app c)) evs
       (c, w)).
Proof.
  induction evs as [|ev evs IH]; intros c w cnt L Hinv Htr Hall;
    [exact I|].
  apply Forall_cons in Hall as [Hev Hall].
  cbn [storedAfterFetches].
  destruct (step calculateBackoffMillis ev (c, w)) as [[c' w']|] eqn:Hstep;
    [|exact I].
  pose proof (step_app _ _ _ _ _ _ Hstep) as Happ.
  pose proof (step_inv _ _ _ _ _ _ Hinv Hstep) as Hinv'.
  destruct ev as [id t|reply rnd t].
  - simpl. rewrite <- Happ. apply (IH c' w' cnt L); try assumption.
    exact (step_timer_tracks _ id t c w c' w' cnt L Hinv Htr Hstep).
  - destruct (step_fetch_inv _ _ _ _ _ _ _ Hstep)
      as (Ht & [(n & Hph)|Hph]);
      [|unfold tracks in Htr; simpl in Htr; rewrite Hph in Htr;
        contradiction].
    unfold retriableFailure in Hev.
    destruct (fetchDynamicConfig_settle reply) as [r|e] eqn:Hs;
      [discriminate|].
    rewrite (step_fetch_retry _ _ _ _ _ _ _ _ Hph Ht
               (sendable_configured _ (inv_fetch c Hinv n Hph)) Hs Hev)
      in Hstep.
    unfold tracks in Htr. simpl in Htr. rewrite Hph in Htr.
    destruct Htr as [-> HL].
    injection Hstep as Hc' Hw'.
    simpl. exists (nextMetadata calculateBackoffMillis cnt rnd t).
    split; [rewrite <- Hw'; simpl; rewrite lookup_insert_eq; reflexivity|].
    pose proof (backoff_pos cnt rnd) as Hb.
    split; [simpl; lia|].
    rewrite <- Happ.
    apply (IH c' w' (cnt + 1)
             (throttleEndTimeMillis
                (nextMetadata calculateBackoffMillis cnt rnd t)));
      try assumption.
    unfold tracks. rewrite <- Hc'. simpl. split; [reflexivity|lia].
Qed.

Lemma climbing_lookup h : forall L k md,
  climbing L h -> h !! k = Some (Some md) ->
  L < throttleEndTimeMillis md.
Proof.
  induction h as [|o h IH]; intros L k md Hc Hk; [discriminate|].
  destruct Hc as (md0 & -> & HL & Hc). destruct k as [|k]; simpl in Hk.
  - injection Hk as <-. exact HL.
  - specialize (IH _ k md Hc Hk). lia.
Qed.

Lemma climbing_increasing h : forall L i j mi mj,
  climbing L h -> (i < j)%nat ->
  h !! i = Some (Some mi) -> h !! j = Some (Some mj) ->
  throttleEndTimeMillis mi < throttleEndTimeMillis mj.
Proof.
  induction h as [|o h IH]; intros L i j mi mj Hc Hij Hi Hj;
    [discriminate|].
  destruct Hc as (md0 & -> & HL & Hc).
  destruct j as [|j]; [lia|]. simpl in Hj. destruct i as [|i]; simpl in Hi.
  - injection Hi as <-. exact (climbing_lookup h _ j mj Hc Hj).
  - apply (IH _ i j mi mj Hc); [lia|assumption|assumption].
Qed.

Lemma store_notNumbers_none key w :
  appThrottleMetadata w !! key = None ->
  appThrottleMetadata (store_notNumbers key w) !! key = None.
Proof.
  intros H. unfold store_notNumbers. case_bool_decide; [exact H|].
  apply lookup_delete_eq.
Qed.

Lemma numberless_timer id t c w c' w' :
  numberless (appKey (call_app c)) (c, w) ->
  step calculateBackoffMillis (TimerFires id t) (c, w) = Some (c', w') ->
  numberless (appKey (call_app c)) (c', w').
Proof.
  intros Hn Hstep. unfold numberless in *. cbn [fst snd] in Hn |- *.
  destruct (step_timer_inv _ _ _ _ _ _ Hstep)
    as (tm & Hid & Hst & Hdue & Hnow).
  rewrite (step_timer_enabled _ id t c w tm Hid Hst Hdue Hnow) in Hstep.
  apply (inj Some) in Hstep.
  pose proof (ev_phase _ _ (evolves_callback c id (t_cb tm))) as Hev.
  destruct (resume_detail calculateBackoffMillis
              (run_callback (t_cb tm)
                 (set_timers (alter fire_timer id (timers c)) c))
              (set_now t w))
    as [H|[(e & _ & H)|[(e & _ & H)
          |[(p & e & n & req & Hph & _ & _ & H)
           |(p & req & Hph & _ & _ & H)]]]];
    rewrite Hstep in H; injection H as -> ->.
  - rewrite Hev. exact Hn.
  - exact I.
  - exact I.
  - rewrite Hev in Hph. rewrite Hph in Hn. contradiction.
  - rewrite Hev in Hph. rewrite Hph in Hn. exact Hn.
Qed.

Lemma numberless_fetch reply rnd t c w c' w' :
  numberless (appKey (call_app c)) (c, w) ->
  step calculateBackoffMillis (FetchSettles reply rnd t) (c, w)
  = Some (c', w') ->
  numberless (appKey (call_app c)) (c', w') /\
  appThrottleMetadata w' !! appKey (call_app c) = None.
Proof.
  intros Hn Hstep. unfold numberless in *. cbn [fst snd] in Hn |- *.
  destruct (step_fetch_after _ _ _ _ _ _ _ Hstep) as (n & _ & Hph & Hst).
  rewrite Hph in Hn. destruct n as [n|]; [contradiction|].
  symmetry in Hst.
  destruct (after_fetch_cases calculateBackoffMillis
              (fetchDynamicConfig_settle reply) rnd NaN c (set_now t w))
    as [(r & _ & H)|[(e & _ & _ & H)|(e & md & w1 & Hr & He & _)]].
  - rewrite H in Hst. injection Hst as <- <-.
    split; [exact I|apply lookup_delete_eq].
  - rewrite H in Hst. injection Hst as <- <-.
    split; [exact I|apply lookup_delete_eq].
  - rewrite Hr, (after_fetch_retry_nan _ _ _ _ _ He) in Hst.
    pose proof (store_notNumbers_none (appKey (call_app c)) (set_now t w) Hn)
      as Hnone.
    unfold attemptFetchDynamicConfigWithRetry in Hst.
    destruct (falsy _ || falsy _); injection Hst as <- <-;
      (split; [|exact Hnone]); [exact I|exact Hnone].
Qed.

Lemma storedAfterFetches_numberless evs : forall c w,
  numberless (appKey (call_app c)) (c, w) ->
  Forall (fun o => o = None)
    (storedAfterFetches calculateBackoffMillis (appKey (call_app c)) evs
       (c, w)).
Proof.
  induction evs as [|ev evs IH]; intros c w Hn; [constructor|].
  cbn [storedAfterFetches].
  destruct (step calculateBackoffMillis ev (c, w)) as [[c' w']|] eqn:Hstep;
    [|constructor].
  pose proof (step_app _ _ _ _ _ _ Hstep) as Happ.
  destruct ev as [id t|reply rnd t]; cbn [app fst snd].
  - rewrite <- Happ. apply IH. rewrite Happ.
    exact (numberless_timer id t c w c' w' Hn Hstep).
  - destruct (numberless_fetch reply rnd t c w c' w' Hn Hstep) as [Hn' H].
    constructor; [exact H|].
    rewrite <- Happ. apply IH. rewrite Happ. exact Hn'.
Qed.

Lemma fetchDynamicConfigWithRetry_numberless app w :
  initialMetadata app w = NotNumbers ->
  numberless (appKey app) (fetchDynamicConfigWithRetry app w).
Proof.
  unfold initialMetadata. intros Hmd.
  assert (Hl : lookupMetadata w (appKey app) = Some NotNumbers).
  { destruct (lookupMetadata w (appKey app)) as [[md|]|];
      [discriminate|reflexivity|discriminate]. }
  unfold fetchDynamicConfigWithRetry, numberless.
  destruct (falsy (apiKey app) || falsy (appId app)) eqn:Hg; [exact I|].
  cbv zeta. unfold setTimeout. rewrite Hmd.
  rewrite attempt_notNumbers
    by (unfold configured; simpl; rewrite Hg; reflexivity).
  cbn [fst snd phase set_phase].
  exact (lookupMetadata_notNumbers _ _ Hl).
Qed.

(** X21.  When every backoff is positive, the end times stored after
    successive retriable failures of a call grow strictly, and each lies
    after the end time the call started from, when it started from
    metadata that holds numbers: a retry is never scheduled for the time
    of an earlier one.  A call that started from metadata without numbers
    stores no end time at all. *)
Theorem retry_end_times_strictly_increase app w evs :
  Forall (fun ev => retriableFailure ev = true) evs ->
  let h :=
    storedAfterFetches calculateBackoffMillis (appKey app) evs
      (fetchDynamicConfigWithRetry app w) in
  (forall md0 k md,
     initialMetadata app w = Numbers md0 -> h !! k = Some (Some md) ->
     throttleEndTimeMillis md0 < throttleEndTimeMillis md) /\
  (forall i j mi mj, (i < j)%nat ->
     h !! i = Some (Some mi) -> h !! j = Some (Some mj) ->
     throttleEndTimeMillis mi < throttleEndTimeMillis mj) /\
  (initialMetadata app w = NotNumbers ->
   forall k md, h !! k <> Some (Some md)).
Proof.
  intros Hall h.
  pose proof (fetchDynamicConfigWithRetry_app app w) as Happ.
  pose proof (fetchDynamicConfigWithRetry_inv app w) as Hinv.
  assert (Hnum : forall md0, initialMetadata app w = Numbers md0 ->
                   climbing (throttleEndTimeMillis md0) h).
  { intros md0 Hmd. subst h.
    pose proof (fetchDynamicConfigWithRetry_tracks app w md0 Hmd) as Htr.
    destruct (fetchDynamicConfigWithRetry app w) as [c0 w0] eqn:H0.
    simpl in Happ, Hinv.
    replace (appKey app) with (appKey (call_app c0))
      by (rewrite Happ; reflexivity).
    eapply storedAfterFetches_climbing; eassumption. }
  assert (Hnan : initialMetadata app w = NotNumbers ->
                 forall k md, h !! k <> Some (Some md)).
  { intros Hmd k md Hk. subst h.
    pose proof (fetchDynamicConfigWithRetry_numberless app w Hmd) as Hn.
    destruct (fetchDynamicConfigWithRetry app w) as [c0 w0] eqn:H0.
    simpl in Happ. rewrite <- Happ in Hn, Hk.
    pose proof (storedAfterFetches_numberless evs c0 w0 Hn) as Hf.
    rewrite Forall_lookup in Hf. specialize (Hf k _ Hk). discriminate. }
  split; [|split; [|exact Hnan]].
  - intros md0 k md Hmd Hk.
    exact (climbing_lookup h _ k md (Hnum md0 Hmd) Hk).
  - intros i j mi mj Hij Hi Hj.
    destruct (initialMetadata app w) as [md0|] eqn:Hmd.
    + exact (climbing_increasing h _ i j mi mj (Hnum md0 eq_refl) Hij Hi Hj).
    + exfalso. exact (Hnan eq_refl i mi Hi).
Qed.

End Climb.

Lemma clampedBackoff_pos n rnd : 0 < clampedBackoff n rnd.
Proof.
  unfold clampedBackoff, sampleBackoff.
  pose proof (Z.pow_pos_nonneg 2 (Z.max 0 n) ltac:(lia) ltac:(lia)).
  pose proof (Z.mod_pos_bound (Z.abs rnd) 500 ltac:(lia)). lia.
Qed.

Lemma retry_end_times_strictly_increase_witness :
  Forall (fun ev => retriableFailure ev = true) sampleFailures /\
  let h :=
    storedAfterFetches clampedBackoff (appKey sampleApp) sampleFailures
      (fetchDynamicConfigWithRetry sampleApp sampleWorld) in
  (forall md0 k md,
     initialMetadata sampleApp sampleWorld = Numbers md0 ->
     h !! k = Some (Some md) ->
     throttleEndTimeMillis md0 < throttleEndTimeMillis md) /\
  (forall i j mi mj, (i < j)%nat ->
     h !! i = Some (Some mi) -> h !! j = Some (Some mj) ->
     throttleEndTimeMillis mi < throttleEndTimeMillis mj) /\
  (initialMetadata sampleApp sampleWorld = NotNumbers ->
   forall k md, h !! k <> Some (Some md)).
Proof.
  assert (H : Forall (fun ev => retriableFailure ev = true) sampleFailures)
    by (repeat constructor).
  split; [exact H|].
  exact (retry_end_times_strictly_increase clampedBackoff clampedBackoff_pos
           sampleApp sampleWorld sampleFailures H).
Defined.
